(** * AiChemistForge: the search core of the TypeScript tool rack

    A shallow embedding of the code behind the Brave search tools, and the
    properties of it that the specification states.

    - [JS]              the JavaScript primitives the code relies on
                        (string methods, [parseInt], [Math.round]);
    - [BraveSearch]     tools/braveSearchTools.ts: the two-window rate
                        limiter ([checkRateLimit], [incrementRateLimit]),
                        [addJitter] and the retry loop of
                        [performBraveSearch];
    - [ResultProcessor] services/resultProcessor.ts: [parseSearchResults];
    - [Embedding]       services/embeddingService.ts: [cosineSimilarity];
    - [SemanticCache]   services/semanticCache.ts: [initialize],
                        [cleanupExpired], [findSimilar] and [store];
    - [LoopView], [ParserView], [VectorView], [CacheView]: the vocabulary of
                        the statements and the inputs of the examples.

    Conventions.  JavaScript numbers that the code only uses as integers
    (timestamps, counters, delays) are [Z]; a number that may be [NaN] is an
    [option Z] with [None] for [NaN].  [Math.random()] is a rational in
    [0, 1) and the jitter is computed exactly on rationals.  Embedding
    vectors are lists of IEEE-754 binary64 numbers ([PrimFloat.float]), the
    arithmetic JavaScript performs on the elements of a [Float32Array].
    Strings are [string]s whose characters stand for the code units 0..255.
    [Date.now()], [Math.random()], the upstream HTTP exchange, the embedding
    model and the SQLite driver are inputs (oracles) of the functions that
    consult them; every exception the source can raise is an explicit
    result.  The body of a 200 response is a [BraveWeb] or, the cast being
    unchecked, a value of another shape, which is given by what the code
    makes of it: a text, or a TypeError. *)

From Stdlib Require Import ZArith List String Ascii Bool Lia QArith Qround Lqa.
From Stdlib Require Import PrimFloat.
From Stdlib Require Import DecimalString.

#[local] Set Warnings "-inexact-float".
Import ListNotations.
Local Open Scope string_scope.
Local Open Scope Z_scope.

(* ====================================================================== *)
(** * JavaScript primitives *)
(* ====================================================================== *)

Module JS.

(** The line feed character, ['\n']. *)
Definition LF : ascii := ascii_of_nat 10.
Definition nl : string := String LF EmptyString.

(** [s.startsWith(p)] *)
Definition startsWith (s p : string) : bool := String.prefix p s.

(** [s.substring(n)] for [0 <= n]: the suffix from index [n]. *)
Fixpoint substring (n : nat) (s : string) : string :=
  match n, s with
  | O, _ => s
  | S n', String _ s' => substring n' s'
  | S _, EmptyString => EmptyString
  end.

(** WhiteSpace and LineTerminator code units below 256: TAB, LF, VT, FF,
    CR, SP and NBSP. *)
Definition isWhiteSpace (c : ascii) : bool :=
  let n := nat_of_ascii c in
  ((9 <=? n)%nat && (n <=? 13)%nat) || (n =? 32)%nat || (n =? 160)%nat.

Fixpoint trimStart (s : string) : string :=
  match s with
  | EmptyString => EmptyString
  | String c s' => if isWhiteSpace c then trimStart s' else s
  end.

(** [trimEnd] keeps a character when it is not white space or when
    something survives after it. *)
Fixpoint trimEnd (s : string) : string :=
  match s with
  | EmptyString => EmptyString
  | String c s' =>
      match trimEnd s' with
      | EmptyString => if isWhiteSpace c then EmptyString else String c EmptyString
      | t => String c t
      end
  end.

(** [s.trim()] *)
Definition trim (s : string) : string := trimEnd (trimStart s).

(** Truthiness of a string: every string but the empty one. *)
Definition truthy (s : string) : bool :=
  match s with EmptyString => false | String _ _ => true end.

(** [s.split(sep)] for a non-empty separator: left to right, matches do
    not overlap.  [skip] counts the characters of a matched separator that
    are still to be passed over, [acc] is the piece being collected. *)
Fixpoint splitFrom (sep : string) (skip : nat) (acc s : string) : list string :=
  match s with
  | EmptyString => [acc]
  | String c s' =>
      match skip with
      | S k => splitFrom sep k acc s'
      | O =>
          if String.prefix sep s
          then acc :: splitFrom sep (String.length sep - 1) EmptyString s'
          else splitFrom sep O (acc ++ String c EmptyString) s'
      end
  end.

Definition split (sep s : string) : list string := splitFrom sep O EmptyString s.

(** [arr.join(sep)] *)
Fixpoint join (sep : string) (l : list string) : string :=
  match l with
  | [] => EmptyString
  | [x] => x
  | x :: rest => x ++ sep ++ join sep rest
  end.

(** Value of a digit in the given radix (10 or 16). *)
Definition digitValue (radix : Z) (c : ascii) : option Z :=
  let n := Z.of_nat (nat_of_ascii c) in
  let v := if (48 <=? n) && (n <=? 57) then Some (n - 48)
           else if (97 <=? n) && (n <=? 102) then Some (n - 87)
           else if (65 <=? n) && (n <=? 70) then Some (n - 55)
           else None in
  match v with
  | Some d => if d <? radix then Some d else None
  | None => None
  end.

(** The mathematical value of the longest prefix of digits; [acc] is
    [None] until a first digit has been read. *)
Fixpoint parseDigits (radix : Z) (acc : option Z) (s : string) : option Z :=
  match s with
  | EmptyString => acc
  | String c s' =>
      match digitValue radix c with
      | Some d =>
          parseDigits radix
            (Some (match acc with Some a => a * radix + d | None => d end)) s'
      | None => acc
      end
  end.

(** [parseInt(s)] without a radix argument: leading white space, an
    optional sign, an optional [0x]/[0X] prefix, then the longest prefix of
    digits; [None] is [NaN].  (The result is the exact integer; the
    rounding of integers above 2^53 is not modelled.) *)
Definition parseInt (s : string) : option Z :=
  let s1 := trimStart s in
  let '(sign, s2) :=
    match s1 with
    | String "-" r => (-1, r)
    | String "+" r => (1, r)
    | _ => (1, s1)
    end in
  let '(radix, s3) :=
    if String.prefix "0x" s2 || String.prefix "0X" s2
    then (16, substring 2 s2) else (10, s2) in
  option_map (Z.mul sign) (parseDigits radix None s3).

(** [Math.round(x)]: the nearest integer, halves towards +infinity. *)
Definition Math_round (x : Q) : Z := Qfloor (x + (1 # 2)).

(** [Math.ceil(a / b)] for integers [a] and [0 < b]. *)
Definition Math_ceil_div (a b : Z) : Z := - ((- a) / b).

End JS.

(* ====================================================================== *)
(** * tools/braveSearchTools.ts *)
(* ====================================================================== *)

Module BraveSearch.

(** [RATE_LIMIT]: Brave API free tier limits. *)
Record RateLimitConfig := { perSecond : Z; perMonth : Z }.
Definition RATE_LIMIT : RateLimitConfig := {| perSecond := 1; perMonth := 2000 |}.

(** [RETRY_CONFIG] *)
Record RetryConfig := {
  maxAttempts : Z;
  initialDelayMs : Z;
  maxDelayMs : Z;
  backoffMultiplier : Z;
  jitterFactor : Q
}.
Definition RETRY_CONFIG : RetryConfig :=
  {| maxAttempts := 3;
     initialDelayMs := 1000;
     maxDelayMs := 10000;
     backoffMultiplier := 2;
     jitterFactor := 1 # 10 |}.

(** The module-level [requestCount] object. *)
Record RequestCount := {
  second : Z;
  month : Z;
  lastSecondReset : Z;
  lastMonthReset : Z
}.

(** The two [reason] templates of [checkRateLimit], with the values they
    interpolate:
    [Monthly rate limit of ${limit} requests exceeded. Resets in ${days} days.]
    and [Per-second rate limit reached. Wait ${waitTime}ms before retry.] *)
Inductive Reason :=
| MonthlyExceeded (limit days : Z)
| PerSecondReached (waitTime : Z).

Record RateLimitCheck := {
  canProceed : bool;
  waitTimeMs : Z;
  reason : option Reason
}.

(** The two window resets at the head of [checkRateLimit]. *)
Definition rollover (now : Z) (rc : RequestCount) : RequestCount :=
  let rc1 :=
    if 1000 <=? now - lastSecondReset rc
    then {| second := 0; month := month rc;
            lastSecondReset := now; lastMonthReset := lastMonthReset rc |}
    else rc in
  if 2592000000 <=? now - lastMonthReset rc1
  then {| second := second rc1; month := 0;
          lastSecondReset := lastSecondReset rc1; lastMonthReset := now |}
  else rc1.

(** [checkRateLimit()], with [now] the value of [Date.now()]; returns the
    check and the updated [requestCount]. *)
Definition checkRateLimit (now : Z) (rc : RequestCount)
  : RateLimitCheck * RequestCount :=
  let rc := rollover now rc in
  if perMonth RATE_LIMIT <=? month rc then
    ({| canProceed := false;
        waitTimeMs := 0;
        reason := Some (MonthlyExceeded (perMonth RATE_LIMIT)
                          (JS.Math_ceil_div
                             (2592000000 - (now - lastMonthReset rc)) 86400000)) |},
     rc)
  else if perSecond RATE_LIMIT <=? second rc then
    let waitTime := 1000 - (now - lastSecondReset rc) in
    ({| canProceed := false;
        waitTimeMs := Z.max 0 waitTime;
        reason := Some (PerSecondReached waitTime) |},
     rc)
  else ({| canProceed := true; waitTimeMs := 0; reason := None |}, rc).

(** [incrementRateLimit()] *)
Definition incrementRateLimit (rc : RequestCount) : RequestCount :=
  {| second := second rc + 1;
     month := month rc + 1;
     lastSecondReset := lastSecondReset rc;
     lastMonthReset := lastMonthReset rc |}.

(** [addJitter(delayMs)], with [rnd] the value of [Math.random()]. *)
Definition addJitter (rnd : Q) (delayMs : option Z) : option Z :=
  match delayMs with
  | None => None
  | Some d =>
      let jitter := (inject_Z d * jitterFactor RETRY_CONFIG * (rnd - (1 # 2)))%Q in
      Some (JS.Math_round (inject_Z d + jitter)%Q)
  end.

(** One entry of [data.web.results]. *)
Record WebResult := { title : string; description : string; url : string }.

(** [interface BraveWeb]: both [web] and [web.results] are optional. *)
Record WebPart := { results : option (list WebResult) }.
Record BraveWeb := { web : option WebPart }.

(** The cast [as BraveWeb] of the parsed body is unchecked.  What the
    code after [incrementRateLimit()] makes of a body of another shape: the
    text it builds, or the TypeError it throws (a [null] body at
    [data.web], [results] that are no array at [.map], a [null] entry at
    [result.title]). *)
Inductive Reading :=
| Formats (text : string)
| Throws (typeError : string).

(** What one pass through the [try] block observes of the upstream
    exchange. *)
Inductive FetchOutcome :=
| Aborted                         (* [fetch] or [response.json()] rejects with an AbortError *)
| Failed (message : string)       (* they reject with any other error *)
| Status429 (retryAfter : option string)  (* [response.headers.get('retry-after')] *)
| NotOk (status : Z) (statusText details : string)
| Ok200 (data : BraveWeb)
| Ok200Untyped (reading : Reading). (* status 200, the body parses, but not to a [BraveWeb] *)

(** The errors [performBraveSearch] creates or re-throws. *)
Inductive Error :=
| QuotaError (r : Reason)             (* [new Error(rateLimitCheck.reason)] *)
| QuotaErrorDefault                   (* 'Monthly rate limit exceeded.' *)
| RateLimit429 (attempt : Z)          (* 'Brave API rate limit exceeded (429). Attempt a/max' *)
| RateLimitExhausted (attempts : Z)   (* 'Brave API rate limit exceeded after max attempts. ...' *)
| ApiError (status : Z) (statusText details : string)
| Timeout (attempt : Z)               (* 'Request timeout after 10 seconds. Attempt a/max' *)
| AbortError                          (* the caught AbortError, re-thrown *)
| OtherError (message : string)       (* any other caught error, re-thrown *)
| MaxRetries.                         (* 'Search failed after maximum retry attempts' *)

(** [Date.now()], [Math.random()] and the upstream exchange, indexed by the
    value of [attempt] at which the loop consults them. *)
Record Env := {
  now : Z -> Z;
  random : Z -> Q;
  fetch : Z -> FetchOutcome
}.

Inductive Event :=
| EvCheck (time : Z) (check : RateLimitCheck)   (* a call of [checkRateLimit] *)
| EvSleep (ms : option Z)                       (* [await sleep(ms)] *)
| EvFetch (attempt : Z) (outcome : FetchOutcome)(* a call of [fetch] *)
| EvCommit.                                     (* a call of [incrementRateLimit] *)

Inductive Completion :=
| Returned (text : string)
| Threw (e : Error)
| OutOfFuel.

Record Run := {
  completion : Completion;
  final : RequestCount;
  trace : list Event
}.

(** The text returned on success. *)
Definition orElse (s fallback : string) : string :=
  if JS.truthy s then s else fallback.

Definition formatData (data : BraveWeb) : string :=
  let raw :=
    match web data with
    | Some w => match results w with Some l => l | None => [] end
    | None => []
    end in
  let shown :=
    map (fun r => {| title := orElse (title r) "N/A";
                     description := orElse (description r) "N/A";
                     url := orElse (url r) "#" |}) raw in
  match shown with
  | [] => "No results found for your query."
  | _ =>
      JS.join (JS.nl ++ JS.nl)
        (map (fun r => "Title: " ++ title r ++ JS.nl ++
                       "Description: " ++ description r ++ JS.nl ++
                       "URL: " ++ url r) shown)
  end.

(** How the attempt ends on a body that is not a [BraveWeb]: the text is
    returned, the TypeError is caught and re-thrown. *)
Definition settle (reading : Reading) : Completion :=
  match reading with
  | Formats text => Returned text
  | Throws typeError => Threw (OtherError typeError)
  end.

(** [initialDelayMs * Math.pow(backoffMultiplier, attempt - 1)] *)
Definition exponentialDelay (attempt : Z) : Z :=
  initialDelayMs RETRY_CONFIG * backoffMultiplier RETRY_CONFIG ^ (attempt - 1).

(** [retryDelayMs] of the 429 branch: the header when it is a non-empty
    string, else the capped exponential delay. *)
Definition retryDelayMs (retryAfter : option string) (attempt : Z) : option Z :=
  let computed := Some (Z.min (exponentialDelay attempt) (maxDelayMs RETRY_CONFIG)) in
  match retryAfter with
  | Some h => if JS.truthy h then option_map (fun n => n * 1000) (JS.parseInt h)
              else computed
  | None => computed
  end.

(** How one iteration of the [while] loop ends. *)
Inductive Step :=
| Continue (lastError : option Error) (rc : RequestCount) (tr : list Event)
| Finish (r : Run).

(** From [const url = ...] to the end of the loop body: the request and
    the handling of its outcome. *)
Definition request (env : Env) (attempt : Z) (lastError : option Error)
    (rc : RequestCount) (tr : list Event) : Step :=
  let outcome := fetch env attempt in
  let tr := (tr ++ [EvFetch attempt outcome])%list in
  match outcome with
  | Status429 retryAfter =>
      let delay := retryDelayMs retryAfter attempt in
      let lastError := Some (RateLimit429 attempt) in
      if attempt <? maxAttempts RETRY_CONFIG then
        let waitTime := addJitter (random env attempt) delay in
        Continue lastError rc (tr ++ [EvSleep waitTime])%list
      else
        Finish {| completion := Threw (RateLimitExhausted (maxAttempts RETRY_CONFIG));
                  final := rc; trace := tr |}
  | NotOk status statusText details =>
      Finish {| completion := Threw (ApiError status statusText details);
                final := rc; trace := tr |}
  | Ok200 data =>
      let rc := incrementRateLimit rc in
      Finish {| completion := Returned (formatData data);
                final := rc; trace := (tr ++ [EvCommit])%list |}
  | Ok200Untyped reading =>
      let rc := incrementRateLimit rc in
      Finish {| completion := settle reading;
                final := rc; trace := (tr ++ [EvCommit])%list |}
  | Aborted =>
      let lastError := Some (Timeout attempt) in
      if attempt <? maxAttempts RETRY_CONFIG then
        let waitTime :=
          addJitter (random env attempt) (Some (exponentialDelay attempt)) in
        Continue lastError rc (tr ++ [EvSleep waitTime])%list
      else
        Finish {| completion := Threw AbortError; final := rc; trace := tr |}
  | Failed message =>
      Finish {| completion := Threw (OtherError message); final := rc; trace := tr |}
  end.

(** The body of the [while] loop, entered with [attempt] already
    incremented. *)
Definition iteration (env : Env) (attempt : Z) (lastError : option Error)
    (rc : RequestCount) (tr : list Event) : Step :=
  let '(rateLimitCheck, rc) := checkRateLimit (now env attempt) rc in
  let tr := (tr ++ [EvCheck (now env attempt) rateLimitCheck])%list in
  if negb (canProceed rateLimitCheck) then
    if waitTimeMs rateLimitCheck =? 0 then
      Finish {| completion :=
                  Threw (match reason rateLimitCheck with
                         | Some r => QuotaError r
                         | None => QuotaErrorDefault
                         end);
                final := rc; trace := tr |}
    else if attempt <? maxAttempts RETRY_CONFIG then
      let waitTime :=
        addJitter (random env attempt) (Some (waitTimeMs rateLimitCheck)) in
      Continue lastError rc (tr ++ [EvSleep waitTime])%list
    else request env attempt lastError rc tr
  else request env attempt lastError rc tr.

(** [while (attempt < RETRY_CONFIG.maxAttempts) { attempt++; ... }] followed
    by the final [throw]. *)
Fixpoint retryLoop (fuel : nat) (env : Env) (attempt : Z)
    (lastError : option Error) (rc : RequestCount) (tr : list Event) : Run :=
  match fuel with
  | O => {| completion := OutOfFuel; final := rc; trace := tr |}
  | S fuel' =>
      if attempt <? maxAttempts RETRY_CONFIG then
        let attempt := attempt + 1 in
        match iteration env attempt lastError rc tr with
        | Continue lastError rc tr => retryLoop fuel' env attempt lastError rc tr
        | Finish r => r
        end
      else
        {| completion :=
             Threw (match lastError with Some e => e | None => MaxRetries end);
           final := rc; trace := tr |}
  end.

(** [performBraveSearch(query, count, offset)]: the arguments only shape
    the request, whose outcome is the oracle's. *)
Definition performBraveSearchFuel (fuel : nat) (env : Env) (rc : RequestCount) : Run :=
  retryLoop fuel env 0 None rc [].

Definition performBraveSearch (env : Env) (rc : RequestCount) : Run :=
  performBraveSearchFuel (S (Z.to_nat (maxAttempts RETRY_CONFIG))) env rc.

(** ** Observations on a trace *)

Definition isFetch (e : Event) : bool :=
  match e with EvFetch _ _ => true | _ => false end.
Definition isSuccess (e : Event) : bool :=
  match e with
  | EvFetch _ (Ok200 _) | EvFetch _ (Ok200Untyped _) => true
  | _ => false
  end.
Definition isCommit (e : Event) : bool :=
  match e with EvCommit => true | _ => false end.

Definition count (p : Event -> bool) (tr : list Event) : nat :=
  List.length (filter p tr).

(** The effect of a trace on [requestCount]. *)
Definition replayEvent (rc : RequestCount) (e : Event) : RequestCount :=
  match e with
  | EvCheck time _ => snd (checkRateLimit time rc)
  | EvCommit => incrementRateLimit rc
  | _ => rc
  end.
Definition replay (tr : list Event) (rc : RequestCount) : RequestCount :=
  fold_left replayEvent tr rc.

(** Every [EvCommit] directly follows the successful fetch it accounts
    for, and every successful fetch is directly followed by its commit. *)
Fixpoint commitsFollowSuccess (tr : list Event) : bool :=
  match tr with
  | [] => true
  | EvFetch _ (Ok200 _) :: EvCommit :: rest => commitsFollowSuccess rest
  | EvFetch _ (Ok200 _) :: _ => false
  | EvFetch _ (Ok200Untyped _) :: EvCommit :: rest => commitsFollowSuccess rest
  | EvFetch _ (Ok200Untyped _) :: _ => false
  | EvCommit :: _ => false
  | _ :: rest => commitsFollowSuccess rest
  end.

End BraveSearch.

(* ====================================================================== *)
(** * services/resultProcessor.ts *)
(* ====================================================================== *)

Module ResultProcessor.

(** [Partial<SearchResult>]: the object a block is parsed into.  The
    objects [parseSearchResults] returns are these same objects, cast to
    [SearchResult]. *)
Record SearchResult := {
  title : option string;
  description : option string;
  url : option string
}.

Definition emptyResult : SearchResult :=
  {| title := None; description := None; url := None |}.

(** The body of [for (const line of lines)]. *)
Definition parseLine (result : SearchResult) (line : string) : SearchResult :=
  if JS.startsWith line "Title: " then
    {| title := Some (JS.trim (JS.substring 7 line));
       description := description result; url := url result |}
  else if JS.startsWith line "Description: " then
    {| title := title result;
       description := Some (JS.trim (JS.substring 13 line)); url := url result |}
  else if JS.startsWith line "URL: " then
    {| title := title result; description := description result;
       url := Some (JS.trim (JS.substring 5 line)) |}
  else result.

Definition parseBlock (block : string) : SearchResult :=
  let lines := JS.split JS.nl block in
  fold_left parseLine lines emptyResult.

(** Truthiness of an optional string field: set and not empty. *)
Definition present (field : option string) : bool :=
  match field with Some s => JS.truthy s | None => false end.

(** The body of [for (const block of resultBlocks)]. *)
Definition pushBlock (results : list SearchResult) (block : string)
  : list SearchResult :=
  let result := parseBlock block in
  if present (title result) && present (url result)
  then (results ++ [result])%list else results.

Definition resultBlocks (rawText : string) : list string :=
  filter (fun b => JS.truthy (JS.trim b)) (JS.split (JS.nl ++ JS.nl) rawText).

Definition parseSearchResults (rawText : string) : list SearchResult :=
  fold_left pushBlock (resultBlocks rawText) [].

End ResultProcessor.

(* ====================================================================== *)
(** * services/embeddingService.ts *)
(* ====================================================================== *)

Module Embedding.

Definition Vector := list float.

(** What a call of [cosineSimilarity] yields: a number, or the thrown
    [Vector dimension mismatch: ${a} vs ${b}]. *)
Inductive Result :=
| Value (x : float)
| DimensionMismatch (a b : nat).

(** The body of the [for] loop at index [i], on the three accumulators
    [dotProduct], [magnitudeA], [magnitudeB]. *)
Definition accumulate (vecA vecB : Vector) (acc : float * float * float) (i : nat)
  : float * float * float :=
  let '(dotProduct, magnitudeA, magnitudeB) := acc in
  let a := nth i vecA 0%float in
  let b := nth i vecB 0%float in
  ((dotProduct + a * b)%float, (magnitudeA + a * a)%float, (magnitudeB + b * b)%float).

Definition sums (vecA vecB : Vector) : float * float * float :=
  fold_left (accumulate vecA vecB) (seq 0 (List.length vecA))
    (0%float, 0%float, 0%float).

(** [Math.sqrt] of the two sums of squares. *)
Definition magnitudes (vecA vecB : Vector) : float * float :=
  let '(_, magnitudeA, magnitudeB) := sums vecA vecB in
  (PrimFloat.sqrt magnitudeA, PrimFloat.sqrt magnitudeB).

Definition cosineSimilarity (vecA vecB : Vector) : Result :=
  if negb (List.length vecA =? List.length vecB)%nat then
    DimensionMismatch (List.length vecA) (List.length vecB)
  else
    let '(dotProduct, _, _) := sums vecA vecB in
    let '(magnitudeA, magnitudeB) := magnitudes vecA vecB in
    if PrimFloat.eqb magnitudeA 0 || PrimFloat.eqb magnitudeB 0 then Value 0%float
    else Value (dotProduct / (magnitudeA * magnitudeB))%float.

End Embedding.

(* ====================================================================== *)
(** * services/semanticCache.ts *)
(* ====================================================================== *)

Module SemanticCache.

(** A row of the [search_cache] table. *)
Module CacheEntry.
Record t := {
  id : Z;
  query : string;
  query_embedding : Embedding.Vector;
  results : string;
  search_type : string;
  timestamp : Z;
  ttl : Z
}.
End CacheEntry.

Module CacheHit.
Record t := {
  results : string;
  timestamp : Z;
  query : string;
  similarity : float
}.
End CacheHit.

(** The open database: the rows of [search_cache] in insertion order and
    the next AUTOINCREMENT id. *)
Record Database := {
  rows : list CacheEntry.t;
  nextId : Z
}.

(** What the [try] block of [initialize] meets. *)
Inductive InitOutcome :=
| Opened (onDisk : Database)
| OpenFails (error : string)                      (* before [this.db] is assigned *)
| SetupFails (onDisk : Database) (error : string). (* [pragma] or [exec] throws *)

(** The collaborators of one call: the embedding model ([None] when
    [embeddings.embed] rejects), the database file, and the statements of
    the SQLite driver that throw. *)
Record Env := {
  embed : string -> option Embedding.Vector;
  openDatabase : InitOutcome;
  deleteFails : bool;
  selectFails : bool;
  insertFails : bool
}.

Inductive Level := info | error.
Definition Log := list (Level * string).

(** How an [async] method settles. *)
Inductive Promise (A : Type) :=
| Resolved (value : A)
| Rejected (reason : string).
Arguments Resolved {A} value.
Arguments Rejected {A} reason.

(** [MODEL_CONFIG.cache.similarityThreshold] *)
Definition similarityThreshold : float := 0.92%float.

(** [initialize()] on the field [this.db]. *)
Definition initialize (env : Env) (db : option Database)
  : Promise unit * option Database * Log :=
  match db with
  | Some _ => (Resolved tt, db, [])
  | None =>
      match openDatabase env with
      | Opened d => (Resolved tt, Some d, [(info, "[Cache] Initialized successfully")])
      | OpenFails e => (Rejected e, None, [(error, "[Cache] Failed to initialize")])
      | SetupFails d e => (Rejected e, Some d, [(error, "[Cache] Failed to initialize")])
      end
  end.

(** [DELETE FROM search_cache WHERE timestamp + ttl < ?] *)
Definition expired (now : Z) (e : CacheEntry.t) : bool :=
  CacheEntry.timestamp e + CacheEntry.ttl e <? now.

(** [cleanupExpired()], with [now] the value of [Date.now()]. *)
Definition cleanupExpired (env : Env) (now : Z) (db : option Database)
  : option Database * Log :=
  match db with
  | None => (None, [])
  | Some d =>
      if deleteFails env then (db, [(error, "[Cache] Failed to cleanup")])
      else
        let kept := filter (fun e => negb (expired now e)) (rows d) in
        let changes := (List.length (rows d) - List.length kept)%nat in
        (Some {| rows := kept; nextId := nextId d |},
         if (0 <? changes)%nat then [(info, "[Cache] Cleaned up expired entries")]
         else [])
  end.

(** [ORDER BY timestamp DESC], rows of equal timestamp in insertion order
    (SQL leaves their order open). *)
Fixpoint insertByTimestamp (e : CacheEntry.t) (l : list CacheEntry.t)
  : list CacheEntry.t :=
  match l with
  | [] => [e]
  | x :: rest =>
      if CacheEntry.timestamp x <=? CacheEntry.timestamp e then e :: l
      else x :: insertByTimestamp e rest
  end.

Definition orderByTimestampDesc (l : list CacheEntry.t) : list CacheEntry.t :=
  fold_right insertByTimestamp [] l.

(** [SELECT ... FROM search_cache WHERE search_type = ?
     ORDER BY timestamp DESC LIMIT 100] *)
Definition selectByType (searchType : string) (d : Database) : list CacheEntry.t :=
  firstn 100
    (orderByTimestampDesc
       (filter (fun e => String.eqb (CacheEntry.search_type e) searchType) (rows d))).

Definition hitOf (entry : CacheEntry.t) (similarity : float) : CacheHit.t :=
  {| CacheHit.results := CacheEntry.results entry;
     CacheHit.timestamp := CacheEntry.timestamp entry;
     CacheHit.query := CacheEntry.query entry;
     CacheHit.similarity := similarity |}.

(** [for (const entry of entries)]: [None] when [cosineSimilarity] throws,
    else the final [bestMatch]. *)
Fixpoint scan (queryEmbedding : Embedding.Vector) (entries : list CacheEntry.t)
    (bestMatch : option CacheHit.t) (bestSimilarity : float)
  : option (option CacheHit.t) :=
  match entries with
  | [] => Some bestMatch
  | entry :: rest =>
      match Embedding.cosineSimilarity queryEmbedding (CacheEntry.query_embedding entry) with
      | Embedding.DimensionMismatch _ _ => None
      | Embedding.Value similarity =>
          if PrimFloat.ltb bestSimilarity similarity
             && PrimFloat.leb similarityThreshold similarity
          then scan queryEmbedding rest (Some (hitOf entry similarity)) similarity
          else scan queryEmbedding rest bestMatch bestSimilarity
      end
  end.

Definition logHit (bestMatch : option CacheHit.t) : Log :=
  match bestMatch with
  | Some _ => [(info, "[Cache] HIT")]
  | None => []
  end.

(** [findSimilar(query, searchType)], with [now] the value [Date.now()]
    has inside [cleanupExpired]. *)
Definition findSimilar (env : Env) (now : Z) (query searchType : string)
    (db : option Database)
  : Promise (option CacheHit.t) * option Database * Log :=
  let '(init, db, log0) :=
    match db with
    | None => initialize env db
    | Some _ => (Resolved tt, db, [])
    end in
  match init with
  | Rejected e => (Rejected e, db, log0)
  | Resolved _ =>
      let caught := [(error, "[Cache] Error finding similar query")] in
      match embed env query with
      | None => (Resolved None, db, (log0 ++ caught)%list)
      | Some queryEmbedding =>
          let '(db, log1) := cleanupExpired env now db in
          match db with
          | None => (Resolved None, db, (log0 ++ log1 ++ caught)%list)
          | Some d =>
              if selectFails env then
                (Resolved None, db, (log0 ++ log1 ++ caught)%list)
              else
                let entries := selectByType searchType d in
                match scan queryEmbedding entries None 0%float with
                | None => (Resolved None, db, (log0 ++ log1 ++ caught)%list)
                | Some bestMatch =>
                    (Resolved bestMatch, db, (log0 ++ log1 ++ logHit bestMatch)%list)
                end
          end
      end
  end.

(** [store(query, searchType, results, ttlSeconds)], with [now] the value
    of [Date.now()] in the INSERT. *)
Definition store (env : Env) (now : Z) (query searchType results : string)
    (ttlSeconds : Z) (db : option Database)
  : Promise unit * option Database * Log :=
  let '(init, db, log0) :=
    match db with
    | None => initialize env db
    | Some _ => (Resolved tt, db, [])
    end in
  match init with
  | Rejected e => (Rejected e, db, log0)
  | Resolved _ =>
      let caught := [(error, "[Cache] Failed to store entry")] in
      match embed env query with
      | None => (Resolved tt, db, (log0 ++ caught)%list)
      | Some queryEmbedding =>
          match db with
          | None => (Resolved tt, db, (log0 ++ caught)%list)
          | Some d =>
              if insertFails env then (Resolved tt, db, (log0 ++ caught)%list)
              else
                let entry :=
                  {| CacheEntry.id := nextId d;
                     CacheEntry.query := query;
                     CacheEntry.query_embedding := queryEmbedding;
                     CacheEntry.results := results;
                     CacheEntry.search_type := searchType;
                     CacheEntry.timestamp := now;
                     CacheEntry.ttl := ttlSeconds * 1000 |} in
                (Resolved tt,
                 Some {| rows := (rows d ++ [entry])%list; nextId := nextId d + 1 |},
                 (log0 ++ [(info, "[Cache] Stored new entry")])%list)
          end
      end
  end.

End SemanticCache.

(* ====================================================================== *)
(** * Reading the retry loop *)
(* ====================================================================== *)

(** Names for what one iteration of the loop of [performBraveSearch] does,
    used to state its case analysis once. *)
Module LoopView.
Import BraveSearch.
Local Open Scope list_scope.

Definition checkAt (env : Env) (a : Z) (rc : RequestCount) : RateLimitCheck :=
  fst (checkRateLimit (now env a) rc).
Definition countAt (env : Env) (a : Z) (rc : RequestCount) : RequestCount :=
  snd (checkRateLimit (now env a) rc).

Definition quotaError (chk : RateLimitCheck) : Error :=
  match reason chk with Some r => QuotaError r | None => QuotaErrorDefault end.

(** The failures the loop answers with a sleep and another iteration. *)
Definition retryable (o : FetchOutcome) : bool :=
  match o with Status429 _ | Aborted => true | _ => false end.

(** The responses with status 200 and a body that parses. *)
Definition succeeded (o : FetchOutcome) : bool :=
  match o with Ok200 _ | Ok200Untyped _ => true | _ => false end.

(** The delay slept after a retryable failure at attempt [a]. *)
Definition retryWait (env : Env) (a : Z) (o : FetchOutcome) : option Z :=
  match o with
  | Status429 retryAfter => addJitter (random env a) (retryDelayMs retryAfter a)
  | _ => addJitter (random env a) (Some (exponentialDelay a))
  end.

(** The delay slept when the per-second window is full at attempt [a]. *)
Definition limiterWait (env : Env) (a : Z) (rc : RequestCount) : option Z :=
  addJitter (random env a) (Some (waitTimeMs (checkAt env a rc))).

(** The value of [lastError] after a retryable failure. *)
Definition attemptError (a : Z) (o : FetchOutcome) : Error :=
  match o with Status429 _ => RateLimit429 a | _ => Timeout a end.

(** The error thrown when a failed attempt is not followed by another. *)
Definition thrownError (o : FetchOutcome) : Error :=
  match o with
  | Status429 _ => RateLimitExhausted (maxAttempts RETRY_CONFIG)
  | NotOk status statusText details => ApiError status statusText details
  | Failed message => OtherError message
  | Ok200Untyped (Throws typeError) => OtherError typeError
  | _ => AbortError
  end.

(** The request is made when the limiter allows it, or on the last
    attempt when only the per-second window is full. *)
Definition proceeds (chk : RateLimitCheck) (a : Z) : Prop :=
  canProceed chk = true \/
  (canProceed chk = false /\ waitTimeMs chk <> 0 /\ maxAttempts RETRY_CONFIG <= a).

(** The six ways an iteration ends. *)
Inductive IterationView (env : Env) (a : Z) (le : option Error)
    (rc : RequestCount) (tr : list Event) : Step -> Prop :=
| IV_quota :
    canProceed (checkAt env a rc) = false ->
    waitTimeMs (checkAt env a rc) = 0 ->
    IterationView env a le rc tr
      (Finish {| completion := Threw (quotaError (checkAt env a rc));
                 final := countAt env a rc;
                 trace := tr ++ [EvCheck (now env a) (checkAt env a rc)] |})
| IV_wait :
    canProceed (checkAt env a rc) = false ->
    waitTimeMs (checkAt env a rc) <> 0 ->
    a < maxAttempts RETRY_CONFIG ->
    IterationView env a le rc tr
      (Continue le (countAt env a rc)
         (tr ++ [EvCheck (now env a) (checkAt env a rc);
                 EvSleep (limiterWait env a rc)]))
| IV_retry :
    proceeds (checkAt env a rc) a ->
    retryable (fetch env a) = true ->
    a < maxAttempts RETRY_CONFIG ->
    IterationView env a le rc tr
      (Continue (Some (attemptError a (fetch env a))) (countAt env a rc)
         (tr ++ [EvCheck (now env a) (checkAt env a rc);
                 EvFetch a (fetch env a);
                 EvSleep (retryWait env a (fetch env a))]))
| IV_fail :
    proceeds (checkAt env a rc) a ->
    succeeded (fetch env a) = false ->
    (retryable (fetch env a) = true -> maxAttempts RETRY_CONFIG <= a) ->
    IterationView env a le rc tr
      (Finish {| completion := Threw (thrownError (fetch env a));
                 final := countAt env a rc;
                 trace := tr ++ [EvCheck (now env a) (checkAt env a rc);
                                 EvFetch a (fetch env a)] |})
| IV_ok data :
    proceeds (checkAt env a rc) a ->
    fetch env a = Ok200 data ->
    IterationView env a le rc tr
      (Finish {| completion := Returned (formatData data);
                 final := incrementRateLimit (countAt env a rc);
                 trace := tr ++ [EvCheck (now env a) (checkAt env a rc);
                                 EvFetch a (Ok200 data);
                                 EvCommit] |})
| IV_untyped reading :
    proceeds (checkAt env a rc) a ->
    fetch env a = Ok200Untyped reading ->
    IterationView env a le rc tr
      (Finish {| completion := settle reading;
                 final := incrementRateLimit (countAt env a rc);
                 trace := tr ++ [EvCheck (now env a) (checkAt env a rc);
                                 EvFetch a (Ok200Untyped reading);
                                 EvCommit] |}).

(** No successful fetch and no commit. *)
Definition quiet (tr : list Event) : Prop :=
  count isSuccess tr = 0%nat /\ count isCommit tr = 0%nat.

Definition allowedEvent (e : Event) : bool :=
  match e with EvCheck _ chk => canProceed chk | _ => true end.

(** The limiter allowed every call of the run. *)
Definition limiterAlwaysAllows (tr : list Event) : bool := forallb allowedEvent tr.

(** The delays of the [sleep] calls of a trace, in order. *)
Fixpoint sleeps (tr : list Event) : list (option Z) :=
  match tr with
  | [] => []
  | EvSleep ms :: rest => ms :: sleeps rest
  | _ :: rest => sleeps rest
  end.




(** What a finished run looks like to the quota: it ends with the one
    response of status 200 and its commit, or it throws without either. *)
Definition accounted (rc : RequestCount) (r : Run) : Prop :=
  final r = replay (trace r) rc /\
  ((exists text pre a data,
       completion r = Returned text /\
       trace r = pre ++ [EvFetch a (Ok200 data); EvCommit] /\ quiet pre)
   \/ (exists pre a reading,
          completion r = settle reading /\
          trace r = pre ++ [EvFetch a (Ok200Untyped reading); EvCommit] /\ quiet pre)
   \/ (exists e, completion r = Threw e /\ quiet (trace r))).

(** A fetch event carries the answer of the upstream at its attempt. *)
Definition answeredBy (env : Env) (e : Event) : Prop :=
  match e with EvFetch a o => o = fetch env a | _ => True end.

(** The days until the monthly window resets, as [checkRateLimit] states
    them in its reason. *)
Definition daysUntilReset (t : Z) (rc : RequestCount) : Z :=
  JS.Math_ceil_div (2592000000 - (t - lastMonthReset (rollover t rc))) 86400000.


(** A search against an exhausted monthly quota (48 h into the window),
    and one against a full per-second window (400 ms into it). *)
Definition exhausted : RequestCount :=
  {| second := 0; month := 2000; lastSecondReset := 0; lastMonthReset := 0 |}.
Definition busy : RequestCount :=
  {| second := 1; month := 7; lastSecondReset := 172800000; lastMonthReset := 0 |}.
Definition quietEnv : Env :=
  {| now := fun a => 172800400 + 1000 * a;
     random := fun _ => (1 # 2)%Q;
     fetch := fun _ => Ok200 {| web := None |} |}.
Definition earlyEnv : Env :=
  {| now := fun _ => 172800400;
     random := fun _ => (1 # 2)%Q;
     fetch := fun _ => Ok200 {| web := None |} |}.

(** The upstream answers 429 without a Retry-After header, forever. *)
Definition always429 : Env :=
  {| now := fun a => 5000 + 3000 * a;
     random := fun _ => (1 # 2)%Q;
     fetch := fun _ => Status429 None |}.
Definition idle : RequestCount :=
  {| second := 0; month := 7; lastSecondReset := 0; lastMonthReset := 0 |}.

(** A request went out 500 ms ago: the per-second window is full. *)
Definition justUsed : RequestCount :=
  {| second := 1; month := 7; lastSecondReset := 5000; lastMonthReset := 0 |}.

(** The same instant with an empty per-second window. *)
Definition unused : RequestCount :=
  {| second := 0; month := 7; lastSecondReset := 5000; lastMonthReset := 0 |}.

(** The search starts at 5500 ms; the upstream answers 429 to every
    request. *)
Definition busyUpstream : Env :=
  {| now := fun a => 5500 + 2100 * (a - 1);
     random := fun _ => (1 # 2)%Q;
     fetch := fun _ => Status429 None |}.



(** The upstream answers with status 200 and the body [null]. *)
Definition nullBody : Env :=
  {| now := fun a => 5000 + 3000 * a;
     random := fun _ => (1 # 2)%Q;
     fetch := fun _ =>
       Ok200Untyped (Throws "Cannot read properties of null (reading 'web')") |}.

(** A clock that was set back by 100 s after the last request. *)
Definition afterClockStep : RequestCount :=
  {| second := 1; month := 7; lastSecondReset := 105000; lastMonthReset := 0 |}.

End LoopView.

Module ParserView.
Import ResultProcessor.

(** The lines of a block that carry the given label. *)
Definition hasLine (label block : string) : bool :=
  existsb (fun line => JS.startsWith line label) (JS.split JS.nl block).

(** The trimmed text after the label on the last line that carries it. *)
Definition valueOf (label : string) (lines : list string) : option string :=
  match find (fun line => JS.startsWith line label) (rev lines) with
  | Some line => Some (JS.trim (JS.substring (String.length label) line))
  | None => None
  end.

(** A block yields an item. *)
Definition emitted (block : string) : bool :=
  present (title (parseBlock block)) && present (url (parseBlock block)).

(** Scenario C of the specification. *)
Definition scenarioC : string :=
  "Title: A" ++ JS.nl ++ "URL: http://x.com" ++ JS.nl ++ JS.nl ++
  "Description: no title or url" ++ JS.nl ++ JS.nl ++
  "Title: B" ++ JS.nl ++ "URL: http://y.com".

(** A block whose title line is empty after the label. *)
Definition emptyTitle : string :=
  "Title: " ++ JS.nl ++ "URL: http://x.com".

End ParserView.

Module VectorView.
Import Embedding.

(** A component that is [+0] or [-0]. *)
Definition isZero (x : float) : Prop := x = 0%float \/ x = (-0)%float.

(** The magnitude the code compares with zero. *)
Definition magnitudeA (vecA vecB : Vector) : float := fst (magnitudes vecA vecB).
Definition magnitudeB (vecA vecB : Vector) : float := snd (magnitudes vecA vecB).

End VectorView.

Module CacheView.
Import SemanticCache.

(** An entry the purge at time [now] keeps. *)
Definition unexpired (now : Z) (e : CacheEntry.t) : Prop :=
  now <= CacheEntry.timestamp e + CacheEntry.ttl e.

(** An entry inside its live window, as the specification defines it. *)
Definition live (now : Z) (e : CacheEntry.t) : Prop :=
  now < CacheEntry.timestamp e + CacheEntry.ttl e.

Definition ofType (searchType : string) (e : CacheEntry.t) : bool :=
  String.eqb (CacheEntry.search_type e) searchType.

(** What the caller of an [async] method receives. *)
Definition settledAs {A : Type} (r : Promise A * option Database * Log) : Promise A :=
  fst (fst r).
Definition databaseAfter {A : Type} (r : Promise A * option Database * Log)
  : option Database := snd (fst r).

(** A model that embeds every text as the unit vector [1]. *)
Definition unitModel : Env :=
  {| embed := fun _ => Some [1%float];
     openDatabase := Opened {| rows := []; nextId := 1 |};
     deleteFails := false; selectFails := false; insertFails := false |}.

(** The same collaborators with a database file that cannot be opened. *)
Definition unopenable : Env :=
  {| embed := fun _ => Some [1%float];
     openDatabase := OpenFails "unable to open database file";
     deleteFails := false; selectFails := false; insertFails := false |}.

Definition emptyDatabase : Database := {| rows := []; nextId := 1 |}.

(** The row [store("q", "web", "R", 0)] inserts at 1000 ms. *)
Definition zeroTtlEntry : CacheEntry.t :=
  {| CacheEntry.id := 1; CacheEntry.query := "q";
     CacheEntry.query_embedding := [1%float];
     CacheEntry.results := "R"; CacheEntry.search_type := "web";
     CacheEntry.timestamp := 1000; CacheEntry.ttl := 0 |}.

(** The database [findSimilar] and [store] work on once [initialize] has
    resolved. *)
Definition opened (env : Env) (db : option Database) : option Database :=
  match db with
  | Some d => Some d
  | None => match openDatabase env with Opened d => Some d | _ => None end
  end.

(** The unit model on a database that refuses the DELETE of the purge. *)
Definition readOnly : Env :=
  {| embed := fun _ => Some [1%float];
     openDatabase := Opened {| rows := []; nextId := 1 |};
     deleteFails := true; selectFails := false; insertFails := false |}.

End CacheView.

(* ====================================================================== *)
(** * More JavaScript primitives: searching and rewriting text *)
(* ====================================================================== *)

Module JSText.

(** The text before and after the first occurrence of [p] in [s], if [p]
    occurs ([s.indexOf(p)] with the two slices it delimits). *)
Fixpoint cutAt (p s : string) : option (string * string) :=
  if String.prefix p s then Some (EmptyString, JS.substring (String.length p) s)
  else
    match s with
    | EmptyString => None
    | String c s' =>
        match cutAt p s' with
        | Some (before, after) => Some (String c before, after)
        | None => None
        end
    end.

(** [s.includes(p)] *)
Definition includes (s p : string) : bool :=
  match cutAt p s with Some _ => true | None => false end.

(** [s.replace(p, r)] for a string pattern [p] and a replacement [r] without
    [$]: the first occurrence only. *)
Definition replace (s p r : string) : string :=
  match cutAt p s with
  | Some (before, after) => before ++ r ++ after
  | None => s
  end.

(** The text after the first [)] of [s], when at least one other character
    comes before it: what [[^)]+\)] consumes. *)
Fixpoint afterParen (seen : bool) (s : string) : option string :=
  match s with
  | EmptyString => None
  | String c s' =>
      if Ascii.eqb c ")" then (if seen then Some s' else None)
      else afterParen true s'
  end.

(** A match of [/\*Results from cache \([^)]+\)/] at the head of [s]: the
    text that follows it. *)
Definition matchCacheMarker (s : string) : option string :=
  if String.prefix "*Results from cache (" s
  then afterParen false (JS.substring 21 s)
  else None.

(** [s.replace(/\*Results from cache \([^)]+\)/, r)]: the leftmost match. *)
Fixpoint replaceCacheMarker (r s : string) : string :=
  match matchCacheMarker s with
  | Some rest => r ++ rest
  | None =>
      match s with
      | EmptyString => EmptyString
      | String c s' => String c (replaceCacheMarker r s')
      end
  end.

(** The double quote character. *)
Definition quote : string := String (ascii_of_nat 34) EmptyString.

(** The decimal text of an integer, as a template literal renders it. *)
Definition numberToString (z : Z) : string := NilZero.string_of_int (Z.to_int z).

End JSText.

(* ====================================================================== *)
(** * services/resultProcessor.ts, continued *)
(* ====================================================================== *)

Module Rendering.
Import ResultProcessor.

(** [metadata] of [ProcessedOutput]. *)
Record Metadata := {
  query : string;
  count : Z;
  cached : bool;
  latencyMs : Z;
  cacheAge : option string
}.

Record ProcessedOutput := {
  results : list SearchResult;
  metadata : Metadata
}.

(** The [Map<string, number>] of [deduplicateResults], keys in insertion
    order. *)
Definition DomainCounts := list (string * Z).

Fixpoint get (domainCounts : DomainCounts) (domain : string) : option Z :=
  match domainCounts with
  | [] => None
  | (k, v) :: rest => if String.eqb k domain then Some v else get rest domain
  end.

Fixpoint set (domainCounts : DomainCounts) (domain : string) (n : Z) : DomainCounts :=
  match domainCounts with
  | [] => [(domain, n)]
  | (k, v) :: rest =>
      if String.eqb k domain then (k, n) :: rest else (k, v) :: set rest domain n
  end.

(** [domainCounts.get(domain) || 0] *)
Definition getOrZero (domainCounts : DomainCounts) (domain : string) : Z :=
  match get domainCounts domain with Some n => n | None => 0 end.

(** [count < maxPerDomain], where [maxPerDomain] may be [NaN] ([None]). *)
Definition lessThan (count : Z) (maxPerDomain : option Z) : bool :=
  match maxPerDomain with Some m => count <? m | None => false end.

(** [a || b] on an optional string. *)
Definition orElse (a : option string) (b : string) : string :=
  match a with Some s => if JS.truthy s then s else b | None => b end.

(** An optional string inside a template literal. *)
Definition shown (a : option string) : string :=
  match a with Some s => s | None => "undefined" end.

Section WithURL.

(** [new URL(u).hostname]; [None] when the constructor throws. *)
Variable hostname : string -> option string.

(** [new URL(result.url).hostname.replace('www.', '')]; the constructor
    throws on a missing [url] as on any text that is no URL. *)
Definition domainOf (result : SearchResult) : option string :=
  match url result with
  | Some u => option_map (fun h => JSText.replace h "www." EmptyString) (hostname u)
  | None => None
  end.

(** The body of [for (const result of results)]. *)
Definition dedupStep (maxPerDomain : option Z)
    (state : DomainCounts * list SearchResult) (result : SearchResult)
  : DomainCounts * list SearchResult :=
  let '(domainCounts, deduplicated) := state in
  match domainOf result with
  | None => state
  | Some domain =>
      let count := getOrZero domainCounts domain in
      if lessThan count maxPerDomain
      then (set domainCounts domain (count + 1), (deduplicated ++ [result])%list)
      else state
  end.

(** [deduplicateResults(results, maxPerDomain)], with [enabled] the flag
    [featureFlags.ENABLE_DEDUPLICATION]. *)
Definition deduplicateResults (enabled : bool) (maxPerDomain : option Z)
    (results : list SearchResult) : list SearchResult :=
  if negb enabled then results
  else snd (fold_left (dedupStep maxPerDomain) results ([], [])).

(** [extractDomain(url)] *)
Definition extractDomain (u : option string) : string :=
  match domainOf {| title := None; description := None; url := u |} with
  | Some d => d
  | None => "unknown"
  end.

(** The body of [results.forEach((result, index) => ...)]. *)
Definition formatEntry (state : string * Z) (result : SearchResult) : string * Z :=
  let '(output, index) := state in
  let domain := extractDomain (url result) in
  (output
   ++ "## " ++ JSText.numberToString (index + 1) ++ ". " ++ shown (title result) ++ JS.nl
   ++ "**Source**: " ++ domain ++ " | **URL**: " ++ shown (url result) ++ JS.nl ++ JS.nl
   ++ shown (description result) ++ JS.nl ++ JS.nl
   ++ "---" ++ JS.nl ++ JS.nl,
   index + 1).

(** The text before the entries: header, freshness line and rule. *)
Definition formatHead (processed : ProcessedOutput) : string :=
  let m := metadata processed in
  "# Search Results for " ++ JSText.quote ++ query m ++ JSText.quote ++ " ("
    ++ JSText.numberToString (Z.of_nat (List.length (results processed)))
    ++ " results)" ++ JS.nl ++ JS.nl
  ++ (if cached m
      then "*Results from cache (" ++ orElse (cacheAge m) "fresh" ++ ") - "
             ++ JSText.numberToString (latencyMs m) ++ "ms*" ++ JS.nl ++ JS.nl
      else "*Fresh results - " ++ JSText.numberToString (latencyMs m)
             ++ "ms*" ++ JS.nl ++ JS.nl)
  ++ "---" ++ JS.nl ++ JS.nl.

(** [formatResults(processed)] *)
Definition formatResults (processed : ProcessedOutput) : string :=
  match results processed with
  | [] => "No results found for your query."
  | _ => fst (fold_left formatEntry (results processed) (formatHead processed, 0))
  end.

End WithURL.

(** [formatCacheAge(timestamp)], with [now] the value of [Date.now()]. *)
Definition formatCacheAge (now timestamp : Z) : string :=
  let ageMs := now - timestamp in
  let ageMinutes := ageMs / 60000 in
  if ageMinutes <? 1 then "just now"
  else if ageMinutes <? 60 then JSText.numberToString ageMinutes ++ "m ago"
  else
    let ageHours := ageMinutes / 60 in
    if ageHours <? 24 then JSText.numberToString ageHours ++ "h ago"
    else
      let ageDays := ageHours / 24 in
      JSText.numberToString ageDays ++ "d ago".

End Rendering.

(** The vocabulary of the statements about deduplication, and a stand-in
    URL parser for the examples. *)
Module RenderingView.
Import ResultProcessor Rendering.

(** [result] belongs to the group of [domain]. *)
Definition inDomain (hostname : string -> option string) (domain : string)
    (result : SearchResult) : bool :=
  match domainOf hostname result with
  | Some d => String.eqb d domain
  | None => false
  end.

(** The number of results of [seen] in the group of [domain]. *)
Definition occurrences (hostname : string -> option string) (domain : string)
    (seen : list SearchResult) : Z :=
  Z.of_nat (List.length (filter (inDomain hostname domain) seen)).

(** A result is wanted after [seen] when its URL parses and fewer than
    [maxPerDomain] results of its group came before it. *)
Definition wanted (hostname : string -> option string) (maxPerDomain : option Z)
    (seen : list SearchResult) (result : SearchResult) : bool :=
  match domainOf hostname result with
  | Some d => lessThan (occurrences hostname d seen) maxPerDomain
  | None => false
  end.

(** The results that are wanted after those before them, in order. *)
Fixpoint firstPerDomain (hostname : string -> option string)
    (maxPerDomain : option Z) (seen results : list SearchResult)
  : list SearchResult :=
  match results with
  | [] => []
  | r :: rest =>
      ((if wanted hostname maxPerDomain seen r then [r] else [])
       ++ firstPerDomain hostname maxPerDomain (seen ++ [r]) rest)%list
  end.

(** The largest number of results a group can keep. *)
Definition capOf (maxPerDomain : option Z) : Z :=
  match maxPerDomain with Some m => Z.max 0 m | None => 0 end.

(** What the counters of the loop hold: for every group the number of
    results seen so far, up to the cap. *)
Definition countsTrack (hostname : string -> option string)
    (maxPerDomain : option Z) (counts : DomainCounts)
    (seen : list SearchResult) : Prop :=
  forall d, getOrZero counts d = Z.min (occurrences hostname d seen) (capOf maxPerDomain).

(** [kept] is [results] with some elements left out, order unchanged. *)
Inductive Subsequence {A : Type} : list A -> list A -> Prop :=
| Sub_nil : Subsequence [] []
| Sub_skip x kept l : Subsequence kept l -> Subsequence kept (x :: l)
| Sub_keep x kept l : Subsequence kept l -> Subsequence (x :: kept) (x :: l).

(** A stand-in for the URL parser: the text between [://] and the next [/]. *)
Definition toyHostname (u : string) : option string :=
  match JSText.cutAt "://" u with
  | Some (_, rest) =>
      match JSText.cutAt "/" rest with
      | Some (host, _) => Some host
      | None => Some rest
      end
  | None => None
  end.

Definition item (t u : string) : SearchResult :=
  {| title := Some t; description := None; url := Some u |}.

(** Five results of one site, one of another, and one whose URL is no
    URL. *)
Definition sevenResults : list SearchResult :=
  [ item "a1" "https://www.a.com/1"; item "a2" "https://a.com/2";
    item "b1" "https://b.org/1"; item "a3" "https://www.a.com/3";
    item "x" "not a url"; item "a4" "https://a.com/4";
    item "a5" "https://a.com/5" ].

(** Three results with the key [ab.com]; the first has it by losing a
    [www.] that is not at the start of its hostname. *)
Definition wwwInside : list SearchResult :=
  [ item "w" "https://awww.b.com/"; item "p" "https://ab.com/1";
    item "q" "https://ab.com/2" ].

End RenderingView.

(* ====================================================================== *)
(** * services/semanticCache.ts, continued: administration *)
(* ====================================================================== *)

Module CacheAdmin.
Import SemanticCache.

(** [getSize()], with [countFails] telling whether the COUNT statement
    throws. *)
Definition getSize (countFails : bool) (db : option Database) : Z :=
  match db with
  | None => 0
  | Some d => if countFails then 0 else Z.of_nat (List.length (rows d))
  end.

(** [clear()], with [deleteFails] telling whether the DELETE throws. *)
Definition clear (deleteFails : bool) (db : option Database) : option Database * Log :=
  match db with
  | None => (None, [])
  | Some d =>
      if deleteFails then (db, [(error, "[Cache] Failed to clear")])
      else (Some {| rows := []; nextId := nextId d |},
            [(info, "[Cache] Cleared all entries")])
  end.

(** [close()] *)
Definition close (db : option Database) : option Database * Log :=
  match db with
  | None => (None, [])
  | Some _ => (None, [(info, "[Cache] Database closed")])
  end.

End CacheAdmin.

(** The vocabulary of the further statements about the cache and the rate
    limiter. *)
Module MoreViews.
Import SemanticCache CacheView BraveSearch.

(** The row [store] inserts. *)
Definition storedEntry (d : Database) (now : Z) (query searchType results : string)
    (ttlSeconds : Z) (queryEmbedding : Embedding.Vector) : CacheEntry.t :=
  {| CacheEntry.id := nextId d;
     CacheEntry.query := query;
     CacheEntry.query_embedding := queryEmbedding;
     CacheEntry.results := results;
     CacheEntry.search_type := searchType;
     CacheEntry.timestamp := now;
     CacheEntry.ttl := ttlSeconds * 1000 |}.

(** The stored embedding has the dimension of the query embedding. *)
Definition sameDimension (queryEmbedding : Embedding.Vector) (e : CacheEntry.t) : Prop :=
  List.length (CacheEntry.query_embedding e) = List.length queryEmbedding.

(** A row written by a model of two dimensions, found by a model of one. *)
Definition otherModelEntry : CacheEntry.t :=
  {| CacheEntry.id := 1; CacheEntry.query := "old";
     CacheEntry.query_embedding := [1%float; 0%float];
     CacheEntry.results := "R0"; CacheEntry.search_type := "web";
     CacheEntry.timestamp := 500; CacheEntry.ttl := 3600000 |}.

(** The row [store] writes for "q" at [1000 + i] ms with the unit model. *)
Definition unitEntry (i : nat) : CacheEntry.t :=
  {| CacheEntry.id := Z.of_nat i; CacheEntry.query := "q";
     CacheEntry.query_embedding := [1%float];
     CacheEntry.results := "R"; CacheEntry.search_type := "web";
     CacheEntry.timestamp := 1000 + Z.of_nat i; CacheEntry.ttl := 3600000 |}.

(** The two-dimensional row under 100 newer rows of one dimension. *)
Definition crowded : Database :=
  {| rows := otherModelEntry :: map unitEntry (seq 2 100); nextId := 102 |}.

(** Every fetch directly follows a check, and the check allowed the call
    unless the fetch is the one of the last attempt. *)
Fixpoint fetchesGuarded (tr : list Event) : bool :=
  match tr with
  | [] => true
  | EvCheck _ chk :: rest =>
      match rest with
      | EvFetch a _ :: rest' =>
          (canProceed chk || (a =? maxAttempts RETRY_CONFIG)) && fetchesGuarded rest'
      | _ => fetchesGuarded rest
      end
  | EvFetch _ _ :: _ => false
  | _ :: rest => fetchesGuarded rest
  end.

(** The per-second window is full at every check of the run. *)
Definition alwaysBusy : Env :=
  {| now := fun _ => 5500;
     random := fun _ => (1 # 2)%Q;
     fetch := fun _ => Ok200 {| web := None |} |}.

(** A search answered at once, and the next one 300 ms later. *)
Definition firstSearch : Env :=
  {| now := fun _ => 7000;
     random := fun _ => (1 # 2)%Q;
     fetch := fun _ => Ok200 {| web := None |} |}.
Definition secondSearch : Env :=
  {| now := fun a => 7300 + 800 * (a - 1);
     random := fun _ => (1 # 2)%Q;
     fetch := fun _ => Ok200 {| web := None |} |}.

End MoreViews.

(* ====================================================================== *)
(** * services/searchService.ts *)
(* ====================================================================== *)

Module SearchService.
Import SemanticCache.

(** [featureFlags] *)
Record FeatureFlags := {
  ENABLE_SEMANTIC_CACHE : bool;
  ENABLE_DEDUPLICATION : bool;
  CACHE_TTL_SECONDS : Z;
  MAX_RESULTS_PER_DOMAIN : option Z
}.

(** The values of [Date.now()] one call of [search] reads: at its start, in
    [cleanupExpired] during the lookup, for the latency of a hit, in
    [formatCacheAge], for the latency of a miss, and in the INSERT of
    [store]. *)
Record Clock := {
  startTime : Z;
  lookupTime : Z;
  hitTime : Z;
  ageTime : Z;
  missTime : Z;
  storeTime : Z
}.

(** The collaborators of one call: the URL parser, the cache's
    collaborators during the lookup and during the store, and the
    upstream's during the fetch.  The calls of the metrics [logger], whose
    module is not among the sources, are taken to return normally. *)
Record World := {
  hostname : string -> option string;
  atLookup : SemanticCache.Env;
  atStore : SemanticCache.Env;
  upstreamEnv : BraveSearch.Env
}.

Inductive SearchError :=
| CacheFailure (reason : string)            (* rejected by [findSimilar] or [store] *)
| UpstreamFailure (e : BraveSearch.Error).  (* thrown by [performBraveSearch] *)

Inductive Outcome :=
| Fulfilled (text : string)
| Failed (e : SearchError)
| Unsettled.                                (* the retry loop ran out of fuel *)

Record SearchRun := {
  outcome : Outcome;
  database : option Database;
  requestCount : BraveSearch.RequestCount;
  upstream : list BraveSearch.Event
}.

(** The three ways the text of a hit is given its cache line. *)
Definition serveCached (cachedResults cacheAge : string) (latency : Z) : string :=
  let marker := "*Results from cache (" ++ cacheAge ++ ")" in
  if JSText.includes cachedResults "*Fresh results" then
    JSText.replace cachedResults "*Fresh results" marker
  else if JSText.includes cachedResults "*Results from cache" then
    JSText.replaceCacheMarker marker cachedResults
  else
    marker ++ " - " ++ JSText.numberToString latency ++ "ms*"
      ++ JS.nl ++ JS.nl ++ cachedResults.

(** From [parseSearchResults(rawResults)] to [formatResults(processed)]. *)
Definition processRaw (flags : FeatureFlags) (w : World) (query rawResults : string)
    (latency : Z) : string :=
  let results := ResultProcessor.parseSearchResults rawResults in
  let results :=
    Rendering.deduplicateResults (hostname w) (ENABLE_DEDUPLICATION flags)
      (MAX_RESULTS_PER_DOMAIN flags) results in
  Rendering.formatResults (hostname w)
    {| Rendering.results := results;
       Rendering.metadata :=
         {| Rendering.query := query;
            Rendering.count := Z.of_nat (List.length results);
            Rendering.cached := false;
            Rendering.latencyMs := latency;
            Rendering.cacheAge := None |} |}.

(** The cache miss: fetch, process, store. *)
Definition searchMiss (flags : FeatureFlags) (clock : Clock) (w : World)
    (query searchType : string) (db : option Database)
    (rc : BraveSearch.RequestCount) : SearchRun :=
  let run := BraveSearch.performBraveSearch (upstreamEnv w) rc in
  match BraveSearch.completion run with
  | BraveSearch.Threw e =>
      {| outcome := Failed (UpstreamFailure e); database := db;
         requestCount := BraveSearch.final run; upstream := BraveSearch.trace run |}
  | BraveSearch.OutOfFuel =>
      {| outcome := Unsettled; database := db;
         requestCount := BraveSearch.final run; upstream := BraveSearch.trace run |}
  | BraveSearch.Returned rawResults =>
      let latency := missTime clock - startTime clock in
      let formatted := processRaw flags w query rawResults latency in
      if ENABLE_SEMANTIC_CACHE flags then
        let '(stored, db, _) :=
          store (atStore w) (storeTime clock) query searchType formatted
            (CACHE_TTL_SECONDS flags) db in
        {| outcome := match stored with
                      | Resolved _ => Fulfilled formatted
                      | Rejected e => Failed (CacheFailure e)
                      end;
           database := db;
           requestCount := BraveSearch.final run; upstream := BraveSearch.trace run |}
      else
        {| outcome := Fulfilled formatted; database := db;
           requestCount := BraveSearch.final run; upstream := BraveSearch.trace run |}
  end.

(** [SearchService.search(query, count, offset, searchType)]; [count] and
    [offset] only shape the request. *)
Definition search (flags : FeatureFlags) (clock : Clock) (w : World)
    (query searchType : string) (db : option Database)
    (rc : BraveSearch.RequestCount) : SearchRun :=
  if ENABLE_SEMANTIC_CACHE flags then
    let '(found, db, _) := findSimilar (atLookup w) (lookupTime clock) query searchType db in
    match found with
    | Rejected e =>
        {| outcome := Failed (CacheFailure e); database := db;
           requestCount := rc; upstream := [] |}
    | Resolved (Some cached) =>
        let latency := hitTime clock - startTime clock in
        let cacheAge := Rendering.formatCacheAge (ageTime clock) (CacheHit.timestamp cached) in
        {| outcome := Fulfilled (serveCached (CacheHit.results cached) cacheAge latency);
           database := db; requestCount := rc; upstream := [] |}
    | Resolved None => searchMiss flags clock w query searchType db rc
    end
  else searchMiss flags clock w query searchType db rc.

End SearchService.

(** The vocabulary of the statements about [search], and the inputs of the
    examples. *)
Module SearchView.
Import SemanticCache SearchService.

(** The run of [performBraveSearch] a miss makes. *)
Definition fetchRun (w : World) (rc : BraveSearch.RequestCount) : BraveSearch.Run :=
  BraveSearch.performBraveSearch (upstreamEnv w) rc.

(** [initialize] throws [e]. *)
Definition initializeFails (env : SemanticCache.Env) (e : string) : Prop :=
  openDatabase env = OpenFails e \/ exists d, openDatabase env = SetupFails d e.

(** No character of [s] is an asterisk. *)
Fixpoint starFree (s : string) : bool :=
  match s with
  | EmptyString => true
  | String c s' => negb (Ascii.eqb c "*") && starFree s'
  end.

Definition cacheOn : FeatureFlags :=
  {| ENABLE_SEMANTIC_CACHE := true; ENABLE_DEDUPLICATION := true;
     CACHE_TTL_SECONDS := 3600; MAX_RESULTS_PER_DOMAIN := Some 2 |}.

Definition steadyClock : Clock :=
  {| startTime := 10000; lookupTime := 10001; hitTime := 10040; ageTime := 10041;
     missTime := 10350; storeTime := 10351 |}.

(** An upstream that answers with one result. *)
Definition oneResult : BraveSearch.Env :=
  {| BraveSearch.now := fun a => 10002 + a;
     BraveSearch.random := fun _ => (1 # 2)%Q;
     BraveSearch.fetch := fun _ =>
       BraveSearch.Ok200
         {| BraveSearch.web :=
              Some {| BraveSearch.results :=
                        Some [ {| BraveSearch.title := "Rocq";
                                  BraveSearch.description := "A proof assistant";
                                  BraveSearch.url := "https://rocq-prover.org/" |} ] |} |} |}.

(** A healthy upstream behind a cache whose database cannot be opened. *)
Definition cacheDown : World :=
  {| hostname := RenderingView.toyHostname;
     atLookup := CacheView.unopenable; atStore := CacheView.unopenable;
     upstreamEnv := oneResult |}.

(** The same upstream behind a working cache. *)
Definition cacheUp : World :=
  {| hostname := RenderingView.toyHostname;
     atLookup := CacheView.unitModel; atStore := CacheView.unitModel;
     upstreamEnv := oneResult |}.

(** The same query two minutes later. *)
Definition laterClock : Clock :=
  {| startTime := 130000; lookupTime := 130001; hitTime := 130040; ageTime := 130351;
     missTime := 130350; storeTime := 130351 |}.

End SearchView.

(** The vocabulary of the round trip between the text [performBraveSearch]
    returns and [parseSearchResults]. *)
Module RoundTripView.
Import BraveSearch.

(** No character of [s] is a line feed. *)
Fixpoint singleLine (s : string) : bool :=
  match s with
  | EmptyString => true
  | String c s' => negb (Ascii.eqb c JS.LF) && singleLine s'
  end.

(** [s] holds no two line feeds in a row and does not end with one. *)
Fixpoint tidy (s : string) : bool :=
  match s with
  | EmptyString => true
  | String c s' =>
      if Ascii.eqb c JS.LF
      then match s' with
           | EmptyString => false
           | String c' _ => negb (Ascii.eqb c' JS.LF)
           end && tidy s'
      else tidy s'
  end.

(** [data.web?.results || []] *)
Definition resultsOf (data : BraveWeb) : list WebResult :=
  match web data with
  | Some w => match results w with Some l => l | None => [] end
  | None => []
  end.

(** A result with the fall-backs for empty fields. *)
Definition withFallbacks (r : WebResult) : WebResult :=
  {| title := orElse (title r) "N/A";
     description := orElse (description r) "N/A";
     url := orElse (url r) "#" |}.

(** The block of text of one result. *)
Definition blockOf (r : WebResult) : string :=
  "Title: " ++ title r ++ JS.nl ++
  "Description: " ++ description r ++ JS.nl ++
  "URL: " ++ url r.

Definition singleLineResult (r : WebResult) : Prop :=
  singleLine (title r) = true /\ singleLine (description r) = true /\
  singleLine (url r) = true.

(** What the parser makes of the block of [r]. *)
Definition parsedItem (r : WebResult) : ResultProcessor.SearchResult :=
  {| ResultProcessor.title := Some (JS.trim (title r));
     ResultProcessor.description := Some (JS.trim (description r));
     ResultProcessor.url := Some (JS.trim (url r)) |}.

(** The title and the URL of [r] are not blank. *)
Definition survives (r : WebResult) : bool :=
  JS.truthy (JS.trim (title r)) && JS.truthy (JS.trim (url r)).

(** Two results, the second with a blank title and no description. *)
Definition twoResults : BraveWeb :=
  {| web := Some {| results :=
       Some [ {| title := " Rocq "; description := "A proof assistant";
                 url := "https://rocq-prover.org/" |};
              {| title := "  "; description := "";
                 url := "https://example.org/" |} ] |} |}.

(** A result whose title holds a line feed followed by a second title
    line. *)
Definition twoLineTitle : BraveWeb :=
  {| web := Some {| results :=
       Some [ {| title := "Rocq" ++ JS.nl ++ "Title: Coq";
                 description := "A proof assistant";
                 url := "https://rocq-prover.org/" |} ] |} |}.

End RoundTripView.

(* ====================================================================== *)
(** * tools/braveSearchTools.ts, continued: the multi-link tool *)
(* ====================================================================== *)

Module MultiLink.
Import BraveSearch.

(** [content[0].text] and [isError] of a [CallToolResult]. *)
Record CallToolResult := { text : string; isError : bool }.

(** The text of a [reason] of [checkRateLimit]. *)
Definition reasonText (r : Reason) : string :=
  match r with
  | MonthlyExceeded limit days =>
      "Monthly rate limit of " ++ JSText.numberToString limit
        ++ " requests exceeded. Resets in " ++ JSText.numberToString days ++ " days."
  | PerSecondReached waitTime =>
      "Per-second rate limit reached. Wait " ++ JSText.numberToString waitTime
        ++ "ms before retry."
  end.

(** [error.message] of the errors [performBraveSearch] throws;
    [abortMessage] is the message the platform gives its AbortError. *)
Definition errorMessage (abortMessage : string) (e : Error) : string :=
  match e with
  | QuotaError r => reasonText r
  | QuotaErrorDefault => "Monthly rate limit exceeded."
  | RateLimit429 attempt =>
      "Brave API rate limit exceeded (429). Attempt " ++ JSText.numberToString attempt
        ++ "/" ++ JSText.numberToString (maxAttempts RETRY_CONFIG)
  | RateLimitExhausted attempts =>
      "Brave API rate limit exceeded after " ++ JSText.numberToString attempts
        ++ " attempts. Please wait before retrying."
  | ApiError status statusText details =>
      "Brave API error: " ++ JSText.numberToString status ++ " " ++ statusText
        ++ ". Details: " ++ details
  | Timeout attempt =>
      "Request timeout after 10 seconds. Attempt " ++ JSText.numberToString attempt
        ++ "/" ++ JSText.numberToString (maxAttempts RETRY_CONFIG)
  | AbortError => abortMessage
  | OtherError message => message
  | MaxRetries => "Search failed after maximum retry attempts"
  end.

(** [performBraveSearchForQuery(query, count, offset)]: the text of the
    search, or the text of its error.  (The last case does not occur: the
    retry loop always settles.) *)
Definition performBraveSearchForQuery (abortMessage : string) (env : Env)
    (query : string) (rc : RequestCount) : string * Run :=
  let run := performBraveSearch env rc in
  (match completion run with
   | Returned results => results
   | Threw e =>
       "Error searching for query " ++ JSText.quote ++ query ++ JSText.quote ++ ": "
         ++ errorMessage abortMessage e
   | OutOfFuel => EmptyString
   end, run).

(** The state of the [for] loop: [searchResults], the request counters, and
    the upstream events so far. *)
Record LoopState := {
  searchResults : list string;
  counters : RequestCount;
  events : list Event
}.

(** The body of [for (let i = 0; i < queries.length; i++)]; [envOf i] are
    the collaborators of the search for [queries[i]]. *)
Definition multiLinkStep (abortMessage : string) (envOf : nat -> Env) (total : nat)
    (st : LoopState) (indexed : nat * string) : LoopState :=
  let '(i, query) := indexed in
  let '(results, run) := performBraveSearchForQuery abortMessage (envOf i) query (counters st) in
  {| searchResults :=
       (searchResults st ++
        [("Results for Query " ++ JSText.numberToString (Z.of_nat i + 1) ++ " ("
            ++ JSText.quote ++ query ++ JSText.quote ++ "):" ++ JS.nl ++ results)%string])%list;
     counters := final run;
     events :=
       (events st ++ trace run ++
        (if (i <? total - 1)%nat then [EvSleep (Some 1100)] else []))%list |}.

(** The queries with their indices. *)
Definition indexed (queries : list string) : list (nat * string) :=
  combine (seq 0 (List.length queries)) queries.

(** [executeMultiLinkSearch({ queries, count })] *)
Definition executeMultiLinkSearch (abortMessage : string) (envOf : nat -> Env)
    (queries : list string) (rc : RequestCount) : CallToolResult * LoopState :=
  let untouched := {| searchResults := []; counters := rc; events := [] |} in
  if (List.length queries =? 0)%nat then
    ({| text := "No queries provided for multi-link search."; isError := true |}, untouched)
  else if (10 <? List.length queries)%nat then
    ({| text := "Maximum of 10 queries allowed for multi-link search to respect API limits.";
        isError := true |}, untouched)
  else
    match find (fun query => (400 <? String.length query)%nat) queries with
    | Some query =>
        ({| text := "Query " ++ JSText.quote ++ query ++ JSText.quote
                      ++ " exceeds 400 characters. Please shorten it.";
            isError := true |}, untouched)
    | None =>
        let st :=
          fold_left (multiLinkStep abortMessage envOf (List.length queries))
            (indexed queries) untouched in
        ({| text := JS.join (JS.nl ++ JS.nl ++ "---" ++ JS.nl ++ JS.nl) (searchResults st);
            isError := false |}, st)
    end.

(** The arguments pass the three checks of [executeMultiLinkSearch]. *)
Definition accepted (queries : list string) : bool :=
  negb (List.length queries =? 0)%nat && (List.length queries <=? 10)%nat
  && forallb (fun query => (String.length query <=? 400)%nat) queries.

(** Three queries: the first is answered, the second meets a server error,
    the third is answered. *)
Definition mixedUpstream (i : nat) : Env :=
  {| now := fun a => 20000 + 2000 * Z.of_nat i + a;
     random := fun _ => (1 # 2)%Q;
     fetch := fun _ =>
       if (i =? 1)%nat then NotOk 500 "Internal Server Error" "boom"
       else Ok200 {| web := None |} |}.

(** What the loop of [executeMultiLinkSearch] keeps: the counters are those
    the events lead to, and the events hold at most three fetches and one
    commit per query done. *)
Definition multiLinkInvariant (rc : RequestCount) (st : LoopState) : Prop :=
  counters st = replay (events st) rc /\
  (count isFetch (events st) <= 3 * List.length (searchResults st))%nat /\
  (count isCommit (events st) <= List.length (searchResults st))%nat.

End MultiLink.

(* ====================================================================== *)
(** * embeddingService.ts: the model loader *)
(* ====================================================================== *)

(** [EmbeddingService]: the static fields [pipeline] and [initialized], and
    the methods [initialize] and [embed].  The calls of the transformers
    library are answered by an environment; requests run one after the
    other.  Of the log only the [error] lines are kept (the [info] lines
    carry timings). *)
Module EmbeddingService.
Import SemanticCache.

(** The loaded feature-extraction pipeline. *)
Inductive Pipeline := FeatureExtraction.

(** What the service asked of the library, with the answer for a load. *)
Inductive LibraryCall :=
| Loaded
| LoadFailed
| Ran (text : string).

Definition isLoad (c : LibraryCall) : bool :=
  match c with Ran _ => false | _ => true end.

Definition isRan (c : LibraryCall) : bool :=
  match c with Ran _ => true | _ => false end.

(** [pipelineLoads n]: how the [n]-th call of [pipeline('feature-extraction', ...)]
    settles; [runs n text]: how the [n]-th call of the loaded pipeline
    settles on [text]. *)
Record Env := {
  pipelineLoads : nat -> Promise Pipeline;
  runs : nat -> string -> Promise Embedding.Vector
}.

Record State := {
  pipeline : option Pipeline;
  initialized : bool;
  history : list LibraryCall;
  log : Log
}.

(** The service when the module is loaded. *)
Definition fresh : State :=
  {| pipeline := None; initialized := false; history := []; log := [] |}.

Definition record (c : LibraryCall) (st : State) : State :=
  {| pipeline := pipeline st; initialized := initialized st;
     history := (history st ++ [c])%list; log := log st |}.

Definition logError (message : string) (st : State) : State :=
  {| pipeline := pipeline st; initialized := initialized st;
     history := history st; log := (log st ++ [(error, message)])%list |}.

(** [embed] from [const startTime] on, that is, past the test of
    [this.initialized]. *)
Definition embedBody (env : Env) (st : State) (text : string)
  : Promise Embedding.Vector * State :=
  match pipeline st with
  | None =>
      (Rejected "this.pipeline is not a function",
       logError "[Embeddings] Failed to generate embedding" st)
  | Some _ =>
      match runs env (List.length (filter isRan (history st))) text with
      | Resolved output => (Resolved output, record (Ran text) st)
      | Rejected e =>
          (Rejected e,
           logError "[Embeddings] Failed to generate embedding" (record (Ran text) st))
      end
  end.

(** [initialize()].  The warm-up [this.embed('warmup query')] runs with
    [initialized] already set, so it is [embedBody]. *)
Definition initialize (env : Env) (st : State) : Promise unit * State :=
  if initialized st then (Resolved tt, st)
  else
    match pipelineLoads env (List.length (filter isLoad (history st))) with
    | Rejected e =>
        (Rejected e, logError "[Embeddings] Failed to load model" (record LoadFailed st))
    | Resolved p =>
        let loaded :=
          {| pipeline := Some p; initialized := true;
             history := (history st ++ [Loaded])%list; log := log st |} in
        match embedBody env loaded "warmup query" with
        | (Resolved _, st') => (Resolved tt, st')
        | (Rejected e, st') =>
            (Rejected e, logError "[Embeddings] Failed to load model" st')
        end
    end.

(** [embed(text)] *)
Definition embed (env : Env) (st : State) (text : string)
  : Promise Embedding.Vector * State :=
  if initialized st then embedBody env st text
  else
    match initialize env st with
    | (Rejected e, st') => (Rejected e, st')
    | (Resolved _, st') => embedBody env st' text
    end.

(** The requests made of the service. *)
Inductive Request :=
| Initialize
| Embed (text : string).

Definition serve (env : Env) (st : State) (r : Request) : State :=
  match r with
  | Initialize => snd (initialize env st)
  | Embed text => snd (embed env st text)
  end.

Definition serveAll (env : Env) (requests : list Request) : State :=
  fold_left (serve env) requests fresh.

(** A model that loads at the second try and whose pipeline fails once, at
    its first run. *)
Definition shakyLibrary : Env :=
  {| pipelineLoads := fun n =>
       match n with O => Rejected "fetch failed" | _ => Resolved FeatureExtraction end;
     runs := fun n _ =>
       match n with O => Rejected "wasm: out of memory" | _ => Resolved [1%float] end |}.

(** A model that loads at once and whose pipeline fails at its first run. *)
Definition coldLibrary : Env :=
  {| pipelineLoads := fun _ => Resolved FeatureExtraction;
     runs := fun n _ =>
       match n with O => Rejected "wasm: out of memory" | _ => Resolved [1%float] end |}.

(** The shape of the service's state: the loads that failed, then, once
    initialised, the one load that succeeded, the warm-up run directly
    after it, and the runs since; the pipeline is set exactly when
    [initialized] is. *)
Definition wellFormed (st : State) : Prop :=
  pipeline st = (if initialized st then Some FeatureExtraction else None) /\
  exists (failures : nat) (texts : list string),
    history st =
      (repeat LoadFailed failures ++
       (if initialized st then Loaded :: Ran "warmup query" :: map Ran texts else []))%list.

End EmbeddingService.

(* ====================================================================== *)
(** * Facts about the rate limiter and the retry loop *)
(* ====================================================================== *)

Section RetryLoop.
Import BraveSearch LoopView.
Local Open Scope list_scope.

Lemma count_app (p : Event -> bool) (a b : list Event) :
  count p (a ++ b) = (count p a + count p b)%nat.
Proof. unfold count. now rewrite filter_app, length_app. Qed.

Lemma replay_app (a b : list Event) (rc : RequestCount) :
  replay (a ++ b) rc = replay b (replay a rc).
Proof. unfold replay. apply fold_left_app. Qed.


Lemma checkRateLimit_pair (t : Z) (rc : RequestCount) :
  checkRateLimit t rc = (fst (checkRateLimit t rc), snd (checkRateLimit t rc)).
Proof. now destruct (checkRateLimit t rc). Qed.

(** The counters after a check are those after the window resets. *)
Lemma checkRateLimit_snd (t : Z) (rc : RequestCount) :
  snd (checkRateLimit t rc) = rollover t rc.
Proof.
  unfold checkRateLimit.
  destruct (perMonth RATE_LIMIT <=? month (rollover t rc)); [reflexivity|].
  destruct (perSecond RATE_LIMIT <=? second (rollover t rc)); reflexivity.
Qed.

(** Every iteration ends in one of the six ways of [IterationView]. *)
Lemma iteration_view (env : Env) (a : Z) (le : option Error)
    (rc : RequestCount) (tr : list Event) :
  IterationView env a le rc tr (iteration env a le rc tr).
Proof.
  unfold iteration.
  rewrite (checkRateLimit_pair (now env a) rc).
  fold (checkAt env a rc) (countAt env a rc).
  assert (REQ : proceeds (checkAt env a rc) a ->
                IterationView env a le rc tr
                  (request env a le (countAt env a rc)
                     (tr ++ [EvCheck (now env a) (checkAt env a rc)]))).
  { intros P. unfold request.
    destruct (fetch env a) as [| m | ra | st stt det | data | reading] eqn:F.
    - destruct (a <? maxAttempts RETRY_CONFIG) eqn:L;
        rewrite <- ?app_assoc; cbn [app].
      + replace (Some (Timeout a)) with (Some (attemptError a (fetch env a)))
          by now rewrite F.
        replace (addJitter (random env a) (Some (exponentialDelay a)))
          with (retryWait env a (fetch env a)) by now rewrite F.
        rewrite <- F. apply IV_retry; auto; [now rewrite F | lia].
      + replace AbortError with (thrownError (fetch env a)) by now rewrite F.
        rewrite <- F. apply IV_fail; auto; [now rewrite F | lia].
    - rewrite <- ?app_assoc; cbn [app].
      replace (OtherError m) with (thrownError (fetch env a)) by now rewrite F.
      rewrite <- F. apply IV_fail; auto; rewrite F; [reflexivity | discriminate].
    - destruct (a <? maxAttempts RETRY_CONFIG) eqn:L;
        rewrite <- ?app_assoc; cbn [app].
      + replace (Some (RateLimit429 a)) with (Some (attemptError a (fetch env a)))
          by now rewrite F.
        replace (addJitter (random env a) (retryDelayMs ra a))
          with (retryWait env a (fetch env a)) by now rewrite F.
        rewrite <- F. apply IV_retry; auto; [now rewrite F | lia].
      + replace (RateLimitExhausted (maxAttempts RETRY_CONFIG))
          with (thrownError (fetch env a)) by now rewrite F.
        rewrite <- F. apply IV_fail; auto; [now rewrite F | lia].
    - rewrite <- ?app_assoc; cbn [app].
      replace (ApiError st stt det) with (thrownError (fetch env a)) by now rewrite F.
      rewrite <- F. apply IV_fail; auto; rewrite F; [reflexivity | discriminate].
    - rewrite <- ?app_assoc; cbn [app]. apply IV_ok; auto.
    - rewrite <- ?app_assoc; cbn [app]. apply IV_untyped; auto. }
  destruct (canProceed (checkAt env a rc)) eqn:C; cbn [negb].
  - apply REQ. now left.
  - destruct (waitTimeMs (checkAt env a rc) =? 0) eqn:W.
    + apply Z.eqb_eq in W. now apply IV_quota.
    + apply Z.eqb_neq in W.
      destruct (a <? maxAttempts RETRY_CONFIG) eqn:L.
      * rewrite <- ?app_assoc; cbn [app]. apply IV_wait; auto. lia.
      * apply REQ. right. repeat split; auto. lia.
Qed.

(** The loop rule: an invariant kept by every iteration that continues,
    and a property established by every iteration that finishes, give the
    property of the run; the fuel [maxAttempts - attempt] is enough. *)
Lemma retryLoop_rule (env : Env)
    (I : Z -> RequestCount -> list Event -> Prop) (R : Run -> Prop) :
  (forall a le rc tr,
      0 <= a < maxAttempts RETRY_CONFIG -> I a rc tr ->
      match iteration env (a + 1) le rc tr with
      | Continue _ rc' tr' => a + 1 < maxAttempts RETRY_CONFIG /\ I (a + 1) rc' tr'
      | Finish r => R r
      end) ->
  forall fuel a le rc tr,
    0 <= a < maxAttempts RETRY_CONFIG -> I a rc tr ->
    (Z.to_nat (maxAttempts RETRY_CONFIG - a) <= fuel)%nat ->
    R (retryLoop fuel env a le rc tr).
Proof.
  intros step fuel.
  induction fuel as [|fuel IH]; intros a le rc tr Ha HI Hf.
  - exfalso. lia.
  - cbn [retryLoop].
    replace (a <? maxAttempts RETRY_CONFIG) with true by (symmetry; lia).
    specialize (step a le rc tr Ha HI).
    destruct (iteration env (a + 1) le rc tr) as [le' rc' tr'|r]; [|exact step].
    destruct step as [Hlt HI']. apply IH; auto; lia.
Qed.

Lemma performBraveSearch_rule (env : Env) (rc : RequestCount)
    (I : Z -> RequestCount -> list Event -> Prop) (R : Run -> Prop) :
  I 0 rc [] ->
  (forall a le rc tr,
      0 <= a < maxAttempts RETRY_CONFIG -> I a rc tr ->
      match iteration env (a + 1) le rc tr with
      | Continue _ rc' tr' => a + 1 < maxAttempts RETRY_CONFIG /\ I (a + 1) rc' tr'
      | Finish r => R r
      end) ->
  R (performBraveSearch env rc).
Proof.
  intros H0 step. unfold performBraveSearch, performBraveSearchFuel.
  apply (retryLoop_rule env I R step); auto; simpl; lia.
Qed.

End RetryLoop.

Section QuotaAccounting.
Import BraveSearch LoopView.
Local Open Scope list_scope.

Lemma quiet_nil : quiet [].
Proof. split; reflexivity. Qed.

Lemma quiet_app (a b : list Event) : quiet a -> quiet b -> quiet (a ++ b).
Proof. unfold quiet. rewrite !count_app. lia. Qed.

Lemma quiet_cons_inv (e : Event) (tr : list Event) :
  quiet (e :: tr) -> isSuccess e = false /\ isCommit e = false /\ quiet tr.
Proof.
  unfold quiet, count. cbn [filter].
  destruct (isSuccess e), (isCommit e); cbn [List.length]; intros [H1 H2];
    try discriminate; auto.
Qed.

(** A prefix without success or commit does not matter to
    [commitsFollowSuccess]. *)
Lemma commitsFollowSuccess_quiet (tr rest : list Event) :
  quiet tr -> commitsFollowSuccess (tr ++ rest) = commitsFollowSuccess rest.
Proof.
  induction tr as [|e tr IH]; intros Q; [reflexivity|].
  apply quiet_cons_inv in Q. destruct Q as (S & C & Q).
  destruct e as [t chk | ms | a o |]; cbn [app commitsFollowSuccess]; auto.
  - destruct o; auto; discriminate.
  - discriminate.
Qed.

Lemma commitsFollowSuccess_of_quiet (tr : list Event) :
  quiet tr -> commitsFollowSuccess tr = true.
Proof.
  intros Q. rewrite <- (app_nil_r tr). now rewrite commitsFollowSuccess_quiet.
Qed.

Lemma checkRateLimit_never_increments (t : Z) (rc : RequestCount) :
  (second (snd (checkRateLimit t rc)) = second rc \/
   second (snd (checkRateLimit t rc)) = 0) /\
  (month (snd (checkRateLimit t rc)) = month rc \/
   month (snd (checkRateLimit t rc)) = 0).
Proof.
  rewrite checkRateLimit_snd. unfold rollover.
  destruct (1000 <=? t - lastSecondReset rc); cbn [lastMonthReset];
    destruct (2592000000 <=? t - lastMonthReset rc); cbn [second month]; auto.
Qed.

Lemma performBraveSearch_accounted (env : Env) (rc : RequestCount) :
  accounted rc (performBraveSearch env rc).
Proof.
  apply performBraveSearch_rule
    with (I := fun _ c tr => c = replay tr rc /\ quiet tr).
  - split; [reflexivity | apply quiet_nil].
  - intros a le c tr Ha [Hc Hq].
    assert (CK : forall evs, replay (tr ++ EvCheck (now env (a + 1))
                                      (checkAt env (a + 1) c) :: evs) rc
                             = replay evs (countAt env (a + 1) c)).
    { intros evs. rewrite replay_app, <- Hc. reflexivity. }
    destruct (iteration_view env (a + 1) le c tr)
      as [C W | C W L | P Rt L | P S NR | data P F | reading P F].
    + split; cbn [final trace]; [now rewrite CK|].
      right. right. eexists. split; [reflexivity|].
      apply quiet_app; auto. split; reflexivity.
    + split; [lia|]. split; [now rewrite CK|].
      apply quiet_app; auto. split; reflexivity.
    + split; [lia|]. split; [now rewrite CK|].
      apply quiet_app; auto.
      destruct (fetch env (a + 1)); try discriminate; split; reflexivity.
    + split; cbn [final trace]; [now rewrite CK|].
      right. right. eexists. split; [reflexivity|].
      apply quiet_app; auto.
      destruct (fetch env (a + 1)); try discriminate; split; reflexivity.
    + split; cbn [final trace]; [now rewrite CK|].
      left. exists (formatData data),
        (tr ++ [EvCheck (now env (a + 1)) (checkAt env (a + 1) c)]), (a + 1), data.
      split; [reflexivity|]. split; [now rewrite <- app_assoc|].
      apply quiet_app; auto. split; reflexivity.
    + split; cbn [final trace]; [now rewrite CK|].
      right. left.
      exists (tr ++ [EvCheck (now env (a + 1)) (checkAt env (a + 1) c)]), (a + 1), reading.
      split; [reflexivity|]. split; [now rewrite <- app_assoc|].
      apply quiet_app; auto. split; reflexivity.
Qed.

(** The commits of a run, by the way it ends. *)
Lemma performBraveSearch_commits (env : Env) (rc : RequestCount) :
  match completion (performBraveSearch env rc) with
  | Returned _ => count isCommit (trace (performBraveSearch env rc)) = 1%nat
  | Threw e =>
      count isCommit (trace (performBraveSearch env rc)) = 0%nat \/
      exists pre a typeError,
        e = OtherError typeError /\
        trace (performBraveSearch env rc)
          = pre ++ [EvFetch a (Ok200Untyped (Throws typeError)); EvCommit] /\
        count isCommit (trace (performBraveSearch env rc)) = 1%nat
  | OutOfFuel => False
  end.
Proof.
  destruct (performBraveSearch_accounted env rc) as [F [OK | [UT | KO]]].
  - destruct OK as (text & pre & a & data & C & T & [Q1 Q2]).
    rewrite C, T, count_app, Q2. reflexivity.
  - destruct UT as (pre & a & reading & C & T & [Q1 Q2]).
    assert (N : count isCommit (trace (performBraveSearch env rc)) = 1%nat)
      by (rewrite T, count_app, Q2; reflexivity).
    rewrite C. destruct reading as [text | typeError]; cbn [settle]; [exact N|].
    right. exists pre, a, typeError. auto.
  - destruct KO as (e & C & [Q1 Q2]). rewrite C. left. exact Q2.
Qed.

(** Every fetch event of a run carries what the upstream answered at its
    attempt. *)
Lemma performBraveSearch_answered (env : Env) (rc : RequestCount) :
  Forall (answeredBy env) (trace (performBraveSearch env rc)).
Proof.
  apply performBraveSearch_rule with (I := fun _ _ tr => Forall (answeredBy env) tr).
  - constructor.
  - intros a le c tr Ha HI.
    destruct (iteration_view env (a + 1) le c tr)
      as [C W | C W L | P Rt L | P S NR | data P F | reading P F];
      cbn [trace]; try (split; [lia|]);
      apply Forall_app; (split; [exact HI|]);
      repeat constructor; cbn [answeredBy]; auto.
Qed.

(** C1, as the code has it.  [checkRateLimit] leaves each counter as it is
    or resets it to zero, it never increments; [incrementRateLimit] adds
    exactly one to both counters; and in every execution of
    [performBraveSearch] the counters change only through the checks and
    commits of its trace, every fetch event is the upstream's answer at its
    attempt, the number of commits equals the number of responses with
    status 200 whose body parsed, every commit directly follows the
    response it accounts for (so no commit follows an abort, a network
    error, a 429 or another status), and there is at most one commit.  A
    run that returns has committed exactly once.  A run that throws has
    committed nothing, with one exception: when the body of the 200
    response is not a [BraveWeb] and reading it throws, the commit has
    already been made and the run ends with that TypeError.  The run
    always returns or throws. *)
Theorem quota_consumed_only_by_success (env : Env) (rc : RequestCount) :
  (forall t c,
      (second (snd (checkRateLimit t c)) = second c \/
       second (snd (checkRateLimit t c)) = 0) /\
      (month (snd (checkRateLimit t c)) = month c \/
       month (snd (checkRateLimit t c)) = 0)) /\
  (forall c,
      second (incrementRateLimit c) = second c + 1 /\
      month (incrementRateLimit c) = month c + 1) /\
  final (performBraveSearch env rc) = replay (trace (performBraveSearch env rc)) rc /\
  Forall (answeredBy env) (trace (performBraveSearch env rc)) /\
  count isCommit (trace (performBraveSearch env rc))
    = count isSuccess (trace (performBraveSearch env rc)) /\
  commitsFollowSuccess (trace (performBraveSearch env rc)) = true /\
  (count isCommit (trace (performBraveSearch env rc)) <= 1)%nat /\
  match completion (performBraveSearch env rc) with
  | Returned _ => count isCommit (trace (performBraveSearch env rc)) = 1%nat
  | Threw e =>
      count isCommit (trace (performBraveSearch env rc)) = 0%nat \/
      exists pre a typeError,
        trace (performBraveSearch env rc)
          = pre ++ [EvFetch a (Ok200Untyped (Throws typeError)); EvCommit] /\
        fetch env a = Ok200Untyped (Throws typeError) /\
        e = OtherError typeError
  | OutOfFuel => False
  end.
Proof.
  split; [exact checkRateLimit_never_increments|].
  split; [intros c; split; reflexivity|].
  pose proof (performBraveSearch_answered env rc) as A.
  destruct (performBraveSearch_accounted env rc) as [F [OK | [UT | KO]]].
  - destruct OK as (text & pre & a & data & C & T & [Q1 Q2]).
    rewrite C, T, !count_app, Q1, Q2.
    rewrite commitsFollowSuccess_quiet by (split; assumption).
    rewrite <- T. repeat split; auto.
  - destruct UT as (pre & a & reading & C & T & [Q1 Q2]).
    assert (U : fetch env a = Ok200Untyped reading).
    { rewrite T in A. apply Forall_app in A. destruct A as [_ A].
      apply Forall_inv in A. cbn [answeredBy] in A. now symmetry. }
    split; [exact F|]. split; [exact A|].
    rewrite C, T, !count_app, Q1, Q2.
    rewrite commitsFollowSuccess_quiet by (split; assumption).
    repeat split; auto.
    destruct reading as [text | typeError]; cbn [settle]; [reflexivity|].
    right. exists pre, a, typeError. repeat split; auto.
  - destruct KO as (e & C & [Q1 Q2]).
    rewrite C, Q1, Q2. repeat split; auto.
    apply commitsFollowSuccess_of_quiet. split; assumption.
Qed.

(** C1, as stated, fails: the upstream answers with status 200 and the
    body [null]; the attempt fails with the TypeError of [data.web] and the
    search throws it, after both counters were incremented. *)
Lemma null_body_commits_then_throws :
  completion (performBraveSearch nullBody idle)
    = Threw (OtherError "Cannot read properties of null (reading 'web')") /\
  count isCommit (trace (performBraveSearch nullBody idle)) = 1%nat /\
  second (final (performBraveSearch nullBody idle)) = 1 /\
  month (final (performBraveSearch nullBody idle)) = month idle + 1.
Proof. vm_compute. repeat split. Qed.

End QuotaAccounting.

Section QuotaExhaustion.
Import BraveSearch LoopView.
Local Open Scope list_scope.

(** [Math_ceil_div a b] is the least integer not below [a / b]. *)
Lemma Math_ceil_div_spec (a b : Z) :
  0 < b -> b * (JS.Math_ceil_div a b - 1) < a <= b * JS.Math_ceil_div a b.
Proof.
  intros Hb. unfold JS.Math_ceil_div.
  pose proof (Z.div_mod (- a) b ltac:(lia)) as D.
  pose proof (Z.mod_pos_bound (- a) b Hb) as M.
  nia.
Qed.

Lemma checkRateLimit_monthly (t : Z) (rc : RequestCount) :
  perMonth RATE_LIMIT <= month (rollover t rc) ->
  checkRateLimit t rc =
    ({| canProceed := false; waitTimeMs := 0;
        reason := Some (MonthlyExceeded (perMonth RATE_LIMIT) (daysUntilReset t rc)) |},
     rollover t rc).
Proof.
  intros H. unfold checkRateLimit.
  replace (perMonth RATE_LIMIT <=? month (rollover t rc)) with true
    by (symmetry; apply Z.leb_le; exact H).
  reflexivity.
Qed.

Lemma checkRateLimit_perSecond (t : Z) (rc : RequestCount) :
  month (rollover t rc) < perMonth RATE_LIMIT ->
  perSecond RATE_LIMIT <= second (rollover t rc) ->
  0 < 1000 - (t - lastSecondReset rc) /\
  checkRateLimit t rc =
    ({| canProceed := false; waitTimeMs := 1000 - (t - lastSecondReset rc);
        reason := Some (PerSecondReached (1000 - (t - lastSecondReset rc))) |},
     rollover t rc).
Proof.
  intros Hm Hs.
  assert (W : t - lastSecondReset rc < 1000 /\
              lastSecondReset (rollover t rc) = lastSecondReset rc).
  { revert Hs. unfold rollover.
    destruct (1000 <=? t - lastSecondReset rc) eqn:E; cbn [lastMonthReset];
      destruct (2592000000 <=? t - lastMonthReset rc);
      cbn [second lastSecondReset perSecond RATE_LIMIT]; intros Hs;
      try lia; apply Z.leb_gt in E; auto. }
  destruct W as [W1 W2]. split; [lia|].
  unfold checkRateLimit.
  replace (perMonth RATE_LIMIT <=? month (rollover t rc)) with false
    by (symmetry; apply Z.leb_gt; exact Hm).
  replace (perSecond RATE_LIMIT <=? second (rollover t rc)) with true
    by (symmetry; apply Z.leb_le; exact Hs).
  rewrite W2. rewrite Z.max_r by lia. reflexivity.
Qed.

Lemma month_after_commits (n : nat) (rc : RequestCount) :
  month (Nat.iter n incrementRateLimit rc) = month rc + Z.of_nat n /\
  lastMonthReset (Nat.iter n incrementRateLimit rc) = lastMonthReset rc.
Proof.
  induction n as [|n [IH1 IH2]]; [cbn; split; lia|].
  rewrite Nat.iter_succ. cbn [incrementRateLimit month lastMonthReset].
  rewrite IH1, IH2. split; lia.
Qed.

Lemma rollover_month_within_window (t : Z) (rc : RequestCount) :
  t - lastMonthReset rc < 2592000000 -> month (rollover t rc) = month rc.
Proof.
  intros H. unfold rollover.
  destruct (1000 <=? t - lastSecondReset rc); cbn [lastMonthReset];
    replace (2592000000 <=? t - lastMonthReset rc) with false
      by (symmetry; lia); reflexivity.
Qed.

(** C2. When the monthly count (after the window resets of the check) has
    reached [RATE_LIMIT.perMonth], [checkRateLimit] answers
    [canProceed: false] with [waitTimeMs: 0], which the caller reads as
    terminal: [performBraveSearch] throws the quota error whose message
    states the days until reset (the ceiling of the remaining time over a
    day), and its trace is that one check — no fetch, no sleep, no retry.
    [perMonth] commits within one window bring the count to the cap.
    When only the per-second cap is reached, the answer is
    [canProceed: false] with [waitTimeMs] the remaining time of the second
    window, which is positive, so the caller does not fail: it sleeps and
    goes on to the next iteration. *)
Theorem long_window_cap_is_terminal (env : Env) (rc : RequestCount) :
  (perMonth RATE_LIMIT <= month (rollover (now env 1) rc) ->
     fst (checkRateLimit (now env 1) rc) =
       {| canProceed := false; waitTimeMs := 0;
          reason := Some (MonthlyExceeded (perMonth RATE_LIMIT)
                            (daysUntilReset (now env 1) rc)) |} /\
     86400000 * (daysUntilReset (now env 1) rc - 1)
       < 2592000000 - (now env 1 - lastMonthReset (rollover (now env 1) rc))
       <= 86400000 * daysUntilReset (now env 1) rc /\
     completion (performBraveSearch env rc) =
       Threw (QuotaError (MonthlyExceeded (perMonth RATE_LIMIT)
                            (daysUntilReset (now env 1) rc))) /\
     trace (performBraveSearch env rc) =
       [EvCheck (now env 1) (fst (checkRateLimit (now env 1) rc))] /\
     count isFetch (trace (performBraveSearch env rc)) = 0%nat /\
     sleeps (trace (performBraveSearch env rc)) = []) /\
  (month rc = 0 -> now env 1 - lastMonthReset rc < 2592000000 ->
     perMonth RATE_LIMIT <=
       month (rollover (now env 1)
                (Nat.iter (Z.to_nat (perMonth RATE_LIMIT)) incrementRateLimit rc))) /\
  (month (rollover (now env 1) rc) < perMonth RATE_LIMIT ->
   perSecond RATE_LIMIT <= second (rollover (now env 1) rc) ->
     fst (checkRateLimit (now env 1) rc) =
       {| canProceed := false;
          waitTimeMs := 1000 - (now env 1 - lastSecondReset rc);
          reason := Some (PerSecondReached (1000 - (now env 1 - lastSecondReset rc))) |} /\
     0 < 1000 - (now env 1 - lastSecondReset rc) /\
     iteration env 1 None rc [] =
       Continue None (rollover (now env 1) rc)
         [EvCheck (now env 1) (fst (checkRateLimit (now env 1) rc));
          EvSleep (addJitter (random env 1)
                     (Some (1000 - (now env 1 - lastSecondReset rc))))]).
Proof.
  split; [|split].
  - intros H. pose proof (checkRateLimit_monthly _ _ H) as E.
    assert (T : performBraveSearch env rc =
                {| completion := Threw (QuotaError (MonthlyExceeded (perMonth RATE_LIMIT)
                                                      (daysUntilReset (now env 1) rc)));
                   final := rollover (now env 1) rc;
                   trace := [EvCheck (now env 1) (fst (checkRateLimit (now env 1) rc))] |}).
    { unfold performBraveSearch, performBraveSearchFuel.
      cbn [retryLoop RETRY_CONFIG maxAttempts Z.to_nat Pos.to_nat Pos.iter_op Init.Nat.add].
      change (0 <? 3) with true. change (0 + 1) with 1. cbv iota.
      unfold iteration. rewrite E. reflexivity. }
    rewrite T, E. cbn [fst completion trace sleeps].
    repeat split; try reflexivity;
      apply (Math_ceil_div_spec
               (2592000000 - (now env 1 - lastMonthReset (rollover (now env 1) rc)))
               86400000); lia.
  - intros H0 Hw.
    destruct (month_after_commits (Z.to_nat (perMonth RATE_LIMIT)) rc) as [M L].
    rewrite rollover_month_within_window by (rewrite L; exact Hw).
    rewrite M, H0. cbn [perMonth RATE_LIMIT]. lia.
  - intros Hm Hs.
    destruct (checkRateLimit_perSecond _ _ Hm Hs) as [Hpos E].
    rewrite E. cbn [fst]. repeat split; auto.
    unfold iteration. rewrite E. cbn [canProceed waitTimeMs negb].
    replace (1000 - (now env 1 - lastSecondReset rc) =? 0) with false
      by (symmetry; lia).
    reflexivity.
Qed.

Lemma long_window_cap_is_terminal_witness :
  (perMonth RATE_LIMIT <= month (rollover (now quietEnv 1) exhausted) /\
   completion (performBraveSearch quietEnv exhausted)
     = Threw (QuotaError (MonthlyExceeded 2000 28)) /\
   count isFetch (trace (performBraveSearch quietEnv exhausted)) = 0%nat) /\
  (month (rollover (now earlyEnv 1) busy) < perMonth RATE_LIMIT /\
   perSecond RATE_LIMIT <= second (rollover (now earlyEnv 1) busy) /\
   waitTimeMs (fst (checkRateLimit (now earlyEnv 1) busy)) = 600).
Proof.
  assert (H1 : perMonth RATE_LIMIT <= month (rollover (now quietEnv 1) exhausted))
    by (vm_compute; discriminate).
  assert (H2 : month (rollover (now earlyEnv 1) busy) < perMonth RATE_LIMIT)
    by (vm_compute; reflexivity).
  assert (H3 : perSecond RATE_LIMIT <= second (rollover (now earlyEnv 1) busy))
    by (vm_compute; discriminate).
  destruct (long_window_cap_is_terminal quietEnv exhausted) as [A _].
  destruct (long_window_cap_is_terminal earlyEnv busy) as [_ [_ B]].
  destruct (A H1) as (_ & _ & C & _ & F & _).
  destruct (B H2 H3) as (W & _).
  split; [split; [exact H1 | split; [exact C | exact F]]|].
  split; [exact H2 | split; [exact H3|]].
  rewrite W. reflexivity.
Defined.

End QuotaExhaustion.

Section RetryBound.
Import BraveSearch LoopView.
Local Open Scope list_scope.

Lemma limiterAlwaysAllows_app (a b : list Event) :
  limiterAlwaysAllows (a ++ b) = limiterAlwaysAllows a && limiterAlwaysAllows b.
Proof. apply forallb_app. Qed.

(** At the head of the loop no more fetches were made than attempts were
    started. *)
Lemma fetches_at_most_maxAttempts (env : Env) (rc : RequestCount) :
  (count isFetch (trace (performBraveSearch env rc))
     <= Z.to_nat (maxAttempts RETRY_CONFIG))%nat.
Proof.
  apply performBraveSearch_rule
    with (I := fun a _ tr => (count isFetch tr <= Z.to_nat a)%nat).
  - cbn. lia.
  - intros a le c tr Ha HI.
    destruct (iteration_view env (a + 1) le c tr)
      as [C W | C W L | P Rt L | P S NR | data P F | reading P F];
      cbn [trace]; rewrite ?count_app;
      change (maxAttempts RETRY_CONFIG) with 3 in *;
      unfold count in *; cbn [filter isFetch List.length]; try split; lia.
Qed.

(** When every attempt fails with a retryable error and the limiter never
    objects, every attempt started makes its fetch. *)
Lemma retryable_run (env : Env) (rc : RequestCount) :
  (forall a, retryable (fetch env a) = true) ->
  limiterAlwaysAllows (trace (performBraveSearch env rc)) = true ->
  count isFetch (trace (performBraveSearch env rc))
    = Z.to_nat (maxAttempts RETRY_CONFIG) /\
  completion (performBraveSearch env rc)
    = Threw (thrownError (fetch env (maxAttempts RETRY_CONFIG))).
Proof.
  intros Hr.
  apply performBraveSearch_rule
    with (I := fun a _ tr =>
                 limiterAlwaysAllows tr = true -> count isFetch tr = Z.to_nat a)
         (R := fun r =>
                 limiterAlwaysAllows (trace r) = true ->
                 count isFetch (trace r) = Z.to_nat (maxAttempts RETRY_CONFIG) /\
                 completion r = Threw (thrownError (fetch env (maxAttempts RETRY_CONFIG)))).
  - reflexivity.
  - intros a le c tr Ha HI.
    assert (NP : canProceed (checkAt env (a + 1) c) = false -> forall evs,
               limiterAlwaysAllows
                 (tr ++ EvCheck (now env (a + 1)) (checkAt env (a + 1) c) :: evs)
               = true -> False).
    { intros C evs. rewrite limiterAlwaysAllows_app.
      unfold limiterAlwaysAllows at 2. cbn [forallb allowedEvent].
      rewrite C, andb_false_r. discriminate. }
    destruct (iteration_view env (a + 1) le c tr)
      as [C W | C W L | P Rt L | P S NR | data P F | reading P F]; cbn [trace completion].
    + intros A. destruct (NP C _ A).
    + split; [lia|]. intros A. destruct (NP C _ A).
    + split; [lia|]. intros A.
      pose proof A as A'. rewrite limiterAlwaysAllows_app in A'.
      apply andb_prop in A'. destruct A' as [A' _].
      rewrite count_app, (HI A').
      unfold count; cbn [filter isFetch List.length]. lia.
    + intros A.
      pose proof A as A'. rewrite limiterAlwaysAllows_app in A'.
      apply andb_prop in A'. destruct A' as [A' _].
      specialize (NR (Hr (a + 1))).
      change (maxAttempts RETRY_CONFIG) with 3 in *.
      assert (a + 1 = 3) as -> by lia.
      rewrite count_app, (HI A').
      unfold count; cbn [filter isFetch List.length].
      split; [lia | reflexivity].
    + specialize (Hr (a + 1)). rewrite F in Hr. discriminate.
    + specialize (Hr (a + 1)). rewrite F in Hr. discriminate.
Qed.

(** C3. In every execution of [performBraveSearch] at most [maxAttempts]
    = 3 fetches are made.  When every attempt fails with a retryable error
    (HTTP 429, or an abort on time-out) and the limiter allows every call,
    exactly 3 fetches are made and then the error of the last attempt is
    thrown: the rate-limit error after a final 429, the abort error after a
    final time-out. *)
Theorem retry_bound (env : Env) (rc : RequestCount) :
  maxAttempts RETRY_CONFIG = 3 /\
  (count isFetch (trace (performBraveSearch env rc)) <= 3)%nat /\
  ((forall a, retryable (fetch env a) = true) ->
   limiterAlwaysAllows (trace (performBraveSearch env rc)) = true ->
     count isFetch (trace (performBraveSearch env rc)) = 3%nat /\
     completion (performBraveSearch env rc) = Threw (thrownError (fetch env 3))).
Proof.
  split; [reflexivity|]. split.
  - apply (fetches_at_most_maxAttempts env rc).
  - intros Hretryable Hallowed.
    apply (retryable_run env rc Hretryable Hallowed).
Qed.

Lemma retry_bound_witness :
  (forall a, retryable (fetch always429 a) = true) /\
  limiterAlwaysAllows (trace (performBraveSearch always429 idle)) = true /\
  count isFetch (trace (performBraveSearch always429 idle)) = 3%nat /\
  completion (performBraveSearch always429 idle) = Threw (RateLimitExhausted 3).
Proof.
  assert (H1 : forall a, retryable (fetch always429 a) = true)
    by (intros a; reflexivity).
  assert (H2 : limiterAlwaysAllows (trace (performBraveSearch always429 idle)) = true)
    by (vm_compute; reflexivity).
  destruct (retry_bound always429 idle) as (_ & _ & R).
  destruct (R H1 H2) as [N C].
  split; [exact H1 | split; [exact H2 | split; [exact N | exact C]]].
Defined.

End RetryBound.

Section LimiterWait.
Import BraveSearch LoopView.
Local Open Scope list_scope.

(** C5 (the code does not do this).  The wait for the per-second window
    takes the place of an attempt: [attempt] is incremented at the head of
    every iteration, also of the one that only sleeps and continues.  When
    the first check finds the per-second window full, at most
    [maxAttempts - 1] = 2 fetches are made in the whole run. *)
Theorem limiter_wait_consumes_attempt (env : Env) (rc : RequestCount)
    (Hfull : canProceed (checkAt env 1 rc) = false)
    (Hsoft : waitTimeMs (checkAt env 1 rc) <> 0) :
  (count isFetch (trace (performBraveSearch env rc)) <= 2)%nat.
Proof.
  apply performBraveSearch_rule
    with (I := fun a c tr =>
                 (a = 0 /\ c = rc /\ tr = []) \/
                 (1 <= a /\ (count isFetch tr + 1 <= Z.to_nat a)%nat)).
  - left. auto.
  - intros a le c tr Ha HI.
    change (maxAttempts RETRY_CONFIG) with 3 in Ha.
    destruct HI as [(-> & -> & ->) | [Ha1 HI]].
    + change (0 + 1) with 1.
      destruct (iteration_view env 1 le rc [])
        as [C W | C W L | P Rt L | P S NR | data P F | reading P F].
      * contradiction.
      * split; [exact L|]. right. split; [lia|]. cbn. lia.
      * exfalso. destruct P as [P | (_ & _ & P)]; [congruence | cbn in P; lia].
      * exfalso. destruct P as [P | (_ & _ & P)]; [congruence | cbn in P; lia].
      * exfalso. destruct P as [P | (_ & _ & P)]; [congruence | cbn in P; lia].
      * exfalso. destruct P as [P | (_ & _ & P)]; [congruence | cbn in P; lia].
    + destruct (iteration_view env (a + 1) le c tr)
        as [C W | C W L | P Rt L | P S NR | data P F | reading P F];
        cbn [trace]; rewrite ?count_app;
        unfold count in *; cbn [filter isFetch List.length];
        try (split; [exact L|]; right; split; [lia|]); lia.
Qed.

(** With a full window at the start and an upstream that keeps answering
    429, two fetches are made, not three, and the error thrown still speaks
    of three attempts; without the wait the same upstream is tried three
    times. *)
Lemma limiter_wait_consumes_attempt_witness :
  trace (performBraveSearch busyUpstream justUsed) =
    [EvCheck 5500 {| canProceed := false; waitTimeMs := 500;
                     reason := Some (PerSecondReached 500) |};
     EvSleep (Some 500);
     EvCheck 7600 {| canProceed := true; waitTimeMs := 0; reason := None |};
     EvFetch 2 (Status429 None);
     EvSleep (Some 2000);
     EvCheck 9700 {| canProceed := true; waitTimeMs := 0; reason := None |};
     EvFetch 3 (Status429 None)] /\
  completion (performBraveSearch busyUpstream justUsed) = Threw (RateLimitExhausted 3) /\
  (count isFetch (trace (performBraveSearch busyUpstream justUsed)) <= 2)%nat /\
  count isFetch (trace (performBraveSearch busyUpstream unused)) = 3%nat.
Proof.
  split; [vm_compute; reflexivity|]. split; [vm_compute; reflexivity|].
  split; [|vm_compute; reflexivity].
  apply (limiter_wait_consumes_attempt busyUpstream justUsed).
  - vm_compute. reflexivity.
  - vm_compute. discriminate.
Defined.

End LimiterWait.

Section JitteredDelays.
Import BraveSearch LoopView.
Local Open Scope list_scope.

















(** The proviso on the clock is needed: when [Date.now()] lies behind
    [lastSecondReset], the wait for the per-second window grows by the
    difference. *)
Example clock_step_back_lengthens_wait :
  sleeps (trace (performBraveSearch always429 afterClockStep))
    = [Some 98000; Some 95000].
Proof. vm_compute. reflexivity. Qed.

End JitteredDelays.

(* ====================================================================== *)
(** * Facts about the result parser *)
(* ====================================================================== *)



Section Parser.
Import ResultProcessor ParserView.
Local Open Scope list_scope.

Lemma title_not_url (line : string) :
  JS.startsWith line "Title: " = true -> JS.startsWith line "URL: " = false.
Proof.
  unfold JS.startsWith. destruct line as [|c line]; [discriminate|].
  cbn [String.prefix].
  destruct (ascii_dec "T" c) as [<-|]; [|discriminate].
  intros _. reflexivity.
Qed.

Lemma title_not_description (line : string) :
  JS.startsWith line "Title: " = true -> JS.startsWith line "Description: " = false.
Proof.
  unfold JS.startsWith. destruct line as [|c line]; [discriminate|].
  cbn [String.prefix].
  destruct (ascii_dec "T" c) as [<-|]; [|discriminate].
  intros _. reflexivity.
Qed.

Lemma description_not_url (line : string) :
  JS.startsWith line "Description: " = true -> JS.startsWith line "URL: " = false.
Proof.
  unfold JS.startsWith. destruct line as [|c line]; [discriminate|].
  cbn [String.prefix].
  destruct (ascii_dec "D" c) as [<-|]; [|discriminate].
  intros _. reflexivity.
Qed.

Lemma parseLine_title (result : SearchResult) (line : string) :
  title (parseLine result line) =
    if JS.startsWith line "Title: " then Some (JS.trim (JS.substring 7 line))
    else title result.
Proof.
  unfold parseLine.
  destruct (JS.startsWith line "Title: "); [reflexivity|].
  destruct (JS.startsWith line "Description: "); [reflexivity|].
  destruct (JS.startsWith line "URL: "); reflexivity.
Qed.

Lemma parseLine_url (result : SearchResult) (line : string) :
  url (parseLine result line) =
    if JS.startsWith line "URL: " then Some (JS.trim (JS.substring 5 line))
    else url result.
Proof.
  unfold parseLine.
  destruct (JS.startsWith line "Title: ") eqn:T.
  { now rewrite (title_not_url line T). }
  destruct (JS.startsWith line "Description: ") eqn:D.
  { now rewrite (description_not_url line D). }
  destruct (JS.startsWith line "URL: "); reflexivity.
Qed.

(** After the loop over the lines a field holds the value of the last
    line that carries its label, if there is one. *)
Lemma fold_parseLine_title (lines : list string) (result : SearchResult) :
  title (fold_left parseLine lines result) =
    match valueOf "Title: " lines with Some v => Some v | None => title result end.
Proof.
  induction lines as [|line lines IH] using rev_ind; [reflexivity|].
  rewrite fold_left_app. cbn [fold_left]. rewrite parseLine_title.
  unfold valueOf in *. rewrite rev_app_distr. cbn [rev app find].
  destruct (JS.startsWith line "Title: "); [reflexivity | exact IH].
Qed.

Lemma fold_parseLine_url (lines : list string) (result : SearchResult) :
  url (fold_left parseLine lines result) =
    match valueOf "URL: " lines with Some v => Some v | None => url result end.
Proof.
  induction lines as [|line lines IH] using rev_ind; [reflexivity|].
  rewrite fold_left_app. cbn [fold_left]. rewrite parseLine_url.
  unfold valueOf in *. rewrite rev_app_distr. cbn [rev app find].
  destruct (JS.startsWith line "URL: "); [reflexivity | exact IH].
Qed.

Lemma valueOf_hasLine (label block v : string) :
  valueOf label (JS.split JS.nl block) = Some v -> hasLine label block = true.
Proof.
  unfold valueOf, hasLine.
  destruct (find _ (rev (JS.split JS.nl block))) as [line|] eqn:F; [|discriminate].
  intros _. apply find_some in F. destruct F as [I S].
  apply existsb_exists. exists line. split; [now apply in_rev | exact S].
Qed.

Lemma present_spec (field : option string) :
  present field = true <-> exists v, field = Some v /\ v <> EmptyString.
Proof.
  destruct field as [[|c v]|]; cbn; split; intros H; try discriminate; auto.
  - destruct H as (v & E & N). inversion E. congruence.
  - eexists. split; [reflexivity | discriminate].
  - destruct H as (v & E & _). discriminate.
Qed.

Lemma emitted_spec (block : string) :
  emitted block = true <->
  exists t u,
    valueOf "Title: " (JS.split JS.nl block) = Some t /\ t <> EmptyString /\
    valueOf "URL: " (JS.split JS.nl block) = Some u /\ u <> EmptyString.
Proof.
  unfold emitted, parseBlock.
  rewrite andb_true_iff, !present_spec, fold_parseLine_title, fold_parseLine_url.
  cbn [title url emptyResult].
  destruct (valueOf "Title: " (JS.split JS.nl block)) as [t|];
    destruct (valueOf "URL: " (JS.split JS.nl block)) as [u|]; split.
  - intros [(t' & Et & Nt) (u' & Eu & Nu)]. exists t, u.
    inversion Et; inversion Eu; subst. auto.
  - intros (t' & u' & Et & Nt & Eu & Nu). split; eexists; split; eauto.
  - intros [_ (u' & Eu & _)]. discriminate.
  - intros (t' & u' & _ & _ & Eu & _). discriminate.
  - intros [(t' & Et & _) _]. discriminate.
  - intros (t' & u' & Et & _). discriminate.
  - intros [(t' & Et & _) _]. discriminate.
  - intros (t' & u' & Et & _). discriminate.
Qed.

(** The outer loop pushes the parse of every block that yields an item,
    in order. *)
Lemma fold_pushBlock (blocks : list string) (results : list SearchResult) :
  fold_left pushBlock blocks results =
    results ++ map parseBlock (filter emitted blocks).
Proof.
  revert results. induction blocks as [|b blocks IH]; intros results.
  - cbn. now rewrite app_nil_r.
  - cbn [fold_left filter]. rewrite IH. unfold pushBlock. fold (emitted b).
    destruct (emitted b); [|reflexivity].
    cbn [map]. now rewrite <- app_assoc.
Qed.

(** C7, as the code has it.  [parseSearchResults] emits, in order, one
    item for each non-blank block in which the last line starting with
    "Title: " and the last line starting with "URL: " both have a
    non-empty value after trimming; every other block is dropped.  So an
    emitted block always has a "Title: " line and a "URL: " line, and the
    text of scenario C parses to exactly the two items A and B. *)
Theorem parse_emits_titled_linked_blocks (rawText : string) :
  parseSearchResults rawText = map parseBlock (filter emitted (resultBlocks rawText)) /\
  (forall block,
      emitted block = true <->
      exists t u,
        valueOf "Title: " (JS.split JS.nl block) = Some t /\ t <> EmptyString /\
        valueOf "URL: " (JS.split JS.nl block) = Some u /\ u <> EmptyString) /\
  (forall block,
      emitted block = true ->
      hasLine "Title: " block = true /\ hasLine "URL: " block = true) /\
  parseSearchResults scenarioC =
    [ {| title := Some "A"; description := None; url := Some "http://x.com" |};
      {| title := Some "B"; description := None; url := Some "http://y.com" |} ].
Proof.
  split; [|split; [|split]].
  - unfold parseSearchResults. now rewrite fold_pushBlock.
  - exact emitted_spec.
  - intros block E. apply emitted_spec in E.
    destruct E as (t & u & Et & _ & Eu & _).
    split; eapply valueOf_hasLine; eassumption.
  - vm_compute. reflexivity.
Qed.

(** C7, as stated, fails: a block with a "Title: " line and a "URL: " line
    yields no item when the title is empty. *)
Lemma empty_title_block_is_dropped :
  resultBlocks emptyTitle = [emptyTitle] /\
  hasLine "Title: " emptyTitle = true /\
  hasLine "URL: " emptyTitle = true /\
  parseSearchResults emptyTitle = [].
Proof. vm_compute. repeat split; reflexivity. Qed.

End Parser.

(* ====================================================================== *)
(** * Facts about the cosine similarity *)
(* ====================================================================== *)



Section CosineSimilarity.
Import Embedding VectorView.
Local Open Scope list_scope.

Lemma nth_isZero (v : Vector) (i : nat) : Forall isZero v -> isZero (nth i v 0%float).
Proof.
  intros H. revert i. induction H as [|x v Hx Hv IH]; intros [|i]; cbn [nth];
    try (left; reflexivity); auto.
Qed.

Lemma square_of_zero (x : float) : isZero x -> (0 + x * x)%float = 0%float.
Proof. intros [-> | ->]; reflexivity. Qed.

(** The sum of squares of a vector of zeros stays [0]. *)
Lemma sums_zero_A (vecA vecB : Vector) (indices : list nat) (d b : float) :
  Forall isZero vecA ->
  snd (fst (fold_left (accumulate vecA vecB) indices (d, 0%float, b))) = 0%float.
Proof.
  intros H. revert d b. induction indices as [|i indices IH]; intros d b; [reflexivity|].
  cbn [fold_left accumulate].
  rewrite (square_of_zero _ (nth_isZero vecA i H)). apply IH.
Qed.

Lemma sums_zero_B (vecA vecB : Vector) (indices : list nat) (d a : float) :
  Forall isZero vecB ->
  snd (fold_left (accumulate vecA vecB) indices (d, a, 0%float)) = 0%float.
Proof.
  intros H. revert d a. induction indices as [|i indices IH]; intros d a; [reflexivity|].
  cbn [fold_left accumulate].
  rewrite (square_of_zero _ (nth_isZero vecB i H)). apply IH.
Qed.

Lemma magnitudeA_of_zeros (vecA vecB : Vector) :
  Forall isZero vecA -> magnitudeA vecA vecB = 0%float.
Proof.
  intros H. unfold magnitudeA, magnitudes, sums.
  pose proof (sums_zero_A vecA vecB (seq 0 (List.length vecA)) 0 0 H) as E.
  destruct (fold_left _ _ _) as [[d a] b]. cbn [fst snd] in *. now rewrite E.
Qed.

Lemma magnitudeB_of_zeros (vecA vecB : Vector) :
  Forall isZero vecB -> magnitudeB vecA vecB = 0%float.
Proof.
  intros H. unfold magnitudeB, magnitudes, sums.
  pose proof (sums_zero_B vecA vecB (seq 0 (List.length vecA)) 0 0 H) as E.
  destruct (fold_left _ _ _) as [[d a] b]. cbn [fst snd] in *. now rewrite E.
Qed.

Lemma cosineSimilarity_equal_length (vecA vecB : Vector) :
  List.length vecA = List.length vecB ->
  cosineSimilarity vecA vecB =
    if PrimFloat.eqb (magnitudeA vecA vecB) 0 || PrimFloat.eqb (magnitudeB vecA vecB) 0
    then Value 0%float
    else Value (fst (fst (sums vecA vecB))
                / (magnitudeA vecA vecB * magnitudeB vecA vecB))%float.
Proof.
  intros L. unfold cosineSimilarity, magnitudeA, magnitudeB.
  rewrite L, Nat.eqb_refl. cbn [negb].
  unfold magnitudes. destruct (sums vecA vecB) as [[d a] b]. reflexivity.
Qed.

(** C10. [cosineSimilarity] throws the dimension-mismatch error exactly
    when the lengths differ; on vectors of equal length it returns a
    number, and that number is 0 whenever the magnitude it computes for
    either vector is zero — in particular whenever either vector has only
    zero components. *)
Theorem cosineSimilarity_defined_on_equal_dimensions (vecA vecB : Vector) :
  (List.length vecA <> List.length vecB ->
     cosineSimilarity vecA vecB
       = DimensionMismatch (List.length vecA) (List.length vecB)) /\
  (List.length vecA = List.length vecB ->
     (exists x, cosineSimilarity vecA vecB = Value x) /\
     (PrimFloat.eqb (magnitudeA vecA vecB) 0 = true \/
      PrimFloat.eqb (magnitudeB vecA vecB) 0 = true ->
        cosineSimilarity vecA vecB = Value 0%float) /\
     (Forall isZero vecA \/ Forall isZero vecB ->
        cosineSimilarity vecA vecB = Value 0%float)).
Proof.
  split.
  - intros N. unfold cosineSimilarity.
    apply Nat.eqb_neq in N. now rewrite N.
  - intros L. rewrite (cosineSimilarity_equal_length vecA vecB L).
    split; [|split].
    + destruct (_ || _); eexists; reflexivity.
    + intros [E | E]; rewrite E; [reflexivity | now rewrite orb_true_r].
    + intros [Z | Z].
      * now rewrite (magnitudeA_of_zeros vecA vecB Z).
      * rewrite (magnitudeB_of_zeros vecA vecB Z). now rewrite orb_true_r.
Qed.

Lemma cosineSimilarity_defined_on_equal_dimensions_witness :
  cosineSimilarity [1%float; 2%float] [3%float] = DimensionMismatch 2 1 /\
  cosineSimilarity [0%float; (-0)%float] [3%float; 4%float] = Value 0%float /\
  cosineSimilarity [3%float; 4%float] [3%float; 4%float] = Value 1%float.
Proof.
  destruct (cosineSimilarity_defined_on_equal_dimensions
              [1%float; 2%float] [3%float]) as [D _].
  destruct (cosineSimilarity_defined_on_equal_dimensions
              [0%float; (-0)%float] [3%float; 4%float]) as [_ Z].
  split; [|split].
  - apply D. cbn. discriminate.
  - destruct (Z eq_refl) as (_ & _ & Z3). apply Z3. left.
    constructor; [left; reflexivity|].
    constructor; [right; reflexivity | constructor].
  - vm_compute. reflexivity.
Defined.

End CosineSimilarity.

(* ====================================================================== *)
(** * Facts about the semantic cache *)
(* ====================================================================== *)



Section Cache.
Import SemanticCache CacheView.
Local Open Scope list_scope.

Lemma insertByTimestamp_In (x e : CacheEntry.t) (l : list CacheEntry.t) :
  In x (insertByTimestamp e l) <-> x = e \/ In x l.
Proof.
  induction l as [|y l IH]; cbn [insertByTimestamp].
  - cbn. intuition.
  - destruct (CacheEntry.timestamp y <=? CacheEntry.timestamp e); cbn [In].
    + intuition.
    + rewrite IH. intuition.
Qed.

Lemma orderByTimestampDesc_In (x : CacheEntry.t) (l : list CacheEntry.t) :
  In x (orderByTimestampDesc l) <-> In x l.
Proof.
  induction l as [|y l IH]; cbn [orderByTimestampDesc fold_right]; [reflexivity|].
  fold (orderByTimestampDesc l). rewrite insertByTimestamp_In, IH. cbn. intuition.
Qed.

Lemma firstn_In (A : Type) (n : nat) (l : list A) (x : A) :
  In x (firstn n l) -> In x l.
Proof.
  intros H. rewrite <- (firstn_skipn n l). apply in_or_app. now left.
Qed.

(** The SELECT only yields rows of the table with the requested type. *)
Lemma selectByType_In (searchType : string) (d : Database) (e : CacheEntry.t) :
  In e (selectByType searchType d) ->
  In e (rows d) /\ CacheEntry.search_type e = searchType.
Proof.
  unfold selectByType. intros H. apply firstn_In in H.
  apply (proj1 (orderByTimestampDesc_In _ _)) in H. apply filter_In in H.
  destruct H as [I T]. split; [exact I | now apply String.eqb_eq].
Qed.

(** A match found by the scan was there before or comes from a scanned
    entry whose similarity reaches the threshold. *)
Lemma scan_hit (queryEmbedding : Embedding.Vector) (entries : list CacheEntry.t)
    (bestMatch : option CacheHit.t) (bestSimilarity : float) (hit : CacheHit.t) :
  scan queryEmbedding entries bestMatch bestSimilarity = Some (Some hit) ->
  bestMatch = Some hit \/
  exists entry,
    In entry entries /\ hit = hitOf entry (CacheHit.similarity hit) /\
    PrimFloat.leb similarityThreshold (CacheHit.similarity hit) = true.
Proof.
  revert bestMatch bestSimilarity.
  induction entries as [|e entries IH]; intros bestMatch bestSimilarity; cbn [scan].
  - intros H. left. congruence.
  - destruct (Embedding.cosineSimilarity queryEmbedding (CacheEntry.query_embedding e))
      as [s | a b]; [|discriminate].
    destruct (PrimFloat.ltb bestSimilarity s && PrimFloat.leb similarityThreshold s)
      eqn:B; intros H; apply IH in H; destruct H as [H | (entry & I & E & T)].
    + right. exists e. inversion H; subst. cbn [CacheHit.similarity hitOf].
      apply andb_prop in B. split; [now left | split; [reflexivity | apply B]].
    + right. exists entry. split; [now right | auto].
    + now left.
    + right. exists entry. split; [now right | auto].
Qed.

Lemma cleanupExpired_spec (env : Env) (now : Z) (d : Database) :
  exists d' log,
    cleanupExpired env now (Some d) = (Some d', log) /\
    (forall e, In e (rows d') -> In e (rows d)) /\
    (deleteFails env = false ->
       rows d' = filter (fun e => negb (expired now e)) (rows d)) /\
    (deleteFails env = true -> d' = d).
Proof.
  unfold cleanupExpired. destruct (deleteFails env).
  - exists d. eexists. repeat split; auto. discriminate.
  - eexists. eexists. split; [reflexivity|]. cbn [rows]. repeat split; auto.
    + intros e H. now apply filter_In in H.
    + discriminate.
Qed.

(** Where a hit of [findSimilar] comes from. *)
Lemma findSimilar_hit (env : Env) (now : Z) (query searchType : string)
    (db db' : option Database) (hit : CacheHit.t) (log : Log) :
  findSimilar env now query searchType db = (Resolved (Some hit), db', log) ->
  exists d d' log' entry,
    opened env db = Some d /\
    cleanupExpired env now (Some d) = (Some d', log') /\
    db' = Some d' /\
    In entry (selectByType searchType d') /\
    hit = hitOf entry (CacheHit.similarity hit) /\
    PrimFloat.leb similarityThreshold (CacheHit.similarity hit) = true.
Proof.
  unfold findSimilar, opened.
  assert (K : forall d log0,
    (match embed env query with
     | None => (Resolved None, Some d,
                log0 ++ [(error, "[Cache] Error finding similar query")])
     | Some queryEmbedding =>
         let '(db0, log1) := cleanupExpired env now (Some d) in
         match db0 with
         | None => (Resolved None, db0,
                    log0 ++ log1 ++ [(error, "[Cache] Error finding similar query")])
         | Some d0 =>
             if selectFails env
             then (Resolved None, db0,
                   log0 ++ log1 ++ [(error, "[Cache] Error finding similar query")])
             else
               match scan queryEmbedding (selectByType searchType d0) None 0 with
               | None => (Resolved None, db0,
                          log0 ++ log1 ++ [(error, "[Cache] Error finding similar query")])
               | Some bestMatch =>
                   (Resolved bestMatch, db0, log0 ++ log1 ++ logHit bestMatch)
               end
         end
     end) = (Resolved (Some hit), db', log) ->
    exists d' log' entry,
      cleanupExpired env now (Some d) = (Some d', log') /\
      db' = Some d' /\
      In entry (selectByType searchType d') /\
      hit = hitOf entry (CacheHit.similarity hit) /\
      PrimFloat.leb similarityThreshold (CacheHit.similarity hit) = true).
  { intros d log0.
    destruct (embed env query) as [qe|]; [|discriminate].
    destruct (cleanupExpired_spec env now d) as (d' & log' & -> & _).
    destruct (selectFails env); [discriminate|].
    destruct (scan qe (selectByType searchType d') None 0) as [best|] eqn:S;
      [|discriminate].
    intros H. inversion H; subst.
    apply scan_hit in S. destruct S as [S | (entry & I & E & T)]; [discriminate|].
    exists d', log', entry. auto. }
  destruct db as [d|].
  - intros H. apply K in H. destruct H as (d' & log' & entry & H).
    exists d, d', log', entry. split; [reflexivity | exact H].
  - unfold initialize. destruct (openDatabase env) as [d | e | d e]; try discriminate.
    intros H. apply K in H. destruct H as (d' & log' & entry & H).
    exists d, d', log', entry. split; [reflexivity | exact H].
Qed.

(** C4, as the code has it.  When the purge succeeds, every entry returned
    by [findSimilar] satisfies [now <= timestamp + ttl] at lookup time, and
    so does every row left in the table: an entry whose live window has
    strictly passed is deleted and never returned.  (An entry at the very
    end of its window, [now = timestamp + ttl], is kept.) *)
Theorem findSimilar_returns_unexpired (env : Env) (now : Z)
    (query searchType : string) (db db' : option Database)
    (hit : CacheHit.t) (log : Log)
    (Hpurge : deleteFails env = false)
    (Hhit : findSimilar env now query searchType db = (Resolved (Some hit), db', log)) :
  exists d' entry,
    db' = Some d' /\
    In entry (rows d') /\
    hit = hitOf entry (CacheHit.similarity hit) /\
    unexpired now entry /\
    Forall (unexpired now) (rows d').
Proof.
  apply findSimilar_hit in Hhit.
  destruct Hhit as (d & d' & log' & entry & O & C & -> & I & E & T).
  destruct (cleanupExpired_spec env now d) as (d1 & log1 & C1 & _ & F & _).
  rewrite C in C1. inversion C1; subst d1 log1. specialize (F Hpurge).
  assert (U : Forall (unexpired now) (rows d')).
  { rewrite F. apply Forall_forall. intros e H. apply filter_In in H.
    destruct H as [_ H]. unfold expired, unexpired in *.
    apply negb_true_iff, Z.ltb_ge in H. exact H. }
  apply selectByType_In in I. destruct I as [I _].
  exists d', entry. repeat split; auto.
  rewrite Forall_forall in U. now apply U.
Qed.

(** A result stored for an hour at 1000 ms and looked up at 2000 ms. *)
Lemma findSimilar_returns_unexpired_witness :
  exists d' entry,
    databaseAfter (findSimilar unitModel 2000 "q" "web"
                     (databaseAfter (store unitModel 1000 "q" "web" "R" 3600
                                       (Some emptyDatabase)))) = Some d' /\
    In entry (rows d') /\
    unexpired 2000 entry.
Proof.
  destruct (findSimilar_returns_unexpired unitModel 2000 "q" "web"
              (databaseAfter (store unitModel 1000 "q" "web" "R" 3600
                                (Some emptyDatabase)))
              (Some {| rows := [ {| CacheEntry.id := 1; CacheEntry.query := "q";
                                    CacheEntry.query_embedding := [1%float];
                                    CacheEntry.results := "R";
                                    CacheEntry.search_type := "web";
                                    CacheEntry.timestamp := 1000;
                                    CacheEntry.ttl := 3600000 |} ];
                       nextId := 2 |})
              {| CacheHit.results := "R"; CacheHit.timestamp := 1000;
                 CacheHit.query := "q"; CacheHit.similarity := 1%float |}
              [(info, "[Cache] HIT")])
    as (d' & entry & E & I & _ & U & _).
  - reflexivity.
  - vm_compute. reflexivity.
  - exists d', entry. split; [exact E | split; assumption].
Defined.

(** C4, as stated, fails: an entry stored with a TTL of zero is not live at
    the timestamp of the store, and a lookup at that timestamp returns
    it. *)
Lemma zero_ttl_entry_is_returned :
  databaseAfter (store unitModel 1000 "q" "web" "R" 0 (Some emptyDatabase))
    = Some {| rows := [zeroTtlEntry]; nextId := 2 |} /\
  ~ live 1000 zeroTtlEntry /\
  settledAs (findSimilar unitModel 1000 "q" "web"
               (databaseAfter (store unitModel 1000 "q" "web" "R" 0
                                 (Some emptyDatabase))))
    = Resolved (Some (hitOf zeroTtlEntry 1%float)).
Proof.
  split; [vm_compute; reflexivity|]. split; [|vm_compute; reflexivity].
  unfold live. cbn. lia.
Qed.

(** The proviso on the purge is needed: when the DELETE throws, the error is
    caught and logged by [cleanupExpired], and the SELECT, which has no
    condition on the TTL, still yields the expired row. *)
Example failed_purge_returns_expired_entry :
  settledAs (findSimilar readOnly 5000 "q" "web"
               (Some {| rows := [zeroTtlEntry]; nextId := 2 |}))
    = Resolved (Some (hitOf zeroTtlEntry 1%float)).
Proof. vm_compute. reflexivity. Qed.

Lemma filter_swap (A : Type) (f g : A -> bool) (l : list A) :
  filter f (filter g l) = filter g (filter f l).
Proof.
  induction l as [|x l IH]; [reflexivity|]. cbn [filter].
  destruct (f x) eqn:F, (g x) eqn:G; cbn [filter]; rewrite ?F, ?G, IH; reflexivity.
Qed.

(** What [findSimilar] answers depends on the rows of the requested type
    only. *)
Lemma findSimilar_scoped (env : Env) (now : Z) (query searchType : string)
    (d1 d2 : Database) :
  filter (ofType searchType) (rows d1) = filter (ofType searchType) (rows d2) ->
  settledAs (findSimilar env now query searchType (Some d1))
    = settledAs (findSimilar env now query searchType (Some d2)).
Proof.
  intros H. unfold findSimilar, settledAs.
  destruct (embed env query) as [qe|]; [|reflexivity].
  unfold cleanupExpired.
  destruct (deleteFails env); destruct (selectFails env); try reflexivity;
    unfold selectByType; cbn [rows]; fold (ofType searchType);
    rewrite ?(filter_swap _ (ofType searchType)), H;
    destruct (scan qe _ None 0); reflexivity.
Qed.

(** [store] on an open database leaves the rows of every other type as
    they were. *)
Lemma store_other_type (env : Env) (now : Z)
    (query searchType' results : string) (ttlSeconds : Z) (d : Database)
    (searchType : string) :
  searchType' <> searchType ->
  exists d2,
    databaseAfter (store env now query searchType' results ttlSeconds (Some d)) = Some d2 /\
    filter (ofType searchType) (rows d2) = filter (ofType searchType) (rows d).
Proof.
  intros N. unfold store, databaseAfter.
  destruct (embed env query) as [qe|]; [|exists d; split; reflexivity].
  destruct (insertFails env); [exists d; split; reflexivity|].
  eexists. split; [reflexivity|]. cbn [rows snd fst].
  rewrite filter_app. cbn [filter]. unfold ofType at 2. cbn [CacheEntry.search_type].
  apply String.eqb_neq in N. rewrite N. apply app_nil_r.
Qed.

(** On an open database [findSimilar] always resolves. *)
Lemma findSimilar_resolves_when_open (env : Env) (now : Z)
    (query searchType : string) (d : Database) :
  exists answer, settledAs (findSimilar env now query searchType (Some d)) = Resolved answer.
Proof.
  unfold findSimilar, settledAs.
  destruct (embed env query) as [qe|]; [|eexists; reflexivity].
  destruct (cleanupExpired_spec env now d) as (d' & log' & -> & _).
  destruct (selectFails env); [eexists; reflexivity|].
  destruct (scan qe _ None 0); eexists; reflexivity.
Qed.

Lemma findSimilar_hit_of_type (env : Env) (now : Z) (query searchType : string)
    (db db' : option Database) (hit : CacheHit.t) (log : Log) :
  findSimilar env now query searchType db = (Resolved (Some hit), db', log) ->
  exists d d' entry,
    opened env db = Some d /\ db' = Some d' /\
    In entry (rows d) /\ In entry (rows d') /\
    CacheEntry.search_type entry = searchType /\
    hit = hitOf entry (CacheHit.similarity hit).
Proof.
  intros H. apply findSimilar_hit in H.
  destruct H as (d & d' & log' & entry & O & C & -> & I & E & T).
  destruct (cleanupExpired_spec env now d) as (d1 & log1 & C1 & Sub & _).
  rewrite C in C1. inversion C1; subst d1 log1.
  apply selectByType_In in I. destruct I as [I Ty].
  exists d, d', entry. repeat split; auto.
Qed.

(** C6. Search-type partitions are isolated.  Storing an entry under one
    search type does not change what [findSimilar] answers for any other
    search type, whatever the embeddings; every hit of
    [findSimilar(query, searchType)] is built from a row of the table
    whose [search_type] is [searchType]; and on a table that holds only
    rows of other types the answer is [null]. *)
Theorem search_type_partitions_isolated (env env' : Env) (now now' : Z)
    (query query' results' searchType searchType' : string)
    (ttlSeconds : Z) (d : Database)
    (Hdistinct : searchType' <> searchType) :
  settledAs (findSimilar env now query searchType
               (databaseAfter (store env' now' query' searchType' results'
                                 ttlSeconds (Some d))))
    = settledAs (findSimilar env now query searchType (Some d)) /\
  (forall db hit db' log,
      findSimilar env now query searchType db = (Resolved (Some hit), db', log) ->
      exists d0 entry,
        opened env db = Some d0 /\ In entry (rows d0) /\
        CacheEntry.search_type entry = searchType /\
        hit = hitOf entry (CacheHit.similarity hit)) /\
  ((forall e, In e (rows d) -> CacheEntry.search_type e = searchType') ->
     settledAs (findSimilar env now query searchType (Some d)) = Resolved None).
Proof.
  split; [|split].
  - destruct (store_other_type env' now' query' searchType' results' ttlSeconds d
                searchType Hdistinct) as (d2 & -> & F).
    now apply findSimilar_scoped.
  - intros db hit db' log H. apply findSimilar_hit_of_type in H.
    destruct H as (d0 & d' & entry & O & _ & I & _ & Ty & E).
    exists d0, entry. auto.
  - intros Other.
    destruct (findSimilar_resolves_when_open env now query searchType d)
      as ([hit|] & R); [|exact R].
    exfalso. unfold settledAs in R.
    destruct (findSimilar env now query searchType (Some d)) as [[p db'] log] eqn:F.
    cbn [fst] in R. subst p. apply findSimilar_hit_of_type in F.
    destruct F as (d0 & d' & entry & O & _ & I & _ & Ty & _).
    cbn [opened] in O. inversion O; subst d0.
    apply Other in I. congruence.
Qed.

(** An entry stored under "web" is no hit for a lookup under "code", although
    the query and so the embedding are the same. *)
Lemma search_type_partitions_isolated_witness :
  "web" <> "code" /\
  settledAs (findSimilar unitModel 2000 "q" "code"
               (databaseAfter (store unitModel 1000 "q" "web" "R" 3600
                                 (Some emptyDatabase))))
    = Resolved None /\
  settledAs (findSimilar unitModel 2000 "q" "web"
               (databaseAfter (store unitModel 1000 "q" "web" "R" 3600
                                 (Some emptyDatabase))))
    = Resolved (Some {| CacheHit.results := "R"; CacheHit.timestamp := 1000;
                        CacheHit.query := "q"; CacheHit.similarity := 1%float |}).
Proof.
  assert (N : "web" <> "code") by discriminate.
  split; [exact N|]. split; [|vm_compute; reflexivity].
  destruct (search_type_partitions_isolated unitModel unitModel 2000 1000
              "q" "q" "R" "code" "web" 3600 emptyDatabase N) as (S & _ & _).
  rewrite S. vm_compute. reflexivity.
Defined.

(** Once the database is open, [store] resolves whatever fails inside:
    the embedding or the INSERT. *)
Lemma store_resolves_when_open (env : Env) (now : Z)
    (query searchType results : string) (ttlSeconds : Z) (d : Database) :
  settledAs (store env now query searchType results ttlSeconds (Some d)) = Resolved tt.
Proof.
  unfold store, settledAs.
  destruct (embed env query); [|reflexivity].
  destruct (insertFails env); reflexivity.
Qed.

(** C8 (the code does not do this).  [store] calls [initialize] before its
    [try] block, and [initialize] re-throws.  On an open database [store]
    resolves whatever fails inside; on a service whose database is not
    open yet it settles as [initialize] does, so it rejects with the error
    of [initialize] whenever the database cannot be opened or set up — as
    on the file that cannot be opened. *)
Theorem store_propagates_initialization_failure (env : Env) (now : Z)
    (query searchType results : string) (ttlSeconds : Z) :
  (forall d,
      settledAs (store env now query searchType results ttlSeconds (Some d))
        = Resolved tt) /\
  settledAs (store env now query searchType results ttlSeconds None)
    = match openDatabase env with
      | Opened _ => Resolved tt
      | OpenFails e => Rejected e
      | SetupFails _ e => Rejected e
      end /\
  store unopenable 1000 "q" "web" "R" 3600 None =
    (Rejected "unable to open database file", None,
     [(error, "[Cache] Failed to initialize")]).
Proof.
  split; [|split].
  - intros d. apply store_resolves_when_open.
  - unfold store, settledAs, initialize.
    destruct (openDatabase env) as [d | e | d e]; try reflexivity.
    destruct (embed env query); [|reflexivity].
    destruct (insertFails env); reflexivity.
  - reflexivity.
Qed.

End Cache.

(* ====================================================================== *)
(** * Facts about deduplication and rendering *)
(* ====================================================================== *)

Section Deduplication.
Import ResultProcessor Rendering RenderingView.
Local Open Scope list_scope.

Variable hostname : string -> option string.

Lemma get_set_same (counts : DomainCounts) (d : string) (n : Z) :
  get (set counts d n) d = Some n.
Proof.
  induction counts as [|[k v] counts IH]; cbn [set get].
  - now rewrite String.eqb_refl.
  - destruct (String.eqb k d) eqn:E; cbn [get]; rewrite E; auto.
Qed.

Lemma get_set_other (counts : DomainCounts) (d d' : string) (n : Z) :
  d <> d' -> get (set counts d n) d' = get counts d'.
Proof.
  intros N. induction counts as [|[k v] counts IH]; cbn [set get].
  - apply String.eqb_neq in N. now rewrite N.
  - destruct (String.eqb k d) eqn:E; cbn [get].
    + apply String.eqb_eq in E. subst k.
      apply String.eqb_neq in N. now rewrite N.
    + now rewrite IH.
Qed.

Lemma occurrences_snoc (d : string) (seen : list SearchResult) (r : SearchResult) :
  occurrences hostname d (seen ++ [r]) =
    occurrences hostname d seen + (if inDomain hostname d r then 1 else 0).
Proof.
  unfold occurrences. rewrite filter_app, length_app. cbn [filter].
  destruct (inDomain hostname d r); cbn [List.length]; lia.
Qed.

Lemma occurrences_nonneg (d : string) (seen : list SearchResult) :
  0 <= occurrences hostname d seen.
Proof. unfold occurrences. lia. Qed.

Lemma lessThan_tracked (maxPerDomain : option Z) (n : Z) :
  0 <= n ->
  lessThan (Z.min n (capOf maxPerDomain)) maxPerDomain = lessThan n maxPerDomain.
Proof.
  intros Hn. destruct maxPerDomain as [m|]; [|reflexivity]. cbn [lessThan capOf].
  destruct (n <? m) eqn:E.
  - apply Z.ltb_lt in E. apply Z.ltb_lt. lia.
  - apply Z.ltb_ge in E. apply Z.ltb_ge. lia.
Qed.

Lemma dedup_loop (maxPerDomain : option Z) (results seen : list SearchResult)
    (counts : DomainCounts) (kept : list SearchResult) :
  countsTrack hostname maxPerDomain counts seen ->
  snd (fold_left (dedupStep hostname maxPerDomain) results (counts, kept)) =
    kept ++ firstPerDomain hostname maxPerDomain seen results.
Proof.
  revert seen counts kept.
  induction results as [|r results IH]; intros seen counts kept T.
  - cbn. now rewrite app_nil_r.
  - cbn [fold_left firstPerDomain]. unfold dedupStep at 2, wanted.
    destruct (domainOf hostname r) as [d|] eqn:D.
    + rewrite (T d), lessThan_tracked by apply occurrences_nonneg.
      destruct (lessThan (occurrences hostname d seen) maxPerDomain) eqn:L.
      * rewrite (IH (seen ++ [r])); [now rewrite <- app_assoc|].
        intros d'. rewrite occurrences_snoc. unfold inDomain. rewrite D.
        unfold getOrZero.
        destruct (String.eqb d d') eqn:E.
        -- apply String.eqb_eq in E. subst d'. rewrite get_set_same.
           destruct maxPerDomain as [m|]; [|discriminate].
           cbn [lessThan capOf] in *. apply Z.ltb_lt in L.
           pose proof (occurrences_nonneg d seen). lia.
        -- apply String.eqb_neq in E. rewrite get_set_other by exact E.
           fold (getOrZero counts d'). rewrite (T d'). lia.
      * rewrite (IH (seen ++ [r])); [reflexivity|].
        intros d'. rewrite occurrences_snoc, (T d'). unfold inDomain. rewrite D.
        destruct (String.eqb d d') eqn:E; [|f_equal; lia].
        apply String.eqb_eq in E. subst d'.
        pose proof (occurrences_nonneg d seen).
        destruct maxPerDomain as [m|]; cbn [lessThan capOf] in *;
          [apply Z.ltb_ge in L|]; lia.
    + rewrite (IH (seen ++ [r])); [reflexivity|].
      intros d'. rewrite occurrences_snoc, (T d'). unfold inDomain. rewrite D.
      f_equal. lia.
Qed.

Lemma deduplicateResults_enabled (maxPerDomain : option Z)
    (results : list SearchResult) :
  deduplicateResults hostname true maxPerDomain results
    = firstPerDomain hostname maxPerDomain [] results.
Proof.
  unfold deduplicateResults. change (negb true) with false. cbv iota.
  apply (dedup_loop maxPerDomain results [] [] []).
  intros d. cbn. destruct maxPerDomain; cbn; lia.
Qed.

(** X1. With deduplication on, [deduplicateResults] keeps a result exactly
    when its URL parses and fewer than [maxPerDomain] results with the same
    key come before it in the input, kept or not; the key of a result is
    [domainOf]: the hostname of its URL with the first [www.] taken out,
    wherever in the hostname it stands.  With the flag off the input is
    returned. *)
Theorem deduplicateResults_keeps_first_per_domain (maxPerDomain : option Z)
    (results : list SearchResult) :
  deduplicateResults hostname true maxPerDomain results
    = firstPerDomain hostname maxPerDomain [] results /\
  deduplicateResults hostname false maxPerDomain results = results.
Proof.
  split; [apply deduplicateResults_enabled | reflexivity].
Qed.

Lemma firstPerDomain_cap (maxPerDomain : option Z) (d : string)
    (results seen : list SearchResult) :
  occurrences hostname d (firstPerDomain hostname maxPerDomain seen results)
    <= Z.max 0 (capOf maxPerDomain - occurrences hostname d seen).
Proof.
  revert seen. induction results as [|r results IH]; intros seen.
  - cbn. lia.
  - cbn [firstPerDomain]. specialize (IH (seen ++ [r])).
    rewrite occurrences_snoc in IH.
    unfold occurrences at 1. rewrite filter_app, length_app, Nat2Z.inj_add.
    fold (occurrences hostname d (firstPerDomain hostname maxPerDomain (seen ++ [r]) results)).
    pose proof (occurrences_nonneg d seen) as P.
    unfold wanted. destruct (domainOf hostname r) as [d0|] eqn:D.
    + destruct (lessThan (occurrences hostname d0 seen) maxPerDomain) eqn:L.
      * cbn [filter]. unfold inDomain in *. rewrite D in *.
        destruct (String.eqb d0 d) eqn:E; cbn [List.length]; [|lia].
        apply String.eqb_eq in E. subst d0.
        destruct maxPerDomain as [m|]; [|discriminate].
        cbn [lessThan capOf] in *. apply Z.ltb_lt in L. lia.
      * cbn [filter List.length]. destruct (inDomain hostname d r); lia.
    + cbn [filter List.length]. destruct (inDomain hostname d r); lia.
Qed.

(** X2. Deduplication never keeps more than [maxPerDomain] results of one
    domain (none when [maxPerDomain] is negative or not a number). *)
Theorem deduplicateResults_caps_every_domain (maxPerDomain : option Z)
    (results : list SearchResult) (domain : string) :
  occurrences hostname domain (deduplicateResults hostname true maxPerDomain results)
    <= capOf maxPerDomain.
Proof.
  rewrite (deduplicateResults_enabled maxPerDomain results).
  pose proof (firstPerDomain_cap maxPerDomain domain results []) as H.
  change (occurrences hostname domain []) with 0 in H.
  destruct maxPerDomain; cbn [capOf] in *; lia.
Qed.

Lemma firstPerDomain_subsequence (maxPerDomain : option Z)
    (results seen : list SearchResult) :
  Subsequence (firstPerDomain hostname maxPerDomain seen results) results /\
  Forall (fun r => domainOf hostname r <> None)
         (firstPerDomain hostname maxPerDomain seen results).
Proof.
  revert seen. induction results as [|r results IH]; intros seen.
  - split; constructor.
  - cbn [firstPerDomain]. destruct (IH (seen ++ [r])) as [S F].
    destruct (wanted hostname maxPerDomain seen r) eqn:W; cbn [app].
    + split; [now constructor|]. constructor; [|exact F].
      unfold wanted in W. destruct (domainOf hostname r); [discriminate|discriminate].
    + split; [now constructor | exact F].
Qed.

(** X3. The deduplicated list is the input with elements left out: nothing
    is added, changed or reordered, and every kept result has a URL that
    parses. *)
Theorem deduplicateResults_is_subsequence (enabled : bool) (maxPerDomain : option Z)
    (results : list SearchResult) :
  Subsequence (deduplicateResults hostname enabled maxPerDomain results) results /\
  (enabled = true ->
   Forall (fun r => domainOf hostname r <> None)
          (deduplicateResults hostname enabled maxPerDomain results)).
Proof.
  destruct enabled.
  - rewrite (deduplicateResults_enabled maxPerDomain results).
    destruct (firstPerDomain_subsequence maxPerDomain results []) as [S F].
    split; [exact S | intros _; exact F].
  - split; [|discriminate]. cbn.
    induction results; constructor; assumption.
Qed.

Lemma lessThan_mono (a b : Z) (maxPerDomain : option Z) :
  a <= b -> lessThan b maxPerDomain = true -> lessThan a maxPerDomain = true.
Proof.
  destruct maxPerDomain as [m|]; cbn [lessThan]; [|discriminate].
  intros H L. apply Z.ltb_lt in L. apply Z.ltb_lt. lia.
Qed.

Lemma firstPerDomain_again (maxPerDomain : option Z)
    (results seen seen' : list SearchResult) :
  (forall d, occurrences hostname d seen' <= occurrences hostname d seen) ->
  firstPerDomain hostname maxPerDomain seen'
    (firstPerDomain hostname maxPerDomain seen results)
  = firstPerDomain hostname maxPerDomain seen results.
Proof.
  revert seen seen'. induction results as [|r results IH]; intros seen seen' Le;
    [reflexivity|].
  cbn [firstPerDomain].
  destruct (wanted hostname maxPerDomain seen r) eqn:W; cbn [app].
  - cbn [firstPerDomain].
    assert (W' : wanted hostname maxPerDomain seen' r = true).
    { unfold wanted in *. destruct (domainOf hostname r) as [d|]; [|discriminate].
      eapply lessThan_mono; [apply Le | exact W]. }
    rewrite W'. cbn [app]. f_equal. apply IH.
    intros d. rewrite !occurrences_snoc. specialize (Le d). lia.
  - apply IH. intros d. rewrite occurrences_snoc. specialize (Le d).
    destruct (inDomain hostname d r); lia.
Qed.

(** X4. Deduplicating twice changes nothing more. *)
Theorem deduplicateResults_idempotent (enabled : bool) (maxPerDomain : option Z)
    (results : list SearchResult) :
  deduplicateResults hostname enabled maxPerDomain
    (deduplicateResults hostname enabled maxPerDomain results)
  = deduplicateResults hostname enabled maxPerDomain results.
Proof.
  destruct enabled; [|reflexivity].
  rewrite (deduplicateResults_enabled maxPerDomain results).
  rewrite (deduplicateResults_enabled maxPerDomain
             (firstPerDomain hostname maxPerDomain [] results)).
  apply firstPerDomain_again. intros d. lia.
Qed.

End Deduplication.

Section DeduplicationExamples.
Import ResultProcessor Rendering RenderingView.
Local Open Scope list_scope.

(** Five results of one domain with [maxPerDomain = 2]: the first two are
    kept, with and without [www.]; the result without a URL is dropped. *)
Example deduplicate_seven :
  deduplicateResults toyHostname true (Some 2) sevenResults =
    [ item "a1" "https://www.a.com/1"; item "a2" "https://a.com/2";
      item "b1" "https://b.org/1" ].
Proof. vm_compute. reflexivity. Qed.

(** [awww.b.com] and [ab.com] share the key [ab.com]: with
    [maxPerDomain = 2] the second result of [ab.com] is dropped. *)
Example www_is_taken_out_wherever_it_stands :
  map (domainOf toyHostname) wwwInside = [Some "ab.com"; Some "ab.com"; Some "ab.com"] /\
  deduplicateResults toyHostname true (Some 2) wwwInside =
    [ item "w" "https://awww.b.com/"; item "p" "https://ab.com/1" ].
Proof. vm_compute. split; reflexivity. Qed.

End DeduplicationExamples.

(* ====================================================================== *)
(** * Further facts about the semantic cache *)
(* ====================================================================== *)

Section CacheRoundTrip.
Import SemanticCache CacheView CacheAdmin MoreViews.
Local Open Scope list_scope.

Lemma orderByTimestampDesc_length (l : list CacheEntry.t) :
  List.length (orderByTimestampDesc l) = List.length l.
Proof.
  induction l as [|x l IH]; [reflexivity|].
  cbn [orderByTimestampDesc fold_right]. fold (orderByTimestampDesc l).
  assert (H : forall e m, List.length (insertByTimestamp e m) = S (List.length m)).
  { intros e m. induction m as [|y m IHm]; [reflexivity|]. cbn [insertByTimestamp].
    destruct (CacheEntry.timestamp y <=? CacheEntry.timestamp e); cbn [List.length];
      [reflexivity | now rewrite IHm]. }
  rewrite H, IH. reflexivity.
Qed.

(** With at most 100 rows of the type, the SELECT yields them all. *)
Lemma selectByType_all (searchType : string) (d : Database) (e : CacheEntry.t) :
  (List.length (filter (ofType searchType) (rows d)) <= 100)%nat ->
  In e (rows d) -> CacheEntry.search_type e = searchType ->
  In e (selectByType searchType d).
Proof.
  intros L I T. unfold selectByType. fold (ofType searchType).
  rewrite firstn_all2 by (rewrite orderByTimestampDesc_length; exact L).
  apply orderByTimestampDesc_In. apply filter_In. split; [exact I|].
  unfold ofType. now apply String.eqb_eq.
Qed.

Lemma cosineSimilarity_same_dimension (a b : Embedding.Vector) :
  List.length b = List.length a -> exists s, Embedding.cosineSimilarity a b = Embedding.Value s.
Proof.
  intros L. unfold Embedding.cosineSimilarity. rewrite L, Nat.eqb_refl. cbn [negb].
  destruct (Embedding.sums a b) as [[dp ma] mb].
  destruct (Embedding.magnitudes a b) as [x y].
  destruct (_ || _); eexists; reflexivity.
Qed.

(** The scan finds a match as soon as one scanned entry reaches the
    threshold with a positive similarity and no entry has another
    dimension. *)
Lemma scan_finds (qe : Embedding.Vector) (e : CacheEntry.t) (s : float)
    (entries : list CacheEntry.t) (bestMatch : option CacheHit.t) (bestSimilarity : float) :
  Embedding.cosineSimilarity qe (CacheEntry.query_embedding e) = Embedding.Value s ->
  PrimFloat.ltb 0 s = true -> PrimFloat.leb similarityThreshold s = true ->
  Forall (sameDimension qe) entries ->
  (bestMatch <> None \/ (bestSimilarity = 0%float /\ In e entries)) ->
  exists hit, scan qe entries bestMatch bestSimilarity = Some (Some hit).
Proof.
  intros C P T. revert bestMatch bestSimilarity.
  induction entries as [|x entries IH]; intros bestMatch bestSimilarity D H.
  - destruct H as [H | [_ []]]. destruct bestMatch as [h|]; [|congruence].
    exists h. reflexivity.
  - cbn [scan]. inversion D as [|? ? Dx Drest]; subst.
    destruct (cosineSimilarity_same_dimension qe (CacheEntry.query_embedding x) Dx)
      as [sx Ex].
    rewrite Ex.
    destruct (PrimFloat.ltb bestSimilarity sx && PrimFloat.leb similarityThreshold sx)
      eqn:B.
    + apply IH; auto. left. discriminate.
    + apply IH; auto. destruct H as [H | [Z [<- | I]]]; auto.
      exfalso. subst bestSimilarity. rewrite C in Ex. inversion Ex; subst sx.
      rewrite P, T in B. discriminate.
Qed.

(** One entry of another dimension among the scanned ones makes
    [cosineSimilarity] throw: the scan is abandoned. *)
Lemma scan_mismatch (qe : Embedding.Vector) (e : CacheEntry.t)
    (entries : list CacheEntry.t) (bestMatch : option CacheHit.t) (bestSimilarity : float) :
  In e entries -> ~ sameDimension qe e ->
  scan qe entries bestMatch bestSimilarity = None.
Proof.
  intros I N. revert bestMatch bestSimilarity.
  induction entries as [|x entries IH]; intros bestMatch bestSimilarity; [destruct I|].
  cbn [scan].
  destruct (Embedding.cosineSimilarity qe (CacheEntry.query_embedding x)) as [sx|a b] eqn:Ex;
    [|reflexivity].
  destruct I as [<- | I].
  - exfalso. unfold Embedding.cosineSimilarity in Ex.
    destruct (List.length qe =? List.length (CacheEntry.query_embedding x))%nat eqn:L.
    + apply Nat.eqb_eq in L. apply N. unfold sameDimension. now symmetry.
    + cbn [negb] in Ex. discriminate.
  - destruct (_ && _); now apply IH.
Qed.

Lemma filter_length_le (A : Type) (f : A -> bool) (l : list A) :
  (List.length (filter f l) <= List.length l)%nat.
Proof.
  induction l as [|x l IH]; cbn [filter]; [lia|]. destruct (f x); cbn [List.length]; lia.
Qed.

(** X5. A stored result is found again: when the embedding, the INSERT and
    the SELECT succeed, the query's similarity with itself is positive and
    reaches the threshold, the lookup comes before the end of the TTL, and
    the table holds fewer than 100 rows of the search type, all of the
    model's dimension, then [findSimilar] for the same query and type
    right after [store] returns a hit at or above the threshold. *)
Theorem store_then_findSimilar_hits (env : Env) (now now' : Z)
    (query searchType results : string) (ttlSeconds : Z) (d : Database)
    (qe : Embedding.Vector) (s : float)
    (Hembed : embed env query = Some qe)
    (Hinsert : insertFails env = false)
    (Hselect : selectFails env = false)
    (Hself : Embedding.cosineSimilarity qe qe = Embedding.Value s)
    (Hpositive : PrimFloat.ltb 0 s = true)
    (Hthreshold : PrimFloat.leb similarityThreshold s = true)
    (Hlive : now' <= now + ttlSeconds * 1000)
    (Hroom : (List.length (filter (ofType searchType) (rows d)) < 100)%nat)
    (Hdimension : forall e, In e (rows d) -> CacheEntry.search_type e = searchType ->
                            sameDimension qe e) :
  exists hit,
    settledAs (findSimilar env now' query searchType
                 (databaseAfter (store env now query searchType results ttlSeconds
                                   (Some d))))
      = Resolved (Some hit) /\
    PrimFloat.leb similarityThreshold (CacheHit.similarity hit) = true.
Proof.
  set (e := storedEntry d now query searchType results ttlSeconds qe).
  assert (S : databaseAfter (store env now query searchType results ttlSeconds (Some d))
              = Some {| rows := rows d ++ [e]; nextId := nextId d + 1 |}).
  { unfold store, databaseAfter. rewrite Hembed, Hinsert. reflexivity. }
  rewrite S. set (d1 := {| rows := rows d ++ [e]; nextId := nextId d + 1 |}).
  destruct (cleanupExpired_spec env now' d1) as (d2 & log2 & C & Sub & Del & Keep).
  assert (Ie : In e (rows d2)).
  { destruct (deleteFails env) eqn:DF.
    - rewrite (Keep eq_refl). cbn [rows d1]. apply in_or_app. right. now left.
    - rewrite (Del eq_refl). apply filter_In. split.
      + cbn [rows d1]. apply in_or_app. right. now left.
      + unfold expired. cbn [CacheEntry.timestamp CacheEntry.ttl e storedEntry].
        apply negb_true_iff, Z.ltb_ge. exact Hlive. }
  assert (Len : (List.length (filter (ofType searchType) (rows d2)) <= 100)%nat).
  { apply Nat.le_trans with (List.length (filter (ofType searchType) (rows d1))).
    - destruct (deleteFails env) eqn:DF.
      + now rewrite (Keep eq_refl).
      + rewrite (Del eq_refl), filter_swap. apply filter_length_le.
    - cbn [rows d1]. rewrite filter_app, length_app. cbn [filter].
      destruct (ofType searchType e); cbn [List.length]; lia. }
  assert (Dim : Forall (sameDimension qe) (selectByType searchType d2)).
  { apply Forall_forall. intros x Ix. apply selectByType_In in Ix.
    destruct Ix as [Ix Tx]. apply Sub in Ix. cbn [rows d1] in Ix.
    apply in_app_or in Ix. destruct Ix as [Ix | [<- | []]].
    - now apply Hdimension.
    - reflexivity. }
  assert (Sel : In e (selectByType searchType d2)).
  { apply selectByType_all; auto. }
  destruct (scan_finds qe e s (selectByType searchType d2) None 0%float)
    as [hit Hscan]; auto.
  exists hit. split.
  - unfold findSimilar, settledAs. rewrite Hembed, C, Hselect, Hscan. reflexivity.
  - apply scan_hit in Hscan. destruct Hscan as [? | (x & _ & _ & T)]; [discriminate|].
    exact T.
Qed.

Lemma store_then_findSimilar_hits_witness :
  exists hit,
    settledAs (findSimilar unitModel 2000 "q" "web"
                 (databaseAfter (store unitModel 1000 "q" "web" "R" 3600
                                   (Some emptyDatabase))))
      = Resolved (Some hit) /\
    PrimFloat.leb similarityThreshold (CacheHit.similarity hit) = true.
Proof.
  apply (store_then_findSimilar_hits unitModel 1000 2000 "q" "web" "R" 3600
           emptyDatabase [1%float] 1%float); try reflexivity.
  - cbn. lia.
  - cbn. lia.
  - intros e [].
Defined.

(** X6. A row whose embedding has another dimension than the query's
    embedding silences its partition as long as the lookup scans it: when
    the row is of the requested search type and not expired, and the table
    holds at most 100 rows of that type (the SELECT reads the 100 newest),
    [cosineSimilarity] throws, [findSimilar] catches the error and answers
    [null], whatever the other rows are. *)
Theorem dimension_mismatch_turns_lookup_into_miss (env : Env) (now : Z)
    (query searchType : string) (d : Database)
    (qe : Embedding.Vector) (e : CacheEntry.t)
    (Hembed : embed env query = Some qe)
    (Hrow : In e (rows d))
    (Htype : CacheEntry.search_type e = searchType)
    (Hkept : unexpired now e)
    (Hroom : (List.length (filter (ofType searchType) (rows d)) <= 100)%nat)
    (Hdimension : ~ sameDimension qe e) :
  settledAs (findSimilar env now query searchType (Some d)) = Resolved None.
Proof.
  destruct (cleanupExpired_spec env now d) as (d2 & log2 & C & Sub & Del & Keep).
  unfold findSimilar, settledAs. rewrite Hembed, C.
  destruct (selectFails env); [reflexivity|].
  assert (Ie : In e (rows d2)).
  { destruct (deleteFails env) eqn:DF.
    - now rewrite (Keep eq_refl).
    - rewrite (Del eq_refl). apply filter_In. split; [exact Hrow|].
      unfold expired. apply negb_true_iff, Z.ltb_ge. exact Hkept. }
  assert (Len : (List.length (filter (ofType searchType) (rows d2)) <= 100)%nat).
  { destruct (deleteFails env) eqn:DF.
    - now rewrite (Keep eq_refl).
    - rewrite (Del eq_refl), filter_swap.
      eapply Nat.le_trans; [apply filter_length_le | exact Hroom]. }
  rewrite (scan_mismatch qe e (selectByType searchType d2) None 0%float); auto.
  apply selectByType_all; auto.
Qed.

(** The entry of the other model hides the exact match stored after it. *)
Lemma dimension_mismatch_turns_lookup_into_miss_witness :
  settledAs (findSimilar unitModel 2000 "q" "web"
               (databaseAfter
                  (store unitModel 1000 "q" "web" "R" 3600
                     (Some {| rows := [otherModelEntry]; nextId := 2 |}))))
    = Resolved None.
Proof.
  apply (dimension_mismatch_turns_lookup_into_miss unitModel 2000 "q" "web"
           {| rows := [otherModelEntry;
                       storedEntry {| rows := [otherModelEntry]; nextId := 2 |}
                         1000 "q" "web" "R" 3600 [1%float]];
              nextId := 3 |}
           [1%float] otherModelEntry).
  - reflexivity.
  - now left.
  - reflexivity.
  - unfold unexpired. cbn. lia.
  - cbn. lia.
  - unfold sameDimension. cbn. discriminate.
Defined.

(** The bound of 100 rows is needed: under 100 newer rows the row of the
    other model is not among those the SELECT reads, and the lookup is a
    hit. *)
Example mismatch_beyond_the_limit_is_not_scanned :
  In otherModelEntry (rows crowded) /\
  List.length (filter (ofType "web") (rows crowded)) = 101%nat /\
  exists hit,
    settledAs (findSimilar unitModel 2000 "q" "web" (Some crowded))
      = Resolved (Some hit).
Proof.
  split; [now left|]. split; [vm_compute; reflexivity|].
  eexists. vm_compute. reflexivity.
Qed.

(** X7. The table is append-only under [store] and only loses expired rows
    under [findSimilar]: [store] leaves the rows as they are or adds one row
    at the end, with the next id; [findSimilar] never adds or alters a row,
    and every row it removes had [timestamp + ttl < now]. *)
Theorem cache_rows_only_appended_or_expired (env : Env) (now : Z)
    (query searchType results : string) (ttlSeconds : Z) (d : Database) :
  (exists d',
      databaseAfter (store env now query searchType results ttlSeconds (Some d)) = Some d' /\
      (d' = d \/
       exists qe, embed env query = Some qe /\
                  rows d' = rows d ++ [storedEntry d now query searchType results
                                         ttlSeconds qe] /\
                  nextId d' = nextId d + 1)) /\
  (exists d',
      databaseAfter (findSimilar env now query searchType (Some d)) = Some d' /\
      nextId d' = nextId d /\
      (rows d' = rows d \/
       rows d' = filter (fun e => negb (expired now e)) (rows d))).
Proof.
  split.
  - unfold store, databaseAfter.
    destruct (embed env query) as [qe|] eqn:E; [|exists d; auto].
    destruct (insertFails env); [exists d; auto|].
    eexists. split; [reflexivity|]. right. exists qe. auto.
  - unfold findSimilar, databaseAfter.
    destruct (embed env query) as [qe|]; [|exists d; auto].
    unfold cleanupExpired.
    destruct (deleteFails env).
    + exists d. destruct (selectFails env); [auto|].
      destruct (scan qe _ None 0); auto.
    + eexists. destruct (selectFails env); [|destruct (scan qe _ None 0)];
        (split; [reflexivity|]); cbn [rows nextId]; auto.
Qed.

(** X8. After a successful [clear()] the cache is empty: [getSize()] is 0
    and every lookup is a miss, for every query and search type; a [clear]
    whose DELETE throws leaves the table as it was. *)
Theorem clear_empties_cache (env : Env) (now : Z) (query searchType : string)
    (db : option Database) (countFails : bool) :
  getSize countFails (fst (clear false db)) = 0 /\
  (forall d, db = Some d ->
     settledAs (findSimilar env now query searchType (fst (clear false db)))
       = Resolved None) /\
  fst (clear true db) = db.
Proof.
  split; [|split].
  - destruct db as [d|]; cbn; [destruct countFails|]; reflexivity.
  - intros d ->. cbn [clear fst]. unfold findSimilar, settledAs.
    destruct (embed env query) as [qe|]; [|reflexivity].
    unfold cleanupExpired. destruct (deleteFails env); destruct (selectFails env);
      reflexivity.
  - destruct db; reflexivity.
Qed.

End CacheRoundTrip.

(* ====================================================================== *)
(** * Further facts about the rate limiter and the retry loop *)
(* ====================================================================== *)

Section LimiterMore.
Import BraveSearch LoopView MoreViews.
Local Open Scope list_scope.

Lemma rollover_idempotent (t : Z) (rc : RequestCount) :
  rollover t (rollover t rc) = rollover t rc.
Proof.
  unfold rollover.
  destruct (1000 <=? t - lastSecondReset rc) eqn:S; cbn [lastSecondReset lastMonthReset];
    destruct (2592000000 <=? t - lastMonthReset rc) eqn:M;
    cbn [lastSecondReset lastMonthReset second month];
    rewrite ?S, ?M, ?Z.sub_diag; cbn [Z.leb Z.compare];
    cbn [lastSecondReset lastMonthReset second month]; rewrite ?S, ?M, ?Z.sub_diag;
    reflexivity.
Qed.

(** X9. [checkRateLimit] is a dry check: asked again at the same instant it
    gives the same answer and leaves the counters where the first call put
    them; and once a second has passed since the last reset of the
    per-second window, with the monthly count below its cap (after the
    window resets), it allows the call. *)
Theorem checkRateLimit_is_repeatable (t : Z) (rc : RequestCount) :
  checkRateLimit t (snd (checkRateLimit t rc)) = checkRateLimit t rc /\
  (1000 <= t - lastSecondReset rc ->
   month (rollover t rc) < perMonth RATE_LIMIT ->
   fst (checkRateLimit t rc) = {| canProceed := true; waitTimeMs := 0; reason := None |}).
Proof.
  split.
  - rewrite checkRateLimit_snd. unfold checkRateLimit.
    rewrite rollover_idempotent. reflexivity.
  - intros Hs Hm. unfold checkRateLimit.
    replace (perMonth RATE_LIMIT <=? month (rollover t rc)) with false
      by (symmetry; apply Z.leb_gt; exact Hm).
    assert (Z0 : second (rollover t rc) = 0).
    { unfold rollover.
      replace (1000 <=? t - lastSecondReset rc) with true by (symmetry; lia).
      cbn [lastMonthReset]. destruct (2592000000 <=? t - lastMonthReset rc); reflexivity. }
    rewrite Z0. reflexivity.
Qed.

Lemma checkRateLimit_is_repeatable_witness :
  fst (checkRateLimit 6000 justUsed)
    = {| canProceed := true; waitTimeMs := 0; reason := None |}.
Proof.
  destruct (checkRateLimit_is_repeatable 6000 justUsed) as [_ A].
  apply A; [cbn; lia | vm_compute; reflexivity].
Defined.

Lemma fetchesGuarded_app_check (tr evs : list Event) (t : Z) (chk : RateLimitCheck) :
  fetchesGuarded (tr ++ EvCheck t chk :: evs)
    = fetchesGuarded tr && fetchesGuarded (EvCheck t chk :: evs).
Proof.
  assert (IH : forall n tr0, (List.length tr0 < n)%nat ->
                 fetchesGuarded (tr0 ++ EvCheck t chk :: evs)
                   = fetchesGuarded tr0 && fetchesGuarded (EvCheck t chk :: evs));
    [|apply (IH (S (List.length tr))); lia].
  clear tr. intros n. induction n as [|n IH]; intros tr Hn; [lia|].
  destruct tr as [|e tr']; [reflexivity|]. cbn [List.length] in Hn.
  destruct e as [t0 c0 | ms | a o |].
  - destruct tr' as [|e2 tr2].
    + reflexivity.
    + destruct e2 as [t1 c1 | ms1 | a1 o1 |].
      * change (fetchesGuarded ((EvCheck t0 c0 :: EvCheck t1 c1 :: tr2) ++ EvCheck t chk :: evs))
          with (fetchesGuarded ((EvCheck t1 c1 :: tr2) ++ EvCheck t chk :: evs)).
        change (fetchesGuarded (EvCheck t0 c0 :: EvCheck t1 c1 :: tr2))
          with (fetchesGuarded (EvCheck t1 c1 :: tr2)).
        apply IH. cbn [List.length] in *. lia.
      * change (fetchesGuarded ((EvCheck t0 c0 :: EvSleep ms1 :: tr2) ++ EvCheck t chk :: evs))
          with (fetchesGuarded (tr2 ++ EvCheck t chk :: evs)).
        change (fetchesGuarded (EvCheck t0 c0 :: EvSleep ms1 :: tr2))
          with (fetchesGuarded tr2).
        apply IH. cbn [List.length] in *. lia.
      * change (fetchesGuarded ((EvCheck t0 c0 :: EvFetch a1 o1 :: tr2) ++ EvCheck t chk :: evs))
          with ((canProceed c0 || (a1 =? maxAttempts RETRY_CONFIG))
                && fetchesGuarded (tr2 ++ EvCheck t chk :: evs)).
        change (fetchesGuarded (EvCheck t0 c0 :: EvFetch a1 o1 :: tr2))
          with ((canProceed c0 || (a1 =? maxAttempts RETRY_CONFIG)) && fetchesGuarded tr2).
        rewrite <- andb_assoc. f_equal. apply IH. cbn [List.length] in *. lia.
      * change (fetchesGuarded ((EvCheck t0 c0 :: EvCommit :: tr2) ++ EvCheck t chk :: evs))
          with (fetchesGuarded (tr2 ++ EvCheck t chk :: evs)).
        change (fetchesGuarded (EvCheck t0 c0 :: EvCommit :: tr2))
          with (fetchesGuarded tr2).
        apply IH. cbn [List.length] in *. lia.
  - change (fetchesGuarded ((EvSleep ms :: tr') ++ EvCheck t chk :: evs))
      with (fetchesGuarded (tr' ++ EvCheck t chk :: evs)).
    change (fetchesGuarded (EvSleep ms :: tr')) with (fetchesGuarded tr').
    apply IH. cbn [List.length] in *. lia.
  - reflexivity.
  - change (fetchesGuarded ((EvCommit :: tr') ++ EvCheck t chk :: evs))
      with (fetchesGuarded (tr' ++ EvCheck t chk :: evs)).
    change (fetchesGuarded (EvCommit :: tr')) with (fetchesGuarded tr').
    apply IH. cbn [List.length] in *. lia.
Qed.

(** X10. The loop never fetches without asking the limiter first, and
    never against its answer before the last attempt: every fetch of a run
    directly follows a check, and that check allowed the call unless the
    fetch is the one of attempt [maxAttempts].  On the last attempt the
    request goes out even when the per-second window is full. *)
Theorem fetch_only_when_allowed_or_last (env : Env) (rc : RequestCount) :
  fetchesGuarded (trace (performBraveSearch env rc)) = true /\
  trace (performBraveSearch alwaysBusy justUsed) =
    [EvCheck 5500 {| canProceed := false; waitTimeMs := 500;
                     reason := Some (PerSecondReached 500) |};
     EvSleep (Some 500);
     EvCheck 5500 {| canProceed := false; waitTimeMs := 500;
                     reason := Some (PerSecondReached 500) |};
     EvSleep (Some 500);
     EvCheck 5500 {| canProceed := false; waitTimeMs := 500;
                     reason := Some (PerSecondReached 500) |};
     EvFetch 3 (Ok200 {| web := None |});
     EvCommit].
Proof.
  split; [|vm_compute; reflexivity].
  apply performBraveSearch_rule
    with (I := fun _ _ tr => fetchesGuarded tr = true).
  - reflexivity.
  - intros a le c tr Ha HI.
    change (maxAttempts RETRY_CONFIG) with 3 in Ha.
    assert (G : proceeds (checkAt env (a + 1) c) (a + 1) ->
                (canProceed (checkAt env (a + 1) c)
                 || (a + 1 =? maxAttempts RETRY_CONFIG)) = true).
    { intros [P | (_ & _ & P)]; [now rewrite P|].
      change (maxAttempts RETRY_CONFIG) with 3 in *.
      replace (a + 1 =? 3) with true by (symmetry; lia). apply orb_true_r. }
    destruct (iteration_view env (a + 1) le c tr)
      as [C W | C W L | P Rt L | P S NR | data P F | reading P F];
      cbn [trace]; rewrite fetchesGuarded_app_check, HI; cbn [andb fetchesGuarded];
      try rewrite (G P); try split; auto.
Qed.

Lemma replay_keeps_second_nonneg (tr : list Event) (rc : RequestCount) :
  0 <= second rc -> 0 <= second (replay tr rc).
Proof.
  revert rc. induction tr as [|e tr IH]; intros rc H; [exact H|].
  cbn [replay fold_left]. apply IH.
  destruct e as [t chk | ms | a o |]; cbn [replayEvent]; auto.
  - destruct (checkRateLimit_never_increments t rc) as [[-> | ->] _]; lia.
  - cbn. lia.
Qed.

(** X11. One request per second across searches: after a search that
    returned, a search started less than a second after the last reset of
    the per-second window (with the monthly count still below its cap) does
    not fetch at once: its first check fails with the remaining time of the
    window, and it sleeps before anything else. *)
Theorem next_search_waits_for_window (env env' : Env) (rc : RequestCount) (text : string)
    (Hcount : 0 <= second rc)
    (Hreturned : completion (performBraveSearch env rc) = Returned text)
    (Hsoon : now env' 1 - lastSecondReset (final (performBraveSearch env rc)) < 1000)
    (Hquota : month (rollover (now env' 1) (final (performBraveSearch env rc)))
              < perMonth RATE_LIMIT) :
  0 < 1000 - (now env' 1 - lastSecondReset (final (performBraveSearch env rc))) /\
  iteration env' 1 None (final (performBraveSearch env rc)) [] =
    Continue None (rollover (now env' 1) (final (performBraveSearch env rc)))
      [EvCheck (now env' 1)
         {| canProceed := false;
            waitTimeMs :=
              1000 - (now env' 1 - lastSecondReset (final (performBraveSearch env rc)));
            reason :=
              Some (PerSecondReached
                      (1000 - (now env' 1
                               - lastSecondReset (final (performBraveSearch env rc))))) |};
       EvSleep (addJitter (random env' 1)
                  (Some (1000 - (now env' 1
                                 - lastSecondReset (final (performBraveSearch env rc))))))].
Proof.
  set (rc1 := final (performBraveSearch env rc)) in *.
  assert (S1 : 1 <= second rc1).
  { destruct (performBraveSearch_accounted env rc) as [F [OK | [UT | KO]]].
    - destruct OK as (text' & pre & a & data & C & T & Q).
      unfold rc1. rewrite F, T, replay_app. cbn [replay fold_left replayEvent].
      cbn [incrementRateLimit second].
      pose proof (replay_keeps_second_nonneg pre rc Hcount). unfold replay in *. lia.
    - destruct UT as (pre & a & reading & C & T & Q).
      unfold rc1. rewrite F, T, replay_app. cbn [replay fold_left replayEvent].
      cbn [incrementRateLimit second].
      pose proof (replay_keeps_second_nonneg pre rc Hcount). unfold replay in *. lia.
    - destruct KO as (e & C & _). rewrite Hreturned in C. discriminate. }
  assert (S2 : perSecond RATE_LIMIT <= second (rollover (now env' 1) rc1)).
  { unfold rollover.
    replace (1000 <=? now env' 1 - lastSecondReset rc1) with false by (symmetry; lia).
    cbn [perSecond RATE_LIMIT].
    destruct (2592000000 <=? now env' 1 - lastMonthReset rc1); cbn [second]; lia. }
  destruct (checkRateLimit_perSecond _ _ Hquota S2) as [Hpos E].
  split; [lia|].
  unfold iteration. rewrite E. cbn [canProceed waitTimeMs negb].
  replace (1000 - (now env' 1 - lastSecondReset rc1) =? 0) with false by (symmetry; lia).
  reflexivity.
Qed.

Lemma next_search_waits_for_window_witness :
  completion (performBraveSearch firstSearch idle)
    = Returned "No results found for your query." /\
  sleeps (trace (performBraveSearch secondSearch
                   (final (performBraveSearch firstSearch idle))))
    = [Some 700] /\
  exists rc',
    iteration secondSearch 1 None (final (performBraveSearch firstSearch idle)) [] =
      Continue None rc'
        [EvCheck 7300 {| canProceed := false; waitTimeMs := 700;
                         reason := Some (PerSecondReached 700) |};
         EvSleep (Some 700)].
Proof.
  split; [vm_compute; reflexivity|]. split; [vm_compute; reflexivity|].
  destruct (next_search_waits_for_window firstSearch secondSearch idle
              "No results found for your query.") as (W & I).
  - cbn. lia.
  - vm_compute. reflexivity.
  - vm_compute. reflexivity.
  - vm_compute. reflexivity.
  - eexists. rewrite I. vm_compute. reflexivity.
Defined.

End LimiterMore.

(* ====================================================================== *)
(** * Facts about the cache age label *)
(* ====================================================================== *)

Section CacheAge.
Import Rendering.

(** X12. [formatCacheAge] is a function of the age [now - timestamp] alone
    and labels it by four ranges: under a minute (also for a timestamp in
    the future) "just now"; under an hour the whole minutes, 1 to 59; under
    a day the whole hours, 1 to 23; from a day on the whole days. *)
Theorem formatCacheAge_ranges (now timestamp : Z) :
  (now - timestamp < 60000 -> formatCacheAge now timestamp = "just now") /\
  (60000 <= now - timestamp < 3600000 ->
     formatCacheAge now timestamp
       = JSText.numberToString ((now - timestamp) / 60000) ++ "m ago" /\
     1 <= (now - timestamp) / 60000 <= 59) /\
  (3600000 <= now - timestamp < 86400000 ->
     formatCacheAge now timestamp
       = JSText.numberToString ((now - timestamp) / 3600000) ++ "h ago" /\
     1 <= (now - timestamp) / 3600000 <= 23) /\
  (86400000 <= now - timestamp ->
     formatCacheAge now timestamp
       = JSText.numberToString ((now - timestamp) / 86400000) ++ "d ago" /\
     1 <= (now - timestamp) / 86400000).
Proof.
  unfold formatCacheAge. set (age := now - timestamp).
  assert (H1 : age / 60000 / 60 = age / 3600000)
    by (rewrite Zdiv_Zdiv by lia; reflexivity).
  assert (H2 : age / 60000 / 60 / 24 = age / 86400000)
    by (rewrite !Zdiv_Zdiv by lia; reflexivity).
  pose proof (Z.div_mod age 60000 ltac:(lia)) as D1.
  pose proof (Z.mod_pos_bound age 60000 ltac:(lia)) as M1.
  pose proof (Z.div_mod age 3600000 ltac:(lia)) as D2.
  pose proof (Z.mod_pos_bound age 3600000 ltac:(lia)) as M2.
  pose proof (Z.div_mod age 86400000 ltac:(lia)) as D3.
  pose proof (Z.mod_pos_bound age 86400000 ltac:(lia)) as M3.
  rewrite H2, H1.
  split; [|split; [|split]]; intros H.
  - replace (age / 60000 <? 1) with true by (symmetry; apply Z.ltb_lt; lia).
    reflexivity.
  - replace (age / 60000 <? 1) with false by (symmetry; apply Z.ltb_ge; lia).
    replace (age / 60000 <? 60) with true by (symmetry; apply Z.ltb_lt; lia).
    split; [reflexivity | lia].
  - replace (age / 60000 <? 1) with false by (symmetry; apply Z.ltb_ge; lia).
    replace (age / 60000 <? 60) with false by (symmetry; apply Z.ltb_ge; lia).
    replace (age / 3600000 <? 24) with true by (symmetry; apply Z.ltb_lt; lia).
    split; [reflexivity | lia].
  - replace (age / 60000 <? 1) with false by (symmetry; apply Z.ltb_ge; lia).
    replace (age / 60000 <? 60) with false by (symmetry; apply Z.ltb_ge; lia).
    replace (age / 3600000 <? 24) with false by (symmetry; apply Z.ltb_ge; lia).
    split; [reflexivity | lia].
Qed.

Lemma formatCacheAge_ranges_witness :
  formatCacheAge 1000 5000 = "just now" /\
  formatCacheAge 3599999 0 = "59m ago" /\
  formatCacheAge 3600000 0 = "1h ago" /\
  formatCacheAge 200000000 0 = "2d ago".
Proof.
  destruct (formatCacheAge_ranges 1000 5000) as (A & _).
  destruct (formatCacheAge_ranges 3599999 0) as (_ & B & _).
  destruct (formatCacheAge_ranges 3600000 0) as (_ & _ & C & _).
  destruct (formatCacheAge_ranges 200000000 0) as (_ & _ & _ & D).
  split; [apply A; lia|].
  split; [destruct B as [B _]; [lia|]; rewrite B; reflexivity|].
  split; [destruct C as [C _]; [lia|]; rewrite C; reflexivity|].
  destruct D as [D _]; [lia|]. rewrite D. reflexivity.
Defined.

End CacheAge.

(* ====================================================================== *)
(** * Facts about the search service *)
(* ====================================================================== *)

Section Search.
Import SemanticCache CacheView SearchService SearchView.
Local Open Scope list_scope.

Lemma findSimilar_settles (env : SemanticCache.Env) (now : Z) (query searchType : string)
    (db db' : option Database) (found : Promise (option CacheHit.t)) (log : Log) :
  findSimilar env now query searchType db = (found, db', log) ->
  match found with
  | Resolved _ => exists d', db' = Some d'
  | Rejected e => db = None /\ initializeFails env e
  end.
Proof.
  unfold findSimilar, initializeFails.
  assert (K : forall d log0,
    (match embed env query with
     | None => (Resolved None, Some d,
                log0 ++ [(error, "[Cache] Error finding similar query")])
     | Some queryEmbedding =>
         let '(db0, log1) := cleanupExpired env now (Some d) in
         match db0 with
         | None => (Resolved None, db0,
                    log0 ++ log1 ++ [(error, "[Cache] Error finding similar query")])
         | Some d0 =>
             if selectFails env
             then (Resolved None, db0,
                   log0 ++ log1 ++ [(error, "[Cache] Error finding similar query")])
             else
               match scan queryEmbedding (selectByType searchType d0) None 0 with
               | None => (Resolved None, db0,
                          log0 ++ log1 ++ [(error, "[Cache] Error finding similar query")])
               | Some bestMatch =>
                   (Resolved bestMatch, db0, log0 ++ log1 ++ logHit bestMatch)
               end
         end
     end) = (found, db', log) ->
    match found with
    | Resolved _ => exists d', db' = Some d'
    | Rejected e => db = None /\
                    (openDatabase env = OpenFails e \/
                     exists d1, openDatabase env = SetupFails d1 e)
    end).
  { intros d log0.
    destruct (embed env query) as [qe|].
    - destruct (cleanupExpired_spec env now d) as (d' & log' & -> & _).
      destruct (selectFails env);
        [|destruct (scan qe (selectByType searchType d') None 0)];
        intros H; inversion H; subst; eexists; reflexivity.
    - intros H; inversion H; subst; eexists; reflexivity. }
  destruct db as [d|]; [apply K|].
  unfold initialize. destruct (openDatabase env) as [d | e | d e] eqn:O.
  - apply K.
  - intros H. inversion H; subst. split; [reflexivity | now left].
  - intros H. inversion H; subst. split; [reflexivity | right; now exists d].
Qed.

(** What a miss does, on a database that is open or on a service without
    cache. *)
Lemma searchMiss_outcome (flags : FeatureFlags) (clock : Clock) (w : World)
    (query searchType : string) (db : option Database) (rc : BraveSearch.RequestCount) :
  (ENABLE_SEMANTIC_CACHE flags = true -> exists d, db = Some d) ->
  upstream (searchMiss flags clock w query searchType db rc)
    = BraveSearch.trace (fetchRun w rc) /\
  requestCount (searchMiss flags clock w query searchType db rc)
    = BraveSearch.final (fetchRun w rc) /\
  outcome (searchMiss flags clock w query searchType db rc) =
    match BraveSearch.completion (fetchRun w rc) with
    | BraveSearch.Returned raw =>
        Fulfilled (processRaw flags w query raw (missTime clock - startTime clock))
    | BraveSearch.Threw e => Failed (UpstreamFailure e)
    | BraveSearch.OutOfFuel => Unsettled
    end.
Proof.
  intros Hdb. unfold searchMiss, fetchRun.
  destruct (BraveSearch.completion (BraveSearch.performBraveSearch (upstreamEnv w) rc))
    as [raw | e |]; try (repeat split; reflexivity).
  destruct (ENABLE_SEMANTIC_CACHE flags) eqn:F; [|repeat split; reflexivity].
  destruct (Hdb eq_refl) as [d ->].
  pose proof (store_resolves_when_open (atStore w) (storeTime clock) query searchType
                (processRaw flags w query raw (missTime clock - startTime clock))
                (CACHE_TTL_SECONDS flags) d) as S.
  unfold settledAs in S.
  destruct (store _ _ _ _ _ _ _) as [[stored db'] log]. cbn [fst] in S. subst stored.
  repeat split; reflexivity.
Qed.

(** X13. How [search] ends.  It fails on the cache only when the lookup has
    to open the database and [initialize] throws, and then before any
    upstream call.  A hit is served without any upstream call and leaves
    the request counters as they were.  Otherwise the outcome is the one of
    the fetch: the error it throws, or the processed text when it returns
    (no failure of the cache write can fail the search).  A search that
    returns after a fetch has made exactly one commit to the counters; one
    that fails on the upstream has made none, unless the error is the
    TypeError of reading a 200 body that is not a [BraveWeb], which comes
    after the commit. *)
Theorem search_outcome (flags : FeatureFlags) (clock : Clock) (w : World)
    (query searchType : string) (db : option Database) (rc : BraveSearch.RequestCount) :
  match outcome (search flags clock w query searchType db rc) with
  | Failed (CacheFailure e) =>
      ENABLE_SEMANTIC_CACHE flags = true /\ db = None /\
      initializeFails (atLookup w) e /\
      upstream (search flags clock w query searchType db rc) = [] /\
      requestCount (search flags clock w query searchType db rc) = rc
  | Failed (UpstreamFailure e) =>
      BraveSearch.completion (fetchRun w rc) = BraveSearch.Threw e /\
      upstream (search flags clock w query searchType db rc)
        = BraveSearch.trace (fetchRun w rc) /\
      (BraveSearch.count BraveSearch.isCommit
         (upstream (search flags clock w query searchType db rc)) = 0%nat \/
       exists pre a typeError,
         e = BraveSearch.OtherError typeError /\
         upstream (search flags clock w query searchType db rc)
           = (pre ++ [BraveSearch.EvFetch a
                        (BraveSearch.Ok200Untyped (BraveSearch.Throws typeError));
                      BraveSearch.EvCommit])%list /\
         BraveSearch.count BraveSearch.isCommit
           (upstream (search flags clock w query searchType db rc)) = 1%nat)
  | Fulfilled text =>
      (exists cached,
          ENABLE_SEMANTIC_CACHE flags = true /\
          settledAs (findSimilar (atLookup w) (lookupTime clock) query searchType db)
            = Resolved (Some cached) /\
          text = serveCached (CacheHit.results cached)
                   (Rendering.formatCacheAge (ageTime clock) (CacheHit.timestamp cached))
                   (hitTime clock - startTime clock) /\
          upstream (search flags clock w query searchType db rc) = [] /\
          requestCount (search flags clock w query searchType db rc) = rc)
      \/
      (exists raw,
          BraveSearch.completion (fetchRun w rc) = BraveSearch.Returned raw /\
          text = processRaw flags w query raw (missTime clock - startTime clock) /\
          upstream (search flags clock w query searchType db rc)
            = BraveSearch.trace (fetchRun w rc) /\
          BraveSearch.count BraveSearch.isCommit
            (upstream (search flags clock w query searchType db rc)) = 1%nat)
  | Unsettled => False
  end.
Proof.
  assert (M : forall db0, (ENABLE_SEMANTIC_CACHE flags = true -> exists d, db0 = Some d) ->
    match outcome (searchMiss flags clock w query searchType db0 rc) with
    | Failed (CacheFailure e) => False
    | Failed (UpstreamFailure e) =>
        BraveSearch.completion (fetchRun w rc) = BraveSearch.Threw e /\
        upstream (searchMiss flags clock w query searchType db0 rc)
          = BraveSearch.trace (fetchRun w rc) /\
        (BraveSearch.count BraveSearch.isCommit
           (upstream (searchMiss flags clock w query searchType db0 rc)) = 0%nat \/
         exists pre a typeError,
           e = BraveSearch.OtherError typeError /\
           upstream (searchMiss flags clock w query searchType db0 rc)
             = (pre ++ [BraveSearch.EvFetch a
                          (BraveSearch.Ok200Untyped (BraveSearch.Throws typeError));
                        BraveSearch.EvCommit])%list /\
           BraveSearch.count BraveSearch.isCommit
             (upstream (searchMiss flags clock w query searchType db0 rc)) = 1%nat)
    | Fulfilled text =>
        exists raw,
          BraveSearch.completion (fetchRun w rc) = BraveSearch.Returned raw /\
          text = processRaw flags w query raw (missTime clock - startTime clock) /\
          upstream (searchMiss flags clock w query searchType db0 rc)
            = BraveSearch.trace (fetchRun w rc) /\
          BraveSearch.count BraveSearch.isCommit
            (upstream (searchMiss flags clock w query searchType db0 rc)) = 1%nat
    | Unsettled => False
    end).
  { intros db0 Hdb.
    destruct (searchMiss_outcome flags clock w query searchType db0 rc Hdb) as (U & _ & O).
    rewrite O, U. pose proof (performBraveSearch_commits (upstreamEnv w) rc) as C.
    fold (fetchRun w rc) in C.
    destruct (BraveSearch.completion (fetchRun w rc)) as [raw | e |]; auto.
    exists raw. auto. }
  unfold search. destruct (ENABLE_SEMANTIC_CACHE flags) eqn:F.
  - destruct (findSimilar (atLookup w) (lookupTime clock) query searchType db)
      as [[found db'] log] eqn:L.
    pose proof (findSimilar_settles _ _ _ _ _ _ _ _ L) as S.
    destruct found as [[cached|] | e].
    + cbn [outcome upstream requestCount]. left. exists cached.
      unfold settledAs. cbn [fst]. auto.
    + destruct S as [d' ->].
      specialize (M (Some d') ltac:(intros _; now exists d')).
      destruct (outcome (searchMiss flags clock w query searchType (Some d') rc))
        as [text | [e | e] |]; [right; exact M | destruct M | exact M | exact M].
    + cbn [outcome upstream requestCount]. destruct S as [-> I]. auto.
  - specialize (M db ltac:(discriminate)).
    destruct (outcome (searchMiss flags clock w query searchType db rc))
      as [text | [e | e] |]; [right; exact M | destruct M | exact M | exact M].
Qed.

(** X14. A cache that cannot be opened takes the search down with it: with
    the semantic cache enabled and the database not open yet, a failing
    [initialize] makes [search] fail with that error, without asking the
    upstream, whatever the upstream would have answered. *)
Theorem search_fails_when_cache_cannot_open (flags : FeatureFlags) (clock : Clock)
    (w : World) (query searchType : string) (rc : BraveSearch.RequestCount) (e : string)
    (Henabled : ENABLE_SEMANTIC_CACHE flags = true)
    (Hfails : initializeFails (atLookup w) e) :
  outcome (search flags clock w query searchType None rc) = Failed (CacheFailure e) /\
  upstream (search flags clock w query searchType None rc) = [] /\
  requestCount (search flags clock w query searchType None rc) = rc.
Proof.
  unfold search. rewrite Henabled. unfold findSimilar, initialize.
  destruct Hfails as [-> | [d ->]]; repeat split; reflexivity.
Qed.

Lemma search_fails_when_cache_cannot_open_witness :
  outcome (search cacheOn steadyClock cacheDown "rocq" "web" None LoopView.idle)
    = Failed (CacheFailure "unable to open database file") /\
  outcome (search cacheOn steadyClock cacheUp "rocq" "web" None LoopView.idle)
    = Fulfilled (processRaw cacheOn cacheUp "rocq"
                   ("Title: Rocq" ++ JS.nl ++ "Description: A proof assistant" ++ JS.nl
                    ++ "URL: https://rocq-prover.org/")%string 350).
Proof.
  split; [|vm_compute; reflexivity].
  apply (search_fails_when_cache_cannot_open cacheOn steadyClock cacheDown "rocq" "web"
           LoopView.idle "unable to open database file").
  - reflexivity.
  - left. reflexivity.
Defined.

End Search.

(* ====================================================================== *)
(** * Facts about the text served from the cache *)
(* ====================================================================== *)

Section ServedText.
Import ResultProcessor Rendering SearchService SearchView.
Local Open Scope string_scope.

Lemma string_app_assoc (a b c : string) : (a ++ b) ++ c = a ++ (b ++ c).
Proof. induction a as [|x a IH]; cbn; [reflexivity | now rewrite IH]. Qed.

Lemma prefix_app (p b : string) : String.prefix p (p ++ b) = true.
Proof.
  induction p as [|x p IH]; cbn; [now destruct b|].
  destruct (ascii_dec x x); [exact IH | congruence].
Qed.

Lemma substring_app (p b : string) : JS.substring (String.length p) (p ++ b) = b.
Proof. induction p as [|x p IH]; cbn; [now destruct b | exact IH]. Qed.

Lemma starFree_app (a b : string) : starFree (a ++ b) = starFree a && starFree b.
Proof.
  induction a as [|x a IH]; cbn; [reflexivity|]. rewrite IH. now rewrite andb_assoc.
Qed.

Lemma cutAt_cons (p : string) (c : ascii) (s : string) :
  JSText.cutAt p (String c s) =
    if String.prefix p (String c s)
    then Some (EmptyString, JS.substring (String.length p) (String c s))
    else match JSText.cutAt p s with
         | Some (before, after) => Some (String c before, after)
         | None => None
         end.
Proof. reflexivity. Qed.

(** The first occurrence of a pattern that starts with an asterisk lies
    after any text without asterisk. *)
Lemma cutAt_after_starFree (a p b : string) :
  starFree a = true ->
  JSText.cutAt (String "*" p) (a ++ String "*" p ++ b) = Some (a, b).
Proof.
  intros H. induction a as [|x a IH].
  - change (EmptyString ++ String "*" p ++ b) with (String "*" (p ++ b)).
    rewrite cutAt_cons.
    change (String "*" (p ++ b)) with (String "*" p ++ b).
    rewrite prefix_app, substring_app. reflexivity.
  - cbn [starFree] in H. apply andb_prop in H. destruct H as [X H].
    change (String x a ++ String "*" p ++ b) with (String x (a ++ String "*" p ++ b)).
    rewrite cutAt_cons, (IH H).
    cbn [String.prefix].
    destruct (ascii_dec "*" x) as [<-|N]; [discriminate | reflexivity].
Qed.

Lemma uint_starFree (d : Decimal.uint) : starFree (NilEmpty.string_of_uint d) = true.
Proof. induction d; cbn; auto. Qed.

Lemma numberToString_starFree (z : Z) : starFree (JSText.numberToString z) = true.
Proof.
  unfold JSText.numberToString, NilZero.string_of_int, NilZero.string_of_uint.
  destruct (Z.to_int z) as [d | d]; destruct d; cbn; auto using uint_starFree.
Qed.

(** The entries are appended to whatever text comes before them. *)
Lemma formatEntries_tail (hostname : string -> option string)
    (results : list SearchResult) (index : Z) :
  exists tail, forall output,
    fst (fold_left (formatEntry hostname) results (output, index)) = output ++ tail.
Proof.
  revert index. induction results as [|r results IH]; intros index.
  - exists EmptyString. intros output. cbn.
    induction output as [|x o IHo]; cbn; [reflexivity | now rewrite <- IHo].
  - destruct (IH (index + 1)) as [tail T]. cbn [fold_left formatEntry].
    eexists. intros output. rewrite T. rewrite !string_app_assoc. reflexivity.
Qed.

(** A text with the freshness line after an asterisk-free beginning gets
    the cache marker in its place. *)
Lemma serveCached_fresh (a b age : string) (latency : Z) :
  starFree a = true ->
  serveCached (a ++ "*Fresh results" ++ b) age latency
    = a ++ ("*Results from cache (" ++ age ++ ")") ++ b.
Proof.
  intros H. unfold serveCached, JSText.includes, JSText.replace.
  rewrite (cutAt_after_starFree a "Fresh results" b H). reflexivity.
Qed.

(** X15. What a hit shows.  A text rendered by [formatResults] for fresh
    results, when served from the cache, is the text [formatResults]
    renders for the same results as cached ones with the given age: the
    freshness line alone changes, and it still shows the latency of the
    original fetch, not of the hit (the query must not contain an
    asterisk).  The text of an empty result set has no freshness line: it
    is served with a cache line put before it, with the latency of the
    hit. *)
Theorem cached_text_is_rendered_as_cached (hostname : string -> option string)
    (results : list SearchResult) (query age : string) (count latency hitLatency : Z)
    (Hresults : results <> [])
    (Hquery : starFree query = true)
    (Hage : age <> EmptyString) :
  serveCached
    (formatResults hostname
       {| Rendering.results := results;
          metadata := {| Rendering.query := query; Rendering.count := count;
                         cached := false; latencyMs := latency; cacheAge := None |} |})
    age hitLatency
  = formatResults hostname
      {| Rendering.results := results;
         metadata := {| Rendering.query := query; Rendering.count := count;
                        cached := true; latencyMs := latency; cacheAge := Some age |} |}
  /\
  serveCached
    (formatResults hostname
       {| Rendering.results := [];
          metadata := {| Rendering.query := query; Rendering.count := count;
                         cached := false; latencyMs := latency; cacheAge := None |} |})
    age hitLatency
  = "*Results from cache (" ++ age ++ ") - " ++ JSText.numberToString hitLatency
      ++ "ms*" ++ JS.nl ++ JS.nl ++ "No results found for your query.".
Proof.
  split.
  2:{ unfold formatResults, serveCached. cbn [Rendering.results].
      change (JSText.includes "No results found for your query." "*Fresh results")
        with false.
      change (JSText.includes "No results found for your query." "*Results from cache")
        with false.
      cbv iota. rewrite !string_app_assoc. reflexivity. }
  unfold formatResults. cbn [Rendering.results].
  destruct results as [|r0 results0] eqn:R; [congruence|]. rewrite <- R. clear Hresults.
  destruct (formatEntries_tail hostname results 0) as [tail T].
  rewrite !T. unfold formatHead.
  cbn [metadata Rendering.query cached latencyMs cacheAge Rendering.results orElse].
  assert (A : JS.truthy age = true) by (destruct age; [congruence | reflexivity]).
  rewrite A.
  set (a := "# Search Results for " ++ JSText.quote ++ query ++ JSText.quote ++ " ("
            ++ JSText.numberToString (Z.of_nat (List.length results)) ++ " results)"
            ++ JS.nl ++ JS.nl).
  set (b := " - " ++ JSText.numberToString latency ++ "ms*" ++ JS.nl ++ JS.nl
            ++ "---" ++ JS.nl ++ JS.nl ++ tail).
  assert (SA : starFree a = true).
  { unfold a. rewrite !starFree_app, Hquery, numberToString_starFree. reflexivity. }
  transitivity (serveCached (a ++ "*Fresh results" ++ b) age hitLatency).
  - f_equal. unfold a, b. rewrite !string_app_assoc. reflexivity.
  - rewrite (serveCached_fresh a b age hitLatency SA).
    unfold a, b. rewrite !string_app_assoc. reflexivity.
Qed.

Lemma cached_text_is_rendered_as_cached_witness :
  serveCached
    (processRaw cacheOn cacheUp "rocq"
       ("Title: Rocq" ++ JS.nl ++ "Description: A proof assistant" ++ JS.nl
        ++ "URL: https://rocq-prover.org/") 350)
    "2m ago" 40
  = "# Search Results for " ++ JSText.quote ++ "rocq" ++ JSText.quote ++ " (1 results)"
      ++ JS.nl ++ JS.nl
      ++ "*Results from cache (2m ago) - 350ms*" ++ JS.nl ++ JS.nl
      ++ "---" ++ JS.nl ++ JS.nl
      ++ "## 1. Rocq" ++ JS.nl
      ++ "**Source**: rocq-prover.org | **URL**: https://rocq-prover.org/" ++ JS.nl ++ JS.nl
      ++ "A proof assistant" ++ JS.nl ++ JS.nl
      ++ "---" ++ JS.nl ++ JS.nl.
Proof.
  destruct (cached_text_is_rendered_as_cached RenderingView.toyHostname
              [ {| title := Some "Rocq"; description := Some "A proof assistant";
                   url := Some "https://rocq-prover.org/" |} ]
              "rocq" "2m ago" 1 350 40) as [E _].
  - discriminate.
  - reflexivity.
  - discriminate.
  - transitivity
      (serveCached
         (formatResults RenderingView.toyHostname
            {| Rendering.results :=
                 [ {| title := Some "Rocq"; description := Some "A proof assistant";
                      url := Some "https://rocq-prover.org/" |} ];
               metadata := {| Rendering.query := "rocq"; Rendering.count := 1;
                              cached := false; latencyMs := 350; cacheAge := None |} |})
         "2m ago" 40).
    + vm_compute. reflexivity.
    + rewrite E. vm_compute. reflexivity.
Defined.

End ServedText.

(* ====================================================================== *)
(** * The round trip from the upstream text to the parsed results *)
(* ====================================================================== *)

Section RoundTrip.
Import ResultProcessor ParserView BraveSearch RoundTripView.
Local Open Scope string_scope.

Lemma string_app_nil (a : string) : a ++ EmptyString = a.
Proof. induction a as [|x a IH]; cbn; [reflexivity | now rewrite IH]. Qed.

Lemma singleLine_app (a b : string) :
  singleLine (a ++ b) = singleLine a && singleLine b.
Proof.
  induction a as [|x a IH]; cbn; [reflexivity|]. rewrite IH. now rewrite andb_assoc.
Qed.

Lemma prefix_LF (c : ascii) (s : string) :
  String.prefix JS.nl (String c s) = Ascii.eqb c JS.LF.
Proof.
  unfold JS.nl. cbn [String.prefix].
  destruct (ascii_dec JS.LF c) as [<- | N].
  - now destruct s.
  - symmetry. apply Ascii.eqb_neq. congruence.
Qed.

(** Splitting at line feeds passes over a text without line feed. *)
Lemma splitFrom_line (a rest acc : string) :
  singleLine a = true ->
  JS.splitFrom JS.nl 0 acc (a ++ rest) = JS.splitFrom JS.nl 0 (acc ++ a) rest.
Proof.
  revert acc. induction a as [|x a IH]; intros acc H.
  - now rewrite string_app_nil.
  - cbn [singleLine] in H. apply andb_prop in H. destruct H as [X H].
    change (String x a ++ rest) with (String x (a ++ rest)).
    cbn [JS.splitFrom]. rewrite prefix_LF.
    apply negb_true_iff in X. rewrite X, (IH _ H), string_app_assoc. reflexivity.
Qed.

Lemma split_lines (a rest : string) :
  singleLine a = true ->
  JS.split JS.nl (a ++ JS.nl ++ rest) = a :: JS.split JS.nl rest.
Proof.
  intros H. unfold JS.split. rewrite (splitFrom_line a _ _ H).
  cbn [append JS.nl JS.splitFrom]. rewrite prefix_LF, Ascii.eqb_refl. reflexivity.
Qed.

Lemma split_last_line (a : string) :
  singleLine a = true -> JS.split JS.nl a = [a].
Proof.
  intros H. unfold JS.split. rewrite <- (string_app_nil a) at 1.
  rewrite (splitFrom_line a _ _ H). reflexivity.
Qed.

Lemma prefix_LFLF (c : ascii) (s : string) :
  String.prefix (JS.nl ++ JS.nl) (String c s) =
    Ascii.eqb c JS.LF &&
    match s with String c' _ => Ascii.eqb c' JS.LF | EmptyString => false end.
Proof.
  change (JS.nl ++ JS.nl) with (String JS.LF JS.nl).
  cbn [String.prefix].
  destruct (ascii_dec JS.LF c) as [<- | N].
  - rewrite Ascii.eqb_refl. cbn [andb].
    destruct s as [|c' s]; [reflexivity | apply prefix_LF].
  - replace (Ascii.eqb c JS.LF) with false
      by (symmetry; apply Ascii.eqb_neq; congruence).
    reflexivity.
Qed.

(** Splitting at blank lines passes over a tidy block that is followed by
    a blank line or by nothing. *)
Lemma splitFrom_block (b rest acc : string) :
  tidy b = true ->
  (rest = EmptyString \/ exists rest', rest = JS.nl ++ JS.nl ++ rest') ->
  JS.splitFrom (JS.nl ++ JS.nl) 0 acc (b ++ rest)
    = JS.splitFrom (JS.nl ++ JS.nl) 0 (acc ++ b) rest.
Proof.
  intros T R. revert acc T. induction b as [|x b IH]; intros acc T.
  - now rewrite string_app_nil.
  - change (String x b ++ rest) with (String x (b ++ rest)).
    cbn [JS.splitFrom]. rewrite prefix_LFLF.
    cbn [tidy] in T.
    assert (N : Ascii.eqb x JS.LF &&
                match b ++ rest with
                | String c' _ => Ascii.eqb c' JS.LF
                | EmptyString => false
                end = false /\ tidy b = true).
    { destruct (Ascii.eqb x JS.LF); [|auto].
      apply andb_prop in T. destruct T as [T1 T2]. split; [|exact T2].
      destruct b as [|c' b]; [discriminate|].
      cbn [append andb]. now apply negb_true_iff. }
    destruct N as [N T']. rewrite N, (IH _ T'), string_app_assoc. reflexivity.
Qed.

Lemma split_blocks (blocks : list string) :
  blocks <> [] -> Forall (fun b => tidy b = true) blocks ->
  JS.split (JS.nl ++ JS.nl) (JS.join (JS.nl ++ JS.nl) blocks) = blocks.
Proof.
  intros N F. induction F as [|b blocks Tb F IH]; [congruence|].
  destruct blocks as [|b' blocks].
  - cbn [JS.join]. unfold JS.split.
    rewrite <- (string_app_nil b) at 1.
    rewrite (splitFrom_block b EmptyString EmptyString Tb) by now left. reflexivity.
  - change (JS.join (JS.nl ++ JS.nl) (b :: b' :: blocks))
      with (b ++ (JS.nl ++ JS.nl) ++ JS.join (JS.nl ++ JS.nl) (b' :: blocks)).
    unfold JS.split.
    rewrite (splitFrom_block b _ EmptyString Tb).
    2:{ right. eexists. rewrite string_app_assoc. reflexivity. }
    cbn [JS.nl append JS.splitFrom String.length Nat.sub].
    fold JS.nl.
    change (String JS.LF (String JS.LF EmptyString)) with (JS.nl ++ JS.nl).
    rewrite prefix_LFLF, Ascii.eqb_refl. cbn [andb].
    f_equal. apply IH. discriminate.
Qed.

Lemma tidy_after_line (a s : string) : singleLine a = true -> tidy (a ++ s) = tidy s.
Proof.
  intros H. induction a as [|x a IH]; [reflexivity|].
  cbn [singleLine] in H. apply andb_prop in H. destruct H as [X H].
  cbn [append tidy]. apply negb_true_iff in X. rewrite X. now apply IH.
Qed.

Lemma tidy_of_line (a : string) : singleLine a = true -> tidy a = true.
Proof.
  intros H. rewrite <- (string_app_nil a). now rewrite tidy_after_line.
Qed.

Lemma blockOf_tidy (r : WebResult) : singleLineResult r -> tidy (blockOf r) = true.
Proof.
  intros (T & D & U). unfold blockOf.
  change (tidy ("Title: " ++ title r ++ JS.nl ++ "Description: " ++ description r
                ++ JS.nl ++ "URL: " ++ url r))
    with (tidy (title r ++ JS.nl ++ "Description: " ++ description r
                ++ JS.nl ++ "URL: " ++ url r)).
  rewrite (tidy_after_line _ _ T).
  change (tidy (JS.nl ++ "Description: " ++ description r ++ JS.nl ++ "URL: " ++ url r))
    with (tidy (description r ++ JS.nl ++ "URL: " ++ url r)).
  rewrite (tidy_after_line _ _ D).
  change (tidy (JS.nl ++ "URL: " ++ url r)) with (tidy (url r)).
  now apply tidy_of_line.
Qed.

Lemma parseBlock_blockOf (r : WebResult) :
  singleLineResult r -> parseBlock (blockOf r) = parsedItem r.
Proof.
  intros (T & D & U). unfold parseBlock, blockOf.
  change ("Title: " ++ title r ++ JS.nl ++ "Description: " ++ description r
          ++ JS.nl ++ "URL: " ++ url r)
    with (("Title: " ++ title r) ++ JS.nl ++
          ("Description: " ++ description r) ++ JS.nl ++ ("URL: " ++ url r)).
  rewrite split_lines by (rewrite singleLine_app, T; reflexivity).
  rewrite split_lines by (rewrite singleLine_app, D; reflexivity).
  rewrite split_last_line by (rewrite singleLine_app, U; reflexivity).
  cbn [fold_left]. unfold parseLine at 3. unfold JS.startsWith.
  rewrite prefix_app.
  change (JS.substring 7 ("Title: " ++ title r)) with (title r).
  unfold parseLine at 2.
  change (JS.startsWith ("Description: " ++ description r) "Title: ") with false.
  unfold JS.startsWith. rewrite prefix_app. cbv iota.
  change (JS.substring 13 ("Description: " ++ description r)) with (description r).
  unfold parseLine.
  change (JS.startsWith ("URL: " ++ url r) "Title: ") with false.
  change (JS.startsWith ("URL: " ++ url r) "Description: ") with false.
  unfold JS.startsWith. rewrite prefix_app. cbv iota.
  reflexivity.
Qed.

Lemma blockOf_not_blank (r : WebResult) : JS.truthy (JS.trim (blockOf r)) = true.
Proof.
  unfold blockOf, JS.trim.
  change (JS.trimStart ("Title: " ++ title r ++ JS.nl ++ "Description: " ++ description r
                        ++ JS.nl ++ "URL: " ++ url r))
    with ("Title: " ++ title r ++ JS.nl ++ "Description: " ++ description r
          ++ JS.nl ++ "URL: " ++ url r).
  cbn [append JS.trimEnd].
  destruct (JS.trimEnd _); reflexivity.
Qed.

Lemma withFallbacks_singleLine (r : WebResult) :
  singleLineResult r -> singleLineResult (withFallbacks r).
Proof.
  intros (T & D & U). unfold singleLineResult, withFallbacks, orElse.
  cbn [title description url].
  destruct (JS.truthy (title r)), (JS.truthy (description r)), (JS.truthy (url r));
    auto.
Qed.

Lemma formatData_blocks (data : BraveWeb) :
  resultsOf data <> [] ->
  formatData data = JS.join (JS.nl ++ JS.nl) (map blockOf (map withFallbacks (resultsOf data))).
Proof.
  unfold formatData, resultsOf. intros N.
  destruct (web data) as [w|]; [|congruence].
  destruct (BraveSearch.results w) as [l|]; [|congruence].
  destruct l as [|r l]; [congruence|]. reflexivity.
Qed.

(** X16. The parser reads back what [performBraveSearch] writes.  When no
    field of the upstream results holds a line feed, parsing the text of a
    successful search gives, in order, one item per result, with the
    fall-backs for empty fields applied and every field trimmed — except
    the results whose title or URL is blank, which are lost.  The text of
    an empty result list parses to no item. *)
Theorem parse_reads_back_formatData (data : BraveWeb)
    (Hlines : Forall singleLineResult (resultsOf data)) :
  parseSearchResults (formatData data)
    = map parsedItem (filter survives (map withFallbacks (resultsOf data))).
Proof.
  destruct (resultsOf data) as [|r0 l0] eqn:R.
  - cbn [map filter].
    assert (E : formatData data = "No results found for your query.").
    { unfold formatData, resultsOf in *.
      destruct (web data) as [w|]; [|reflexivity].
      destruct (BraveSearch.results w) as [l|]; [|reflexivity]. now subst l. }
    rewrite E. vm_compute. reflexivity.
  - rewrite <- R in *. assert (N : resultsOf data <> []) by (rewrite R; discriminate).
    rewrite (formatData_blocks data N).
    set (shownResults := map withFallbacks (resultsOf data)).
    assert (SL : Forall singleLineResult shownResults).
    { unfold shownResults. apply Forall_forall. intros x Ix.
      apply in_map_iff in Ix. destruct Ix as (y & <- & Iy).
      apply withFallbacks_singleLine. rewrite Forall_forall in Hlines. now apply Hlines. }
    assert (NE : map blockOf shownResults <> []).
    { unfold shownResults. rewrite R. discriminate. }
    unfold parseSearchResults, resultBlocks.
    rewrite split_blocks; [|exact NE|].
    2:{ apply Forall_forall. intros b Ib. apply in_map_iff in Ib.
        destruct Ib as (x & <- & Ix). apply blockOf_tidy.
        rewrite Forall_forall in SL. now apply SL. }
    rewrite fold_pushBlock. cbn [app].
    clear NE N. induction SL as [|x xs Sx SL IH]; [reflexivity|].
    cbn [map filter]. rewrite blockOf_not_blank. cbn [filter].
    unfold emitted at 1. rewrite (parseBlock_blockOf x Sx).
    cbn [ResultProcessor.title ResultProcessor.url parsedItem present].
    fold (survives x).
    destruct (survives x); cbn [map]; rewrite ?(parseBlock_blockOf x Sx); now rewrite IH.
Qed.

Lemma parse_reads_back_formatData_witness :
  parseSearchResults (formatData twoResults) =
    [ {| ResultProcessor.title := Some "Rocq";
         ResultProcessor.description := Some "A proof assistant";
         ResultProcessor.url := Some "https://rocq-prover.org/" |} ].
Proof.
  rewrite (parse_reads_back_formatData twoResults).
  - vm_compute. reflexivity.
  - repeat constructor.
Defined.

(** A line feed inside a field is read as a line of the block: the title
    that comes back is that of the second line. *)
Example line_feed_in_title_is_read_as_a_line :
  parseSearchResults (formatData twoLineTitle) =
    [ {| ResultProcessor.title := Some "Coq";
         ResultProcessor.description := Some "A proof assistant";
         ResultProcessor.url := Some "https://rocq-prover.org/" |} ].
Proof. vm_compute. reflexivity. Qed.

End RoundTrip.

(* ====================================================================== *)
(** * Facts about the multi-link tool *)
(* ====================================================================== *)

Section MultiLinkFacts.
Import BraveSearch LoopView MultiLink.
Local Open Scope list_scope.

Variable abortMessage : string.
Variable envOf : nat -> Env.

Lemma run_commits_at_most_once (env : Env) (rc : RequestCount) :
  (count isCommit (trace (performBraveSearch env rc)) <= 1)%nat /\
  final (performBraveSearch env rc) = replay (trace (performBraveSearch env rc)) rc.
Proof.
  destruct (performBraveSearch_accounted env rc) as [F [OK | [UT | KO]]].
  - destruct OK as (text & pre & a & data & C & T & [Q1 Q2]).
    split; [|exact F]. rewrite T, count_app, Q2. cbn. lia.
  - destruct UT as (pre & a & reading & C & T & [Q1 Q2]).
    split; [|exact F]. rewrite T, count_app, Q2. cbn. lia.
  - destruct KO as (e & C & [Q1 Q2]). split; [|exact F]. rewrite Q2. lia.
Qed.

Lemma multiLinkStep_invariant (rc : RequestCount) (total : nat) (st : LoopState)
    (iq : nat * string) :
  multiLinkInvariant rc st ->
  multiLinkInvariant rc (multiLinkStep abortMessage envOf total st iq) /\
  List.length (searchResults (multiLinkStep abortMessage envOf total st iq))
    = S (List.length (searchResults st)).
Proof.
  intros (C & F & M). destruct iq as [i query].
  unfold multiLinkStep, performBraveSearchForQuery.
  cbn [searchResults counters events].
  destruct (run_commits_at_most_once (envOf i) (counters st)) as [M1 R1].
  pose proof (fetches_at_most_maxAttempts (envOf i) (counters st)) as F1.
  change (Z.to_nat (maxAttempts RETRY_CONFIG)) with 3%nat in F1.
  rewrite length_app. cbn [List.length].
  split; [|lia].
  unfold multiLinkInvariant. cbn [searchResults counters events].
  rewrite length_app. cbn [List.length].
  rewrite !replay_app, !count_app, <- C, <- R1.
  destruct (i <? total - 1)%nat; cbn [replay fold_left replayEvent];
    unfold count in *; cbn [filter isFetch isCommit List.length];
    repeat split; try reflexivity; lia.
Qed.

Lemma multiLink_loop (rc : RequestCount) (total : nat) (l : list (nat * string))
    (st : LoopState) :
  multiLinkInvariant rc st ->
  multiLinkInvariant rc (fold_left (multiLinkStep abortMessage envOf total) l st) /\
  List.length (searchResults (fold_left (multiLinkStep abortMessage envOf total) l st))
    = (List.length (searchResults st) + List.length l)%nat.
Proof.
  revert st. induction l as [|iq l IH]; intros st I.
  - cbn. split; [exact I | lia].
  - cbn [fold_left List.length].
    destruct (multiLinkStep_invariant rc total st iq I) as [I' L'].
    destruct (IH _ I') as [I'' L'']. split; [exact I''|]. rewrite L'', L'. lia.
Qed.

Lemma find_none_forallb (queries : list string) :
  find (fun query => (400 <? String.length query)%nat) queries = None <->
  forallb (fun query => (String.length query <=? 400)%nat) queries = true.
Proof.
  induction queries as [|q queries IH]; cbn [find forallb]; [tauto|].
  destruct (400 <? String.length q)%nat eqn:E.
  - apply Nat.ltb_lt in E.
    replace (String.length q <=? 400)%nat with false by (symmetry; apply Nat.leb_gt; lia).
    cbn. split; discriminate.
  - apply Nat.ltb_ge in E.
    replace (String.length q <=? 400)%nat with true by (symmetry; apply Nat.leb_le; lia).
    exact IH.
Qed.

(** X17. [executeMultiLinkSearch] reports an error exactly when the list of
    queries is empty, holds more than 10 queries, or holds a query of more
    than 400 characters, and then makes no upstream call and leaves the
    request counters alone.  On accepted arguments it never reports an
    error, whatever the single searches do: it yields one section per query,
    joined into the text; its counters are those its events lead to; and
    over the whole call it makes at most three fetches and one commit per
    query. *)
Theorem multiLink_validates_then_always_answers (queries : list string)
    (rc : RequestCount) :
  isError (fst (executeMultiLinkSearch abortMessage envOf queries rc))
    = negb (accepted queries) /\
  (accepted queries = false ->
     events (snd (executeMultiLinkSearch abortMessage envOf queries rc)) = [] /\
     counters (snd (executeMultiLinkSearch abortMessage envOf queries rc)) = rc) /\
  (accepted queries = true ->
     List.length (searchResults (snd (executeMultiLinkSearch abortMessage envOf queries rc)))
       = List.length queries /\
     text (fst (executeMultiLinkSearch abortMessage envOf queries rc))
       = JS.join (JS.nl ++ JS.nl ++ "---" ++ JS.nl ++ JS.nl)%string
           (searchResults (snd (executeMultiLinkSearch abortMessage envOf queries rc))) /\
     multiLinkInvariant rc (snd (executeMultiLinkSearch abortMessage envOf queries rc))).
Proof.
  unfold executeMultiLinkSearch, accepted.
  destruct (List.length queries =? 0)%nat eqn:E0.
  { cbn. repeat split; auto; discriminate. }
  destruct (10 <? List.length queries)%nat eqn:E10.
  { apply Nat.ltb_lt in E10.
    replace (List.length queries <=? 10)%nat with false by (symmetry; apply Nat.leb_gt; lia).
    cbn. repeat split; auto; discriminate. }
  apply Nat.ltb_ge in E10.
  replace (List.length queries <=? 10)%nat with true by (symmetry; apply Nat.leb_le; lia).
  cbn [negb andb].
  destruct (find (fun query => (400 <? String.length query)%nat) queries) as [q|] eqn:Fd.
  - assert (B : forallb (fun query => (String.length query <=? 400)%nat) queries = false).
    { destruct (forallb _ queries) eqn:B; [|reflexivity].
      apply find_none_forallb in B. congruence. }
    rewrite B. cbn. repeat split; auto; discriminate.
  - apply find_none_forallb in Fd. rewrite Fd. cbn [fst snd isError text negb].
    split; [reflexivity|]. split; [discriminate|]. intros _.
    destruct (multiLink_loop rc (List.length queries) (indexed queries)
                {| searchResults := []; counters := rc; events := [] |}) as [I L].
    { repeat split; cbn; lia. }
    split; [|split; [reflexivity | exact I]].
    rewrite L. cbn [searchResults List.length]. unfold indexed.
    rewrite length_combine, length_seq. lia.
Qed.

End MultiLinkFacts.

Section MultiLinkExamples.
Import BraveSearch LoopView MultiLink.
Local Open Scope list_scope.

(** Three queries against [mixedUpstream]: no error is reported, the second
    section carries the error of its search, and two commits are made. *)
Lemma multiLink_validates_then_always_answers_witness :
  accepted ["a"; "b"; "c"] = true /\
  isError (fst (executeMultiLinkSearch "aborted" mixedUpstream ["a"; "b"; "c"] idle))
    = false /\
  List.length (searchResults
                 (snd (executeMultiLinkSearch "aborted" mixedUpstream ["a"; "b"; "c"] idle)))
    = 3%nat /\
  count isCommit (events (snd (executeMultiLinkSearch "aborted" mixedUpstream
                                 ["a"; "b"; "c"] idle))) = 2%nat /\
  isError (fst (executeMultiLinkSearch "aborted" mixedUpstream [] idle)) = true.
Proof.
  destruct (multiLink_validates_then_always_answers "aborted" mixedUpstream
              ["a"; "b"; "c"] idle) as (E & _ & A).
  destruct (multiLink_validates_then_always_answers "aborted" mixedUpstream [] idle)
    as (E' & _).
  assert (Acc : accepted ["a"; "b"; "c"] = true) by reflexivity.
  destruct (A Acc) as (L & _ & _).
  split; [exact Acc|]. split; [rewrite E, Acc; reflexivity|].
  split; [exact L|]. split; [vm_compute; reflexivity|].
  rewrite E'. reflexivity.
Defined.

End MultiLinkExamples.

(* ====================================================================== *)
(** * Facts about the model loader *)
(* ====================================================================== *)

Section ModelLoader.
Import SemanticCache EmbeddingService.
Local Open Scope list_scope.

Variable env : EmbeddingService.Env.

Lemma embedBody_wellFormed (st : State) (text : string) :
  initialized st = true -> wellFormed st ->
  wellFormed (snd (embedBody env st text)) /\
  initialized (snd (embedBody env st text)) = true.
Proof.
  intros I (P & k & texts & H). rewrite I in P, H.
  unfold embedBody. rewrite P.
  assert (W : wellFormed (record (Ran text) st)).
  { split; cbn [record pipeline initialized history]; rewrite I; [exact P|].
    exists k, (texts ++ [text]). rewrite H, map_app, <- app_assoc. reflexivity. }
  destruct (runs env _ text); cbn [snd]; (split; [|exact I]).
  - exact W.
  - destruct W as (P' & W'). split; [exact P' | exact W'].
Qed.

Lemma initialize_wellFormed (st : State) :
  wellFormed st -> wellFormed (snd (initialize env st)).
Proof.
  intros W. unfold initialize. destruct (initialized st) eqn:I; [exact W|].
  destruct W as (P & k & texts & H). rewrite I in P, H. rewrite app_nil_r in H.
  destruct (pipelineLoads env _) as [p|e].
  - destruct p.
    set (loaded := {| pipeline := Some FeatureExtraction; initialized := true;
                      history := history st ++ [Loaded]; log := log st |}).
    assert (WL : wellFormed loaded ->
                 wellFormed (snd (embedBody env loaded "warmup query"))).
    { intros WL. apply (embedBody_wellFormed loaded "warmup query" eq_refl WL). }
    unfold embedBody in *. cbn [pipeline loaded] in *.
    assert (W1 : wellFormed (record (Ran "warmup query") loaded)).
    { split; [reflexivity|]. exists k, []. cbn [record history initialized loaded map].
      rewrite H, <- app_assoc. reflexivity. }
    destruct (runs env _ "warmup query"); cbn [snd]; [exact W1|].
    destruct W1 as (P1 & W1). split; [exact P1 | exact W1].
  - cbn [snd]. split; cbn [logError record pipeline initialized history]; rewrite I;
      [exact P|].
    exists (S k), []. rewrite H, app_nil_r. symmetry. apply repeat_cons.
Qed.

Lemma initialize_initialized (st : State) (u : unit) :
  fst (initialize env st) = Resolved u -> initialized (snd (initialize env st)) = true.
Proof.
  unfold initialize. destruct (initialized st) eqn:I; [intros _; exact I|].
  destruct (pipelineLoads env _) as [p|e]; [|discriminate].
  unfold embedBody. cbn [pipeline].
  destruct (runs env _ "warmup query"); cbn; [reflexivity | discriminate].
Qed.

Lemma serve_wellFormed (st : State) (r : Request) :
  wellFormed st -> wellFormed (serve env st r).
Proof.
  intros W. destruct r as [|text]; cbn [serve].
  - apply initialize_wellFormed, W.
  - unfold embed. destruct (initialized st) eqn:I.
    + apply embedBody_wellFormed; assumption.
    + pose proof (initialize_wellFormed st W) as W'.
      pose proof (initialize_initialized st) as I'.
      destruct (initialize env st) as [[u|e] st']; cbn [fst snd] in *; [|exact W'].
      apply embedBody_wellFormed; [apply (I' u eq_refl) | exact W'].
Qed.

(** X18. Whatever requests are served, and however the library answers,
    the state of [EmbeddingService] keeps one shape: failed loads come
    first and each is tried again by the next request; the model is loaded
    at most once; the warm-up run follows the load directly; the pipeline
    never runs before the load has succeeded; and [pipeline] is set exactly
    when [initialized] is. *)
Theorem model_is_loaded_once_and_warmed_up (requests : list Request) :
  wellFormed (serveAll env requests).
Proof.
  unfold serveAll.
  assert (G : forall st, wellFormed st -> wellFormed (fold_left (serve env) requests st)).
  { induction requests as [|r rs IH]; intros st W; [exact W|].
    cbn [fold_left]. apply IH, serve_wellFormed, W. }
  apply G. split; [reflexivity|]. exists 0%nat, []. reflexivity.
Qed.

(** X19. A warm-up that fails leaves the service initialised.  When the
    model loads and the warm-up run throws, [initialize] rejects with the
    warm-up's error, logged as a failure to load the model, and so does an
    [embed] that had to initialise, without the pipeline being asked about
    its text; yet [initialized] is set: the next [initialize] returns at
    once without a call of the library, and the next [embed] runs the
    pipeline on its text alone and settles as that run does. *)
Theorem failed_warmup_leaves_service_initialized (st : State) (p : Pipeline)
    (e text : string) :
  initialized st = false ->
  pipelineLoads env (List.length (filter isLoad (history st))) = Resolved p ->
  runs env (List.length (filter isRan (history st))) "warmup query" = Rejected e ->
  fst (initialize env st) = Rejected e /\
  embed env st text = (Rejected e, snd (initialize env st)) /\
  initialized (snd (initialize env st)) = true /\
  history (snd (initialize env st)) = history st ++ [Loaded; Ran "warmup query"] /\
  log (snd (initialize env st))
    = log st ++ [(error, "[Embeddings] Failed to generate embedding");
                 (error, "[Embeddings] Failed to load model")] /\
  initialize env (snd (initialize env st)) = (Resolved tt, snd (initialize env st)) /\
  fst (embed env (snd (initialize env st)) text)
    = runs env (S (List.length (filter isRan (history st)))) text /\
  history (snd (embed env (snd (initialize env st)) text))
    = history st ++ [Loaded; Ran "warmup query"; Ran text].
Proof.
  intros I L R.
  assert (N : List.length (filter isRan (history st ++ [Loaded]))
              = List.length (filter isRan (history st))).
  { rewrite filter_app, length_app. cbn. lia. }
  assert (E : initialize env st =
              (Rejected e,
               {| pipeline := Some p; initialized := true;
                  history := history st ++ [Loaded; Ran "warmup query"];
                  log := log st ++ [(error, "[Embeddings] Failed to generate embedding");
                                      (error, "[Embeddings] Failed to load model")] |})).
  { unfold initialize. rewrite I, L. unfold embedBody.
    cbn [pipeline history]. rewrite N, R.
    unfold logError, record. cbn [pipeline initialized history log].
    rewrite <- !app_assoc. reflexivity. }
  unfold embed at 1. rewrite I, E. cbn [fst snd initialized history log].
  repeat split; try reflexivity.
  - unfold embed, embedBody. cbn [initialized pipeline history].
    rewrite filter_app, length_app.
    replace (List.length (filter isRan [Loaded; Ran "warmup query"])) with 1%nat
      by reflexivity.
    rewrite Nat.add_1_r. destruct (runs env _ text); reflexivity.
  - unfold embed, embedBody. cbn [initialized pipeline history].
    destruct (runs env _ text); unfold logError, record; cbn [snd history];
      rewrite <- app_assoc; reflexivity.
Qed.

End ModelLoader.

Section ModelLoaderExamples.
Import SemanticCache EmbeddingService.
Local Open Scope list_scope.

(** On [coldLibrary] the first [embed] fails with the warm-up's error and
    the second succeeds. *)
Lemma failed_warmup_leaves_service_initialized_witness :
  initialized fresh = false /\
  fst (embed coldLibrary fresh "rust traits") = Rejected "wasm: out of memory" /\
  initialized (snd (initialize coldLibrary fresh)) = true /\
  fst (embed coldLibrary (snd (initialize coldLibrary fresh)) "rust traits")
    = Resolved [1%float].
Proof.
  destruct (failed_warmup_leaves_service_initialized coldLibrary fresh
              FeatureExtraction "wasm: out of memory" "rust traits"
              eq_refl eq_refl eq_refl)
    as (_ & E & I & _ & _ & _ & R & _).
  split; [reflexivity|]. split; [rewrite E; reflexivity|].
  split; [exact I|]. rewrite R. reflexivity.
Defined.

(** On [shakyLibrary] three requests give one failed load, the load, the
    failed warm-up and one run. *)
Example shaky_history :
  history (serveAll shakyLibrary [Embed "a"; Initialize; Embed "b"])
    = [LoadFailed; Loaded; Ran "warmup query"; Ran "b"].
Proof. reflexivity. Qed.

End ModelLoaderExamples.
